(** * AI interview platform: a shallow embedding of the Python services

    The development follows the layout of the repository:

    - [Py]                 the Python builtins the services rely on
                           (str methods, min/max on floats, statistics.mean,
                           exceptions);
    - [ResponseModels]     models/response_models.py, models/request_models.py;
    - [EvaluationService]  services/evaluation_service.py;
    - [QuestionGenerator]  services/question_generator.py;
    - [SessionManager]     storage/session_manager.py;
    - [Main]               main.py (the FastAPI handlers and the background task);
    - [Disk]               storage/session_manager.py and the submit handler
                           again, with the files that the ids name;
    - [Graph2]             graph2.py (the audio streamer and the websocket receiver);
    - [Spec]               the vocabulary of the specification the theorems
                           are stated in, and stand-ins for the external
                           services on which the code is evaluated.

    Conventions.  A Python [str] is a [string] (a sequence of bytes, so the
    whitespace that [strip] and [split] know is ASCII whitespace).  A Python
    [float] that has gone through a clamp or comes from a request body is a
    rational [Q]; what [float(...)] returns on text is an [fval], which also
    has the infinities and NaN.  A call that may raise returns a [result];
    a language-model call returns [option string], [None] standing for any
    exception of the client library. *)

From Stdlib Require Import ZArith QArith Qround List String Ascii Bool Lia Lqa Sorted.
From stdpp Require Import base option list gmap strings pretty.
Import ListNotations.

Local Open Scope string_scope.
Local Open Scope list_scope.

(* ===================================================================== *)
(** ** Python builtins *)
(* ===================================================================== *)

Module Py.

(** [str.isspace] on one ASCII character: TAB, LF, VT, FF, CR, the four
    separators FS GS RS US, and the space. *)
Definition isspace (c : ascii) : bool :=
  let n := nat_of_ascii c in
  (((9 <=? n) && (n <=? 13)) || ((28 <=? n) && (n <=? 32)))%nat.

Definition is_empty (s : string) : bool :=
  match s with EmptyString => true | String _ _ => false end.

(** A Python [str] used as a condition: true when not empty. *)
Definition truthy (s : string) : bool := negb (is_empty s).

(** [s.lstrip(chars)]: drop the leading characters that satisfy [p]. *)
Fixpoint lstrip_with (p : ascii -> bool) (s : string) : string :=
  match s with
  | EmptyString => EmptyString
  | String c s' => if p c then lstrip_with p s' else s
  end.

(** [s.rstrip(chars)]. *)
Fixpoint rstrip_with (p : ascii -> bool) (s : string) : string :=
  match s with
  | EmptyString => EmptyString
  | String c s' =>
      let r := rstrip_with p s' in
      if is_empty r && p c then EmptyString else String c r
  end.

(** [s.strip()]. *)
Definition strip (s : string) : string := rstrip_with isspace (lstrip_with isspace s).

Fixpoint mem_ascii (c : ascii) (cs : string) : bool :=
  match cs with
  | EmptyString => false
  | String d cs' => Ascii.eqb c d || mem_ascii c cs'
  end.

(** [s.lstrip(chars)] with the set of characters given as a string. *)
Definition lstrip_chars (chars : string) (s : string) : string :=
  lstrip_with (fun c => mem_ascii c chars) s.

(** [s.split(sep)] for a one-character separator: never the empty list. *)
Fixpoint split_on (sep : ascii) (s : string) : list string :=
  match s with
  | EmptyString => [EmptyString]
  | String c s' =>
      if Ascii.eqb c sep then EmptyString :: split_on sep s'
      else match split_on sep s' with
           | [] => [String c EmptyString]
           | w :: ws => String c w :: ws
           end
  end.

(** [s.split(sep, 1)[1]]: what follows the first separator; [None] is the
    IndexError raised when there is no separator. *)
Fixpoint after_first (sep : ascii) (s : string) : option string :=
  match s with
  | EmptyString => None
  | String c s' => if Ascii.eqb c sep then Some s' else after_first sep s'
  end.

(** [s.split()]: the maximal runs of non-whitespace characters.  [cur] is the
    word being read. *)
Fixpoint words_aux (cur : string) (s : string) : list string :=
  match s with
  | EmptyString => if is_empty cur then [] else [cur]
  | String c s' =>
      if isspace c
      then (if is_empty cur then words_aux EmptyString s'
            else cur :: words_aux EmptyString s')
      else words_aux (cur ++ String c EmptyString) s'
  end.

Definition words (s : string) : list string := words_aux EmptyString s.

(** [s.startswith(p)]. *)
Definition startswith (p s : string) : bool := String.prefix p s.

(** [sep.join(l)]. *)
Fixpoint join (sep : string) (l : list string) : string :=
  match l with
  | [] => EmptyString
  | [x] => x
  | x :: rest => x ++ sep ++ join sep rest
  end.

(** [s[:n]]. *)
Definition str_take (n : nat) (s : string) : string := String.substring 0 n s.

(** [s.lower()] on ASCII letters. *)
Definition lower_ascii (c : ascii) : ascii :=
  let n := nat_of_ascii c in
  if ((65 <=? n) && (n <=? 90))%nat then ascii_of_nat (n + 32) else c.

Fixpoint lower (s : string) : string :=
  match s with
  | EmptyString => EmptyString
  | String c s' => String (lower_ascii c) (lower s')
  end.

(** The comprehension shared by the question, transition and recommendation
    parsers:
    [[r.strip().lstrip('1234567890.-) ') for r in text.split('\n') if r.strip()]] *)
Definition numbered_lines (text : string) : list string :=
  map (fun r => lstrip_chars "1234567890.-) " (strip r))
      (filter (fun r => truthy (strip r)) (split_on "010" text)).

(** The value of [float(text)]. *)
Inductive fval : Type :=
| Finite (q : Q)
| PosInf
| NegInf
| NaN.

(** [a < b] on floats: every comparison with NaN is false. *)
Definition flt (a b : fval) : bool :=
  match a, b with
  | Finite x, Finite y => negb (Qle_bool y x)
  | Finite _, PosInf => true
  | NegInf, Finite _ => true
  | NegInf, PosInf => true
  | _, _ => false
  end.

(** The builtin [min(a, b)]: [b] when [b < a], otherwise the first argument. *)
Definition py_min (a b : fval) : fval := if flt b a then b else a.

(** The builtin [max(a, b)]: [b] when [b > a], otherwise the first argument. *)
Definition py_max (a b : fval) : fval := if flt a b then b else a.

(** [max(0, min(10, x))], the clamp of both scoring paths. *)
Definition clamp_0_10 (x : fval) : fval :=
  py_max (Finite 0) (py_min (Finite 10) x).

Definition finite_part (x : fval) : Q :=
  match x with Finite q => q | _ => 0%Q end.

Definition Qsum (l : list Q) : Q := fold_right Qplus 0%Q l.

(** [statistics.mean]: [None] is the StatisticsError on no data. *)
Definition mean (l : list Q) : option Q :=
  match l with
  | [] => None
  | _ => Some (Qsum l / inject_Z (Z.of_nat (length l)))%Q
  end.

(** [round(x, 1)] on the exact value: to the nearest tenth, ties to even. *)
Definition round1 (x : Q) : Q :=
  let t := (x * 10)%Q in
  let f := Qfloor t in
  let r := (t - inject_Z f)%Q in
  let n := if Qle_bool r (1 # 2)
           then (if Qle_bool (1 # 2) r then (if Z.even f then f else f + 1)%Z else f)
           else (f + 1)%Z in
  (inject_Z n / 10)%Q.

(** Exceptions: FastAPI's HTTPException and every other Exception. *)
Inductive exn : Type :=
| HTTPException (status_code : Z) (detail : string)
| Exception (msg : string).

Inductive result (A : Type) : Type :=
| Ok (a : A)
| Raise (e : exn).

Arguments Ok {A} a.
Arguments Raise {A} e.

Definition bind {A B : Type} (r : result A) (k : A -> result B) : result B :=
  match r with
  | Ok a => k a
  | Raise e => Raise e
  end.

End Py.

(* ===================================================================== *)
(** ** models/request_models.py and models/response_models.py *)
(* ===================================================================== *)

Module RequestModels.

Record InterviewAnswer : Type := {
  question_id : Z;
  question_text : string;
  answer_text : string;
  answer_duration : Q
}.

Record SubmitInterviewRequest : Type := {
  session_id : string;
  interview_data : list InterviewAnswer
}.

End RequestModels.

Module ResponseModels.

Record QuestionData : Type := { id : Z; text : string }.

Record QuestionAnalysis : Type := {
  question_id : Z;
  score : Q;
  feedback : string;
  strengths : list string;
  improvements : list string
}.

Record Analytics : Type := {
  total_duration : string;
  average_response_time : Q;
  speaking_pace : string;
  technical_depth : string;
  communication_clarity : string;
  consistency_score : option Q
}.

(** [analytics.consistency_score = value] *)
Definition set_consistency_score (a : Analytics) (v : Q) : Analytics :=
  {| total_duration := total_duration a;
     average_response_time := average_response_time a;
     speaking_pace := speaking_pace a;
     technical_depth := technical_depth a;
     communication_clarity := communication_clarity a;
     consistency_score := Some v |}.

(** The dictionary [evaluate_complete_interview] returns, which
    [ResultsResponse] mirrors field by field. *)
Record ResultsResponse : Type := {
  overall_score : Q;
  overall_feedback : string;
  question_analysis : list QuestionAnalysis;
  analytics : Analytics;
  recommendations : list string
}.

Record InitializeResponse : Type := {
  ir_session_id : string;
  intro_message : string;
  questions : list QuestionData;
  transitions : list string
}.

Record SubmitInterviewResponse : Type := {
  evaluation_id : string;
  message : string
}.

End ResponseModels.

(* ===================================================================== *)
(** ** services/evaluation_service.py *)
(* ===================================================================== *)

Module EvaluationService.
Import Py RequestModels ResponseModels.

(** What each request to the language model interpolates into its fixed
    template; the model's answer is a function of the rendered text, hence of
    these fields. *)
Inductive prompt : Type :=
| ScorePrompt (role question answer : string)
| ConsistencyPrompt (answers : list (string * string))
| FeedbackPrompt (role : string) (avg_score : Q) (a : Analytics)
| RecommendationsPrompt (role : string) (top : list (string * nat)) (a : Analytics).

(** The state of the line-by-line parse in [_evaluate_single_answer]. *)
Record parsed : Type := {
  p_score : Q;
  p_feedback : string;
  p_strengths : list string;
  p_improvements : list string
}.

Definition parsed_default : parsed :=
  {| p_score := 5;
     p_feedback := "Unable to generate detailed feedback.";
     p_strengths := [];
     p_improvements := [] |}.

(** [[s.strip() for s in text.split('|') if s.strip()]] *)
Definition pipe_items (text : string) : list string :=
  map strip (filter (fun s => truthy (strip s)) (split_on "|" text)).

(** [text and text != 'None'] *)
Definition listed (text : string) : bool :=
  truthy text && negb (String.eqb text "None").

Section Service.

(** [self.llm.invoke(prompt).content]; [None] when the call raises. *)
Variable llm : prompt -> option string.

(** The builtin [float] on text; [None] is ValueError. *)
Variable py_float : string -> option fval.

(** One iteration of [for line in lines]; [None] is an exception leaving the
    loop (the IndexError of [split(':', 1)[1]]). *)
Definition parse_line (st : parsed) (raw : string) : option parsed :=
  let line := strip raw in
  if startswith "SCORE:" line then
    match after_first ":" line with
    | Some rest =>
        match py_float (strip rest) with
        | Some x =>
            Some {| p_score := finite_part (clamp_0_10 x);
                    p_feedback := p_feedback st;
                    p_strengths := p_strengths st;
                    p_improvements := p_improvements st |}
        | None => Some st
        end
    | None => Some st
    end
  else if startswith "FEEDBACK:" line then
    rest ← after_first ":" line;
    Some {| p_score := p_score st;
            p_feedback := strip rest;
            p_strengths := p_strengths st;
            p_improvements := p_improvements st |}
  else if startswith "STRENGTHS:" line then
    rest ← after_first ":" line;
    let strengths_text := strip rest in
    if listed strengths_text
    then Some {| p_score := p_score st;
                 p_feedback := p_feedback st;
                 p_strengths := pipe_items strengths_text;
                 p_improvements := p_improvements st |}
    else Some st
  else if startswith "IMPROVEMENTS:" line then
    rest ← after_first ":" line;
    let improvements_text := strip rest in
    if listed improvements_text
    then Some {| p_score := p_score st;
                 p_feedback := p_feedback st;
                 p_strengths := p_strengths st;
                 p_improvements := pipe_items improvements_text |}
    else Some st
  else Some st.

Fixpoint parse_lines (st : parsed) (lines : list string) : option parsed :=
  match lines with
  | [] => Some st
  | l :: rest =>
      match parse_line st l with
      | Some st' => parse_lines st' rest
      | None => None
      end
  end.

(** The parse of one answer of the scoring backend (lines 101-125 of the
    service, after [.content.strip()]). *)
Definition parse_response (response : string) : option parsed :=
  parse_lines parsed_default (split_on "010" (strip response)).

(** The analysis returned by the [except] branch. *)
Definition degraded_analysis (question_id : Z) : QuestionAnalysis :=
  {| ResponseModels.question_id := question_id;
     score := 5;
     feedback := "Unable to evaluate this response due to a technical issue.";
     strengths := [];
     improvements := ["Technical evaluation error occurred"] |}.

Definition analysis_of (question_id : Z) (p : parsed) : QuestionAnalysis :=
  {| ResponseModels.question_id := question_id;
     score := p_score p;
     feedback := p_feedback p;
     strengths := p_strengths p;
     improvements := p_improvements p |}.

(** What [_evaluate_single_answer] makes of the backend's outcome. *)
Definition analysis_of_reply (question_id : Z) (reply : option string) : QuestionAnalysis :=
  match reply with
  | Some response =>
      match parse_response response with
      | Some p => analysis_of question_id p
      | None => degraded_analysis question_id
      end
  | None => degraded_analysis question_id
  end.

Definition _evaluate_single_answer (question answer role : string) (question_id : Z)
  : QuestionAnalysis :=
  analysis_of_reply question_id (llm (ScorePrompt role question answer)).

(** [len(qa.answer_text.split())] *)
Definition word_count (qa : InterviewAnswer) : Z :=
  Z.of_nat (length (words (answer_text qa))).

(** The words-per-minute of the answers that have a positive duration. *)
Definition words_per_answer (qa_pairs : list InterviewAnswer) : list Q :=
  map (fun qa => (inject_Z (word_count qa) / answer_duration qa) * 60)%Q
      (filter (fun qa => negb (Qle_bool (answer_duration qa) 0)) qa_pairs).

Definition speaking_pace_of (avg_wpm : Q) : string :=
  if negb (Qle_bool 100 avg_wpm) then "Slow"
  else if negb (Qle_bool avg_wpm 180) then "Fast"
  else "Normal".

Definition technical_depth_of (avg_score : Q) : string :=
  if Qle_bool 8 avg_score then "High"
  else if Qle_bool 6 avg_score then "Medium"
  else "Low".

Definition communication_clarity_of (avg_words_per_answer avg_score : Q) : string :=
  if Qle_bool 50 avg_words_per_answer && Qle_bool 7 avg_score then "Excellent"
  else if Qle_bool 30 avg_words_per_answer && Qle_bool 6 avg_score then "Good"
  else if Qle_bool 20 avg_words_per_answer then "Fair"
  else "Needs Improvement".

(** [f"{minutes} minutes {seconds} seconds"] with
    [minutes = int(total // 60)] and [seconds = int(total % 60)]. *)
Definition duration_str (total : Q) : string :=
  let minutes := Qfloor (total / 60) in
  let seconds := Qfloor (total - inject_Z minutes * 60) in
  pretty minutes ++ " minutes " ++ pretty seconds ++ " seconds".

(** The [try] block of [_calculate_analytics]; [None] is any exception in it
    (StatisticsError on no data, ZeroDivisionError on no answers). *)
Definition analytics_try (qa_pairs : list InterviewAnswer) (scores : list Q)
  : option Analytics :=
  let total := Qsum (map answer_duration qa_pairs) in
  avg_response_time ← mean (map answer_duration qa_pairs);
  let wpa := words_per_answer qa_pairs in
  let avg_wpm := match mean wpa with Some m => m | None => 120%Q end in
  avg_score ← mean scores;
  let total_words := fold_right Z.add 0%Z (map word_count qa_pairs) in
  match qa_pairs with
  | [] => None
  | _ =>
      let avg_words_per_answer :=
        (inject_Z total_words / inject_Z (Z.of_nat (length qa_pairs)))%Q in
      Some {| total_duration := duration_str total;
              average_response_time := round1 avg_response_time;
              speaking_pace := speaking_pace_of avg_wpm;
              technical_depth := technical_depth_of avg_score;
              communication_clarity :=
                communication_clarity_of avg_words_per_answer avg_score;
              consistency_score := None |}
  end.

(** The record of the [except] branch of [_calculate_analytics]. *)
Definition analytics_fallback : Analytics :=
  {| total_duration := "Unable to calculate";
     average_response_time := 0;
     speaking_pace := "Unknown";
     technical_depth := "Unknown";
     communication_clarity := "Unknown";
     consistency_score := None |}.

Definition _calculate_analytics (qa_pairs : list InterviewAnswer) (scores : list Q)
  : Analytics :=
  match analytics_try qa_pairs scores with
  | Some a => a
  | None => analytics_fallback
  end.

Definition _analyze_consistency (qa_pairs : list InterviewAnswer) : Q :=
  if (length qa_pairs <? 2)%nat then 10%Q
  else
    match llm (ConsistencyPrompt
                 (map (fun qa => (question_text qa, str_take 200 (answer_text qa)))
                      qa_pairs)) with
    | Some content =>
        match words (strip content) with
        | first :: _ =>
            match py_float first with
            | Some x => finite_part (clamp_0_10 x)
            | None => 7%Q
            end
        | [] => 7%Q
        end
    | None => 7%Q
    end.

(** [modifiers] after the communication-clarity branch. *)
Definition clarity_modifier (clarity : string) : Q :=
  if String.eqb clarity "Excellent" then 0.5%Q
  else if String.eqb clarity "Good" then 0.2%Q
  else if String.eqb clarity "Needs Improvement" then (-0.3)%Q
  else 0%Q.

(** What the consistency branch adds to [modifiers].  The guard
    [hasattr(...) and analytics.consistency_score] is the truth value of an
    optional float: false on [None] and on zero. *)
Definition consistency_modifier (c : option Q) : Q :=
  match c with
  | Some v =>
      if negb (Qeq_bool v 0)
      then (if Qle_bool 8 v then 0.3%Q
            else if Qle_bool v 5 then (-0.2)%Q
            else 0%Q)
      else 0%Q
  | None => 0%Q
  end.

(** [_calculate_overall_score]; [None] would be an exception raised inside
    the [except] branch. *)
Definition _calculate_overall_score (individual_scores : list Q) (a : Analytics)
  : option Q :=
  match mean individual_scores with
  | Some base_score =>
      let modifiers :=
        (0 + clarity_modifier (communication_clarity a)
           + consistency_modifier (consistency_score a))%Q in
      let final_score := (base_score + modifiers)%Q in
      Some (finite_part (clamp_0_10 (Finite final_score)))
  | None =>
      match individual_scores with
      | [] => Some 5%Q
      | _ => mean individual_scores
      end
  end.

Definition feedback_fallback : string :=
  "Thank you for completing the interview. Your responses demonstrated good engagement with the questions and relevant experience for the role.".

Definition _generate_overall_feedback (qa_pairs : list InterviewAnswer)
    (scores : list Q) (a : Analytics) (role : string) : string :=
  match mean scores with
  | Some avg_score =>
      match llm (FeedbackPrompt role avg_score a) with
      | Some content => strip content
      | None => feedback_fallback
      end
  | None => feedback_fallback
  end.

(** [improvement_counts[k] = improvement_counts.get(k, 0) + 1] on a
    dictionary that keeps insertion order. *)
Fixpoint count_add (k : string) (m : list (string * nat)) : list (string * nat) :=
  match m with
  | [] => [(k, 1%nat)]
  | (k', n) :: m' =>
      if String.eqb k k' then (k', S n) :: m' else (k', n) :: count_add k m'
  end.

Definition improvement_counts (all_improvements : list string) : list (string * nat) :=
  fold_left (fun m k => count_add k m) all_improvements [].

Fixpoint insert_desc (x : string * nat) (l : list (string * nat)) : list (string * nat) :=
  match l with
  | [] => [x]
  | y :: l' => if (snd y <=? snd x)%nat then x :: y :: l' else y :: insert_desc x l'
  end.

(** [sorted(items, key=lambda x: x[1], reverse=True)]: stable, by decreasing
    count. *)
Definition sorted_desc (l : list (string * nat)) : list (string * nat) :=
  fold_right insert_desc [] l.

Definition recommendations_fallback (role : string) : list string :=
  [ ("Continue developing your " ++ lower role ++ " skills through hands-on projects")%string;
    "Practice explaining technical concepts clearly and concisely";
    "Review fundamental concepts relevant to your target role" ].

Definition _generate_recommendations (question_analyses : list QuestionAnalysis)
    (a : Analytics) (role : string) : list string :=
  let all_improvements := concat (map improvements question_analyses) in
  let top_improvements := take 3 (sorted_desc (improvement_counts all_improvements)) in
  match llm (RecommendationsPrompt role top_improvements a) with
  | Some content => take 5 (numbered_lines (strip content))
  | None => recommendations_fallback role
  end.

(** [evaluate_complete_interview]: the five stages in sequence; an exception
    that leaves a stage is re-raised with the message prefix. *)
Definition evaluate_complete_interview (session_id : string)
    (qa_pairs : list InterviewAnswer) (role : string) : result ResultsResponse :=
  let question_analyses :=
    map (fun qa => _evaluate_single_answer (question_text qa) (answer_text qa) role
                     (RequestModels.question_id qa)) qa_pairs in
  let individual_scores := map score question_analyses in
  let analytics0 := _calculate_analytics qa_pairs individual_scores in
  let consistency := _analyze_consistency qa_pairs in
  let analytics1 := set_consistency_score analytics0 consistency in
  match _calculate_overall_score individual_scores analytics1 with
  | Some overall =>
      let overall_feedback :=
        _generate_overall_feedback qa_pairs individual_scores analytics1 role in
      let recommendations := _generate_recommendations question_analyses analytics1 role in
      Ok {| overall_score := round1 overall;
            overall_feedback := overall_feedback;
            question_analysis := question_analyses;
            analytics := analytics1;
            recommendations := recommendations |}
  | None =>
      Raise (Exception "Failed to evaluate interview: mean requires at least one data point")
  end.

End Service.

End EvaluationService.

(* ===================================================================== *)
(** ** services/question_generator.py *)
(* ===================================================================== *)

Module QuestionGenerator.
Import Py.

Inductive prompt : Type :=
| FallbackPrompt (role context : string)
| IntroPrompt (role : string).

(** A vector store, seen through [similarity_search(query, k)]: the
    [page_content] of the documents found, or [None] when the search raises. *)
Definition vector_db : Type := string -> nat -> option (list string).

(** [self.role_queries.get(role, ["experience skills projects"])] *)
Definition role_queries (role : string) : list string :=
  if String.eqb role "SDE" then
    [ "programming languages projects software development";
      "technical skills algorithms data structures";
      "system design architecture frameworks" ]
  else if String.eqb role "Data Scientist" then
    [ "data analysis machine learning models";
      "statistics python R SQL databases";
      "visualization analytics business insights" ]
  else if String.eqb role "Product Manager" then
    [ "product management stakeholder business";
      "project management leadership team";
      "metrics KPIs user research strategy" ]
  else [ "experience skills projects" ].

Definition _get_generic_questions (role : string) : list string :=
  if String.eqb role "SDE" then
    [ "Tell me about a challenging software development project you've worked on.";
      "How do you approach debugging complex technical issues?";
      "Describe your experience with software design patterns and architecture.";
      "How do you ensure code quality and maintainability in your projects?";
      "What's your approach to learning new technologies and frameworks?" ]
  else if String.eqb role "Data Scientist" then
    [ "Describe a data science project where you had to work with messy or incomplete data.";
      "How do you approach feature selection and engineering in your models?";
      "Tell me about a time when you had to explain complex analytical findings to non-technical stakeholders.";
      "What's your process for evaluating and validating machine learning models?";
      "How do you stay current with new developments in data science and machine learning?" ]
  else if String.eqb role "Product Manager" then
    [ "Describe how you prioritize features when building a product roadmap.";
      "Tell me about a time when you had to make a difficult product decision with limited data.";
      "How do you gather and incorporate user feedback into product development?";
      "Describe your approach to working with cross-functional teams.";
      "How do you measure product success and define key performance indicators?" ]
  else
    [ "Tell me about your professional background.";
      "What interests you about this role?";
      "Describe a challenging project you've worked on.";
      "How do you handle difficult situations at work?";
      "What are your career goals?" ].

(** The loop over the queries: a search that raises is skipped. *)
Fixpoint retrieve (db : vector_db) (queries : list string) : list string :=
  match queries with
  | [] => []
  | query :: rest =>
      match db query 2%nat with
      | Some docs => docs ++ retrieve db rest
      | None => retrieve db rest
      end
  end.

(** "Remove duplicates while preserving order", with the set [seen]. *)
Fixpoint unique_from (seen : gset string) (chunks : list string) : list string :=
  match chunks with
  | [] => []
  | chunk :: rest =>
      if decide (chunk ∈ seen) then unique_from seen rest
      else chunk :: unique_from ({[chunk]} ∪ seen) rest
  end.

Definition unique_chunks (relevant_chunks : list string) : list string :=
  unique_from ∅ relevant_chunks.

Definition paragraph_sep : string := String "010" (String "010" EmptyString).

Section Generator.

(** [self.llm.invoke(prompt).content]; [None] when the call raises. *)
Variable llm : prompt -> option string.

(** [(prompt_template | self.llm | parser).invoke({role, retrieved_context})]:
    the [questions] field of the parsed object, or [None] when the model call
    or the Pydantic parser raises.  The parsed model is
    [questions: List[str]], with no constraint on the length. *)
Variable structured_chain : string -> string -> option (list string).

Definition _generate_fallback_questions (role context : string) : list string :=
  match llm (FallbackPrompt role context) with
  | Some content =>
      let questions := take 5 (numbered_lines (strip content)) in
      let questions :=
        if (length questions <? 5)%nat
        then questions ++ drop (length questions) (_get_generic_questions role)
        else questions in
      take 5 questions
  | None => _get_generic_questions role
  end.

Definition generate_questions (db : vector_db) (role resume_path : string)
  : list string :=
  let queries := role_queries role in
  let relevant_chunks := retrieve db queries in
  let retrieved_context := join paragraph_sep (take 5 (unique_chunks relevant_chunks)) in
  if negb (truthy (strip retrieved_context))
  then _generate_fallback_questions role EmptyString
  else
    match structured_chain role retrieved_context with
    | Some questions => questions
    | None => _generate_fallback_questions role retrieved_context
    end.

Definition generate_intro_message (role : string) : string :=
  match llm (IntroPrompt role) with
  | Some content => strip content
  | None =>
      ("Welcome to your " ++ role ++ " interview! I'm excited to learn more about your background and experience. Please start by introducing yourself and telling me a bit about your professional journey.")%string
  end.

End Generator.

End QuestionGenerator.

(* ===================================================================== *)
(** ** services/transition_generator.py *)
(* ===================================================================== *)

Module TransitionGenerator.
Import Py.

Definition default_transitions : list string :=
  [ "Great! Let's move on to the next question.";
    "Excellent answer. Here's another question for you.";
    "That's insightful. Let's continue with the next topic.";
    "Good explanation. Now let's discuss another aspect.";
    "Perfect! Let's explore another area.";
    "Thank you for that detailed response. Moving forward,";
    "Interesting perspective. Let's shift our focus to";
    "That's very helpful. Now I'd like to ask about" ].

Definition default_transitions_except : list string := take 5 default_transitions.

Fixpoint repeat_list {A : Type} (l : list A) (n : nat) : list A :=
  match n with
  | O => []
  | S n' => l ++ repeat_list l n'
  end.

Section Generator.

(** The model's answer to the request for [num_questions] transitions. *)
Variable llm : nat -> option string.

Definition generate_transitions (num_questions : nat) : list string :=
  match llm num_questions with
  | Some content =>
      let transitions := take num_questions (numbered_lines (strip content)) in
      let transitions :=
        if (length transitions <? num_questions)%nat
        then transitions ++ default_transitions
        else transitions in
      take num_questions transitions
  | None =>
      take num_questions
        (repeat_list default_transitions_except (num_questions / 5 + 1))
  end.

End Generator.

End TransitionGenerator.

(* ===================================================================== *)
(** ** storage/session_manager.py *)
(* ===================================================================== *)

Module SessionManager.
Import RequestModels ResponseModels.

(** The JSON values the handlers put into session and evaluation records. *)
Inductive jvalue : Type :=
| JStr (s : string)
| JNum (q : Q)
| JNull
| JQuestions (l : list QuestionData)
| JAnswers (l : list InterviewAnswer)
| JResults (r : ResultsResponse).

(** The two directories of [{id}.json] files; a record is a dictionary. *)
Record storage : Type := {
  sessions : gmap string (gmap string jvalue);
  evaluations : gmap string (gmap string jvalue)
}.

(** A dictionary used as a condition: false when it has no key. *)
Definition dict_truthy (d : gmap string jvalue) : bool :=
  negb (bool_decide (dom d = ∅)).

Definition store_session (st : storage) (session_id : string)
    (session_data : gmap string jvalue) : storage * bool :=
  ({| sessions := <[session_id := session_data]> (sessions st);
      evaluations := evaluations st |}, true).

Definition get_session (st : storage) (session_id : string)
  : option (gmap string jvalue) :=
  sessions st !! session_id.

Definition store_evaluation (st : storage) (evaluation_id : string)
    (evaluation_data : gmap string jvalue) : storage * bool :=
  ({| sessions := sessions st;
      evaluations := <[evaluation_id := evaluation_data]> (evaluations st) |}, true).

Definition get_evaluation (st : storage) (evaluation_id : string)
  : option (gmap string jvalue) :=
  evaluations st !! evaluation_id.

(** [evaluation_data.update(updates)] followed by the store; nothing is
    written when the record is missing or empty. *)
Definition update_evaluation (st : storage) (evaluation_id : string)
    (updates : gmap string jvalue) : storage * bool :=
  match get_evaluation st evaluation_id with
  | Some evaluation_data =>
      if dict_truthy evaluation_data
      then store_evaluation st evaluation_id (updates ∪ evaluation_data)
      else (st, false)
  | None => (st, false)
  end.

Definition delete_session (st : storage) (session_id : string) : storage * bool :=
  match sessions st !! session_id with
  | Some _ =>
      ({| sessions := delete session_id (sessions st);
          evaluations := evaluations st |}, true)
  | None => (st, false)
  end.

Definition delete_evaluation (st : storage) (evaluation_id : string) : storage * bool :=
  match evaluations st !! evaluation_id with
  | Some _ =>
      ({| sessions := sessions st;
          evaluations := delete evaluation_id (evaluations st) |}, true)
  | None => (st, false)
  end.

(** [file_age > max_age_seconds] for the file of [id], whose modification
    time [stat().st_mtime] is [mtime id]. *)
Definition too_old (mtime : string -> Q) (current_time max_age_seconds : Q) (id : string)
  : bool :=
  negb (Qle_bool (current_time - mtime id) max_age_seconds).

(** The files of one directory that [cleanup_old_sessions] leaves. *)
Definition keep_recent (mtime : string -> Q) (current_time max_age_seconds : Q)
    (files : gmap string (gmap string jvalue)) : gmap string (gmap string jvalue) :=
  filter (fun kv => too_old mtime current_time max_age_seconds (fst kv) = false) files.

(** [cleanup_old_sessions]: both directories are swept; the count is the
    number of files unlinked. *)
Definition cleanup_old_sessions (st : storage) (session_mtime evaluation_mtime : string -> Q)
    (current_time : Q) (max_age_hours : Z) : storage * nat :=
  let max_age_seconds := inject_Z (max_age_hours * 3600) in
  let sessions' := keep_recent session_mtime current_time max_age_seconds (sessions st) in
  let evaluations' :=
    keep_recent evaluation_mtime current_time max_age_seconds (evaluations st) in
  ({| sessions := sessions'; evaluations := evaluations' |},
   ((size (sessions st) - size sessions') + (size (evaluations st) - size evaluations'))%nat).

(** A JSON value used as a condition. *)
Definition jvalue_truthy (v : jvalue) : bool :=
  match v with
  | JStr s => Py.truthy s
  | JNum q => negb (Qeq_bool q 0)
  | JNull => false
  | JQuestions l => match l with [] => false | _ => true end
  | JAnswers l => match l with [] => false | _ => true end
  | JResults _ => true
  end.

End SessionManager.

(* ===================================================================== *)
(** ** main.py *)
(* ===================================================================== *)

Module Main.
Import Py RequestModels ResponseModels SessionManager.
Local Open Scope string_scope.

(** [str(e)]: the message of a plain exception; for an HTTPException the
    rendering of Starlette, [f"{status_code}: {detail}"]. *)
Definition exn_str (e : exn) : string :=
  match e with
  | HTTPException status_code detail => pretty status_code ++ ": " ++ detail
  | Exception msg => msg
  end.

(** The last component of a path, as [Path(p).name] takes it. *)
Definition path_name (p : string) : string :=
  match rev (filter (fun c => truthy c && negb (String.eqb c ".")) (split_on "/" p)) with
  | name :: _ => name
  | [] => EmptyString
  end.

(** [Path(p).suffix]: from the last dot of the name on, when that dot is
    neither the first nor the last character of the name. *)
Definition path_suffix (p : string) : string :=
  match rev (split_on "." (path_name p)) with
  | ext :: ((_ :: _) as stem) =>
      if is_empty ext || is_empty (join "." (rev stem)) then EmptyString
      else String "." ext
  | _ => EmptyString
  end.

Definition allowed_extensions : list string := [".pdf"; ".docx"; ".txt"].

Definition valid_roles : list string := ["SDE"; "Data Scientist"; "Product Manager"].

Definition str_in (s : string) (l : list string) : bool := existsb (String.eqb s) l.

Definition as_str (v : jvalue) : option string :=
  match v with JStr s => Some s | _ => None end.

(** [d[key]] read as a string; the exception is the KeyError. *)
Definition getitem_str (d : gmap string jvalue) (key : string) : result string :=
  match d !! key with
  | Some v =>
      match as_str v with
      | Some s => Ok s
      | None => Raise (Exception ("'" ++ key ++ "'"))
      end
  | None => Raise (Exception ("'" ++ key ++ "'"))
  end.

(** The work a successful submit hands to [background_tasks.add_task]. *)
Record task : Type := {
  t_evaluation_id : string;
  t_session_data : gmap string jvalue;
  t_interview_data : list InterviewAnswer
}.

(** [enumerate] into [QuestionData(id=i+1, text=q)]. *)
Fixpoint number_questions (i : Z) (qs : list string) : list QuestionData :=
  match qs with
  | [] => []
  | q :: rest => {| id := i + 1; text := q |} :: number_questions (i + 1) rest
  end.

Section App.

(** The module-level services. *)
Variable process_resume : string -> result (QuestionGenerator.vector_db * option string).
Variable question_llm : QuestionGenerator.prompt -> option string.
Variable structured_chain : string -> string -> option (list string).
Variable transition_llm : nat -> option string.
Variable evaluation_llm : EvaluationService.prompt -> option string.
Variable py_float : string -> option fval.

(** The [try] block of [initialize_interview]. *)
Definition initialize_body (st : storage) (role filename uuid : string) (now : Q)
  : result InitializeResponse * storage :=
  let file_extension := lower (path_suffix filename) in
  if negb (str_in file_extension allowed_extensions) then
    (Raise (HTTPException 400
              ("Unsupported file type. Allowed: " ++ join ", " allowed_extensions)), st)
  else if negb (str_in role valid_roles) then
    (Raise (HTTPException 400
              ("Invalid role. Must be one of: " ++ join ", " valid_roles)), st)
  else
    let session_id := uuid in
    let file_path := "uploads/" ++ session_id ++ "_" ++ filename in
    match process_resume file_path with
    | Raise e => (Raise e, st)
    | Ok (vector_db, collection_name) =>
        let questions_list :=
          QuestionGenerator.generate_questions question_llm structured_chain
            vector_db role file_path in
        let questions := number_questions 0 questions_list in
        let intro_message := QuestionGenerator.generate_intro_message question_llm role in
        let transitions :=
          TransitionGenerator.generate_transitions transition_llm (length questions) in
        let session_data : gmap string jvalue :=
          <["session_id" := JStr session_id]>
          (<["role" := JStr role]>
          (<["resume_path" := JStr file_path]>
          (<["questions" := JQuestions questions]>
          (<["vector_db_collection" :=
               match collection_name with Some n => JStr n | None => JNull end]>
          (<["created_at" := JNum now]> ∅))))) in
        let st' := fst (store_session st session_id session_data) in
        (Ok {| ir_session_id := session_id;
               intro_message := intro_message;
               questions := questions;
               transitions := transitions |}, st')
    end.

(** [initialize_interview]: the single handler [except Exception as e]
    turns whatever the body raised into a 500. *)
Definition initialize_interview (st : storage) (role filename uuid : string) (now : Q)
  : result InitializeResponse * storage :=
  match initialize_body st role filename uuid now with
  | (Ok response, st') => (Ok response, st')
  | (Raise e, st') =>
      (Raise (HTTPException 500 ("Internal server error: " ++ exn_str e)), st')
  end.

(** The [try] block of [submit_interview]. *)
Definition submit_body (st : storage) (request : SubmitInterviewRequest)
    (uuid : string) (now : Q)
  : result SubmitInterviewResponse * storage * option task :=
  match get_session st (session_id request) with
  | None => (Raise (HTTPException 404 "Session not found"), st, None)
  | Some session_data =>
      if negb (dict_truthy session_data)
      then (Raise (HTTPException 404 "Session not found"), st, None)
      else
        let evaluation_id := uuid in
        match getitem_str session_data "role" with
        | Raise e => (Raise e, st, None)
        | Ok role =>
            let evaluation_data : gmap string jvalue :=
              <["evaluation_id" := JStr evaluation_id]>
              (<["session_id" := JStr (session_id request)]>
              (<["role" := JStr role]>
              (<["interview_data" := JAnswers (interview_data request)]>
              (<["submitted_at" := JNum now]>
              (<["status" := JStr "processing"]> ∅))))) in
            let st' := fst (store_evaluation st evaluation_id evaluation_data) in
            (Ok {| evaluation_id := evaluation_id;
                   message := "Interview submitted successfully. Processing results..." |},
             st',
             Some {| t_evaluation_id := evaluation_id;
                     t_session_data := session_data;
                     t_interview_data := RequestModels.interview_data request |})
        end
  end.

(** [submit_interview]: [except HTTPException: raise] lets the 404 through,
    any other exception becomes a 500. *)
Definition submit_interview (st : storage) (request : SubmitInterviewRequest)
    (uuid : string) (now : Q)
  : result SubmitInterviewResponse * storage * option task :=
  match submit_body st request uuid now with
  | (Raise (Exception msg), st', t) =>
      (Raise (HTTPException 500 ("Internal server error: " ++ msg)), st', t)
  | r => r
  end.

(** The [try] block of [process_evaluation_background] up to the results. *)
Definition run_evaluation (t : task) : result ResultsResponse :=
  bind (getitem_str (t_session_data t) "session_id") (fun sid =>
  bind (getitem_str (t_session_data t) "role") (fun role =>
  EvaluationService.evaluate_complete_interview evaluation_llm py_float
    sid (t_interview_data t) role)).

Definition completed_update (results : ResultsResponse) (now : Q) : gmap string jvalue :=
  <["status" := JStr "completed"]>
  (<["results" := JResults results]>
  (<["completed_at" := JNum now]> ∅)).

Definition error_update (e : exn) (now : Q) : gmap string jvalue :=
  <["status" := JStr "error"]>
  (<["error" := JStr (exn_str e)]>
  (<["completed_at" := JNum now]> ∅)).

Definition process_evaluation_background (st : storage) (t : task) (now : Q) : storage :=
  match run_evaluation t with
  | Ok results =>
      fst (update_evaluation st (t_evaluation_id t) (completed_update results now))
  | Raise e =>
      fst (update_evaluation st (t_evaluation_id t) (error_update e now))
  end.

(** The server: the store and the background tasks not yet run. *)
Record server : Type := {
  store : storage;
  pending : list task
}.

Definition option_to_list {A : Type} (o : option A) : list A :=
  match o with Some a => [a] | None => [] end.

(** One request or one background task.  [uuid4()] hands a submission an
    evaluation id that no stored evaluation has. *)
Inductive step : server -> server -> Prop :=
| step_initialize s role filename uuid now :
    step s {| store := snd (initialize_interview (store s) role filename uuid now);
              pending := pending s |}
| step_submit s request uuid now :
    evaluations (store s) !! uuid = None ->
    step s {| store := snd (fst (submit_interview (store s) request uuid now));
              pending := (pending s
                          ++ option_to_list (snd (submit_interview (store s) request uuid now)))%list |}
| step_background s (before : list task) t after now :
    pending s = (before ++ t :: after)%list ->
    step s {| store := process_evaluation_background (store s) t now;
              pending := (before ++ after)%list |}.

(** The states the server goes through from a start with no evaluation. *)
Inductive reachable : server -> Prop :=
| reachable_start sess :
    reachable {| store := {| sessions := sess; evaluations := ∅ |}; pending := [] |}
| reachable_step s s' : reachable s -> step s s' -> reachable s'.

End App.

(** What [get_results] answers when it does not raise: the 202 body or the
    results. *)
Inductive results_reply : Type :=
| StillProcessing (message : string)
| Results (r : ResultsResponse).

(** The summary [get_session_info] returns. *)
Record session_info : Type := {
  info_session_id : jvalue;
  info_role : jvalue;
  questions_count : nat;
  created_at : jvalue
}.

(** [evaluation_data.get("status") == s] *)
Definition status_equals (d : gmap string jvalue) (s : string) : bool :=
  match d !! "status" with
  | Some (JStr s') => String.eqb s' s
  | _ => false
  end.

(** [d[key]]; the exception is the KeyError. *)
Definition getitem (d : gmap string jvalue) (key : string) : result jvalue :=
  match d !! key with
  | Some v => Ok v
  | None => Raise (Exception ("'" ++ key ++ "'"))
  end.

Section Readers.

(** [str(e)] of the TypeError an operation raises on a value of the wrong
    type. *)
Variable type_error_str : string -> jvalue -> string.

(** The [try] block of [get_results]. *)
Definition results_body (st : storage) (evaluation_id : string) : result results_reply :=
  match get_evaluation st evaluation_id with
  | None => Raise (HTTPException 404 "Evaluation not found")
  | Some evaluation_data =>
      if negb (dict_truthy evaluation_data)
      then Raise (HTTPException 404 "Evaluation not found")
      else if status_equals evaluation_data "processing"
      then Ok (StillProcessing
                 "Results are still being processed. Please try again in a moment.")
      else if status_equals evaluation_data "error"
      then Raise (HTTPException 500 "Error processing evaluation")
      else
        match evaluation_data !! "results" with
        | Some v =>
            if jvalue_truthy v
            then match v with
                 | JResults r => Ok (Results r)
                 | _ => Raise (Exception (type_error_str "ResultsResponse" v))
                 end
            else Raise (HTTPException 500 "Results not available")
        | None => Raise (HTTPException 500 "Results not available")
        end
  end.

(** [get_results]: HTTP exceptions pass, any other becomes a 500. *)
Definition get_results (st : storage) (evaluation_id : string) : result results_reply :=
  match results_body st evaluation_id with
  | Raise (Exception msg) => Raise (HTTPException 500 ("Internal server error: " ++ msg))
  | r => r
  end.

(** [len(v)] *)
Definition jvalue_len (v : jvalue) : result nat :=
  match v with
  | JStr s => Ok (String.length s)
  | JQuestions l => Ok (length l)
  | JAnswers l => Ok (length l)
  | JResults _ => Ok 5%nat
  | _ => Raise (Exception (type_error_str "len" v))
  end.

(** [get_session_info]: no handler around the body, a KeyError or a
    TypeError leaves the function as it is. *)
Definition get_session_info (st : storage) (session_id : string) : result session_info :=
  match get_session st session_id with
  | None => Raise (HTTPException 404 "Session not found")
  | Some session_data =>
      if negb (dict_truthy session_data)
      then Raise (HTTPException 404 "Session not found")
      else
        bind (getitem session_data "session_id") (fun sid =>
        bind (getitem session_data "role") (fun role =>
        bind (getitem session_data "questions") (fun qs =>
        bind (jvalue_len qs) (fun n =>
        bind (getitem session_data "created_at") (fun created =>
        Ok {| info_session_id := sid;
              info_role := role;
              questions_count := n;
              created_at := created |})))))
  end.

End Readers.

End Main.

(* ===================================================================== *)
(** ** storage/session_manager.py and the submit handler, on the files *)
(* ===================================================================== *)

(** [SessionManager] above keeps the records by id, which is what the store
    is for the ids the handlers make themselves ([uuid4]).  Here the same
    functions are given with the file that an id names: [directory /
    f"{id}.json"] is opened as it is written, so an id that holds a [/] or
    a [..] names a file somewhere else.  POSIX paths, no symbolic links;
    the server may read and write the files and directories it reaches and
    the disk has room; a file that loads holds a JSON object, as every file
    this store writes does. *)

Module Disk.
Import Py RequestModels ResponseModels.
Local Open Scope string_scope.

Abbreviation jvalue := SessionManager.jvalue.

(** A path as the operating system resolves it: the names from the root
    down. *)
Definition path : Type := list string.

(** What a file holds: a JSON object, or something that [json.load] does
    not read (a write that broke off, a file that is not JSON). *)
Inductive file : Type :=
| Object (data : gmap string jvalue)
| Unreadable.

(** The regular files of the disk. *)
Abbreviation disk := (gmap path file).

Section Files.

(** The working directory of the server. *)
Variable cwd : path.

(** The directories of the disk besides the storage directories and the
    directories above them. *)
Variable other_directory : path -> bool.

(** Whether the file system takes a file name: its length within the
    limit, its characters encodable. *)
Variable name_ok : string -> bool.

(** Whether [json.dump(data, f, indent=2, ensure_ascii=False)] gets through
    on a UTF-8 file: no lone surrogate in a string, no value that [json]
    cannot serialise. *)
Variable encodable : gmap string jvalue -> bool.

Definition storage_dir : path := (cwd ++ ["storage"])%list.
Definition sessions_dir : path := (storage_dir ++ ["sessions"])%list.
Definition evaluations_dir : path := (storage_dir ++ ["evaluations"])%list.

(** [__init__] has made the three directories. *)
Definition is_directory (p : path) : bool :=
  bool_decide (p `prefix_of` sessions_dir)
  || bool_decide (p `prefix_of` evaluations_dir)
  || other_directory p.

(** The directory reached from [cur] through the names [dirs]: an empty
    name and [.] stay, [..] goes up (the root is its own parent), any other
    name must be a directory. *)
Fixpoint walk (cur : path) (dirs : list string) : option path :=
  match dirs with
  | [] => Some cur
  | d :: rest =>
      if is_empty d || String.eqb d "." then walk cur rest
      else if String.eqb d ".." then walk (removelast cur) rest
      else if is_directory (cur ++ [d])%list then walk (cur ++ [d])%list rest
      else None
  end.

(** The file that [directory / f"{id}.json"] names: [None] when the path
    does not lead to a place for a regular file (a directory on the way is
    missing, the name is that of a directory or one the file system
    refuses, the id holds a NUL).  An id
    that starts with [/] is an absolute path. *)
Definition json_path (directory : path) (id : string) : option path :=
  if mem_ascii "000" id then None
  else
    let name := id ++ ".json" in
    match rev (split_on "/" name) with
    | [] => None
    | file_name :: dirs =>
        match walk (if startswith "/" name then [] else directory) (rev dirs) with
        | Some dir =>
            if is_directory (dir ++ [file_name])%list || negb (name_ok file_name) then None
            else Some (dir ++ [file_name])%list
        | None => None
        end
    end.

(** [exists()], [open(..., 'r')] and [json.load] inside [try]: every
    failure is [None]. *)
Definition read_json (dk : disk) (directory : path) (id : string)
  : option (gmap string jvalue) :=
  match json_path directory id with
  | Some p => match dk !! p with Some (Object data) => Some data | _ => None end
  | None => None
  end.

(** [open(..., 'w')] and [json.dump] inside [try].  The file is truncated
    when it is opened: a dump that raises leaves a file that does not load. *)
Definition write_json (dk : disk) (directory : path) (id : string)
    (data : gmap string jvalue) : disk * bool :=
  match json_path directory id with
  | Some p =>
      if encodable data then (<[p := Object data]> dk, true)
      else (<[p := Unreadable]> dk, false)
  | None => (dk, false)
  end.

(** [if file.exists(): file.unlink()] inside [try]. *)
Definition unlink_json (dk : disk) (directory : path) (id : string) : disk * bool :=
  match json_path directory id with
  | Some p =>
      match dk !! p with
      | Some _ => (delete p dk, true)
      | None => (dk, false)
      end
  | None => (dk, false)
  end.

Definition store_session (dk : disk) (session_id : string)
    (session_data : gmap string jvalue) : disk * bool :=
  write_json dk sessions_dir session_id session_data.

Definition get_session (dk : disk) (session_id : string) : option (gmap string jvalue) :=
  read_json dk sessions_dir session_id.

Definition store_evaluation (dk : disk) (evaluation_id : string)
    (evaluation_data : gmap string jvalue) : disk * bool :=
  write_json dk evaluations_dir evaluation_id evaluation_data.

Definition get_evaluation (dk : disk) (evaluation_id : string)
  : option (gmap string jvalue) :=
  read_json dk evaluations_dir evaluation_id.

Definition update_evaluation (dk : disk) (evaluation_id : string)
    (updates : gmap string jvalue) : disk * bool :=
  match get_evaluation dk evaluation_id with
  | Some evaluation_data =>
      if SessionManager.dict_truthy evaluation_data
      then store_evaluation dk evaluation_id (updates ∪ evaluation_data)
      else (dk, false)
  | None => (dk, false)
  end.

Definition delete_session (dk : disk) (session_id : string) : disk * bool :=
  unlink_json dk sessions_dir session_id.

Definition delete_evaluation (dk : disk) (evaluation_id : string) : disk * bool :=
  unlink_json dk evaluations_dir evaluation_id.

(** The [try] block of [submit_interview] in main.py. *)
Definition submit_body (dk : disk) (request : SubmitInterviewRequest)
    (uuid : string) (now : Q)
  : result SubmitInterviewResponse * disk * option Main.task :=
  match get_session dk (session_id request) with
  | None => (Raise (HTTPException 404 "Session not found"), dk, None)
  | Some session_data =>
      if negb (SessionManager.dict_truthy session_data)
      then (Raise (HTTPException 404 "Session not found"), dk, None)
      else
        let evaluation_id := uuid in
        match Main.getitem_str session_data "role" with
        | Raise e => (Raise e, dk, None)
        | Ok role =>
            let evaluation_data : gmap string jvalue :=
              <["evaluation_id" := SessionManager.JStr evaluation_id]>
              (<["session_id" := SessionManager.JStr (session_id request)]>
              (<["role" := SessionManager.JStr role]>
              (<["interview_data" := SessionManager.JAnswers (interview_data request)]>
              (<["submitted_at" := SessionManager.JNum now]>
              (<["status" := SessionManager.JStr "processing"]> ∅))))) in
            let dk' := fst (store_evaluation dk evaluation_id evaluation_data) in
            (Ok {| evaluation_id := evaluation_id;
                   message := "Interview submitted successfully. Processing results..." |},
             dk',
             Some {| Main.t_evaluation_id := evaluation_id;
                     Main.t_session_data := session_data;
                     Main.t_interview_data := RequestModels.interview_data request |})
        end
  end.

(** [submit_interview]: [except HTTPException: raise] lets the 404 through,
    any other exception becomes a 500. *)
Definition submit_interview (dk : disk) (request : SubmitInterviewRequest)
    (uuid : string) (now : Q)
  : result SubmitInterviewResponse * disk * option Main.task :=
  match submit_body dk request uuid now with
  | (Raise (Exception msg), dk', t) =>
      (Raise (HTTPException 500 ("Internal server error: " ++ msg)), dk', t)
  | r => r
  end.

End Files.

(** An id that is a file name: no [/] and no NUL. *)
Definition plain (id : string) : bool :=
  negb (mem_ascii "/" id) && negb (mem_ascii "000" id).

(** An id that is a file name the file system takes in both directories,
    as the ids are that the handlers make with [uuid4]. *)
Definition usable (cwd : path) (other_directory : path -> bool) (name_ok : string -> bool)
    (id : string) : bool :=
  plain id
  && name_ok (id ++ ".json")
  && negb (is_directory cwd other_directory (sessions_dir cwd ++ [(id ++ ".json")%string])%list)
  && negb (is_directory cwd other_directory (evaluations_dir cwd ++ [(id ++ ".json")%string])%list).

(** The disk holds the records of a store by id: under every id that is a
    file name each directory has the file of the record the store has
    there, and no file where the store has no record. *)
Definition represents (cwd : path) (dk : disk) (st : SessionManager.storage) : Prop :=
  forall id : string, plain id = true ->
    dk !! (sessions_dir cwd ++ [(id ++ ".json")%string])%list
      = Object <$> SessionManager.sessions st !! id /\
    dk !! (evaluations_dir cwd ++ [(id ++ ".json")%string])%list
      = Object <$> SessionManager.evaluations st !! id.

End Disk.

(* ===================================================================== *)
(** ** graph2.py: the audio streamer and the websocket receiver *)
(* ===================================================================== *)

Module Graph2.
Import Py.

(** A decoded websocket message: [data.get("audio")] and
    [data.get("isFinal")]. *)
Record ws_message : Type := {
  audio : option string;
  isFinal : option bool
}.

(** A thread running [_audio_player]: at the test of [while
    self.is_playing], inside [audio_queue.get(timeout=1)], inside the wait
    for the mixer to finish the chunk it started, or not running (not
    started yet, or out of its loop). *)
Inductive player : Type :=
| Testing
| Waiting
| Busy (chunk : string)
| Exited.

Definition live (t : player) : bool :=
  match t with Exited => false | _ => true end.

(** [AudioStreamer]: the queue, the flag, the thread the attribute
    [audio_thread] names, the threads started before it that are still in
    their loop, and two logs: the chunks taken off the queue and the calls
    to [pygame.mixer.music.play]. *)
Record AudioStreamer : Type := {
  audio_queue : list (option string);
  is_playing : bool;
  audio_thread : player;
  earlier_threads : list player;
  taken : list string;
  play_calls : list string
}.

(** [audio_streamer = AudioStreamer()]: the one instance of the module,
    which every reply uses. *)
Definition audio_streamer : AudioStreamer :=
  {| audio_queue := [];
     is_playing := false;
     audio_thread := Exited;
     earlier_threads := [];
     taken := [];
     play_calls := [] |}.

(** [start_audio_thread]: nothing happens when the flag is set.  Otherwise
    the flag is set and a new thread starts at the test of its loop; the
    thread the attribute named runs on when it has not left its loop. *)
Definition start_audio_thread (a : AudioStreamer) : AudioStreamer :=
  if is_playing a then a
  else {| audio_queue := audio_queue a;
          is_playing := true;
          audio_thread := Testing;
          earlier_threads :=
            if live (audio_thread a) then audio_thread a :: earlier_threads a
            else earlier_threads a;
          taken := taken a;
          play_calls := play_calls a |}.

(** [queue.Queue()] is built with no [maxsize]: [put] appends and never
    blocks. *)
Definition add_audio_chunk (a : AudioStreamer) (chunk : string) : AudioStreamer :=
  {| audio_queue := audio_queue a ++ [Some chunk];
     is_playing := is_playing a;
     audio_thread := audio_thread a;
     earlier_threads := earlier_threads a;
     taken := taken a;
     play_calls := play_calls a |}.

Definition stop (a : AudioStreamer) : AudioStreamer :=
  {| audio_queue := audio_queue a ++ [None];
     is_playing := false;
     audio_thread := audio_thread a;
     earlier_threads := earlier_threads a;
     taken := taken a;
     play_calls := play_calls a |}.

(** The instance after the first [start_audio_thread()]. *)
Definition started : AudioStreamer := start_audio_thread audio_streamer.

Definition set_thread (a : AudioStreamer) (t : player) : AudioStreamer :=
  {| audio_queue := audio_queue a;
     is_playing := is_playing a;
     audio_thread := t;
     earlier_threads := earlier_threads a;
     taken := taken a;
     play_calls := play_calls a |}.

Definition set_earlier (a : AudioStreamer) (ts : list player) : AudioStreamer :=
  {| audio_queue := audio_queue a;
     is_playing := is_playing a;
     audio_thread := audio_thread a;
     earlier_threads := ts;
     taken := taken a;
     play_calls := play_calls a |}.

Section Pipeline.

(** [base64.b64decode]; [None] when it raises. *)
Variable b64decode : string -> option string.

(** Whether [pygame.mixer.music.load] and [play] accept the chunk; when they
    raise, the thread prints the error and goes on. *)
Variable playable : string -> bool.

(** The next move of a thread of [_audio_player] that is at [t], and what
    it does to the queue and the logs; [None] for a thread that is not
    running.  The test of the flag and the [get] that follows are two
    moves: the flag can change in between.  A [get] on the empty queue can
    only end in [queue.Empty] after its second, which sends the thread back
    to the test. *)
Definition player_turn (t : player) (a : AudioStreamer) : option (player * AudioStreamer) :=
  match t with
  | Testing => Some (if is_playing a then Waiting else Exited, a)
  | Waiting =>
      match audio_queue a with
      | [] => Some (Testing, a)
      | None :: rest =>
          Some (Exited,
                {| audio_queue := rest; is_playing := is_playing a;
                   audio_thread := audio_thread a;
                   earlier_threads := earlier_threads a;
                   taken := taken a; play_calls := play_calls a |})
      | Some chunk :: rest =>
          if playable chunk
          then Some (Busy chunk,
                     {| audio_queue := rest; is_playing := is_playing a;
                        audio_thread := audio_thread a;
                        earlier_threads := earlier_threads a;
                        taken := taken a ++ [chunk];
                        play_calls := play_calls a ++ [chunk] |})
          else Some (Testing,
                     {| audio_queue := rest; is_playing := is_playing a;
                        audio_thread := audio_thread a;
                        earlier_threads := earlier_threads a;
                        taken := taken a ++ [chunk];
                        play_calls := play_calls a |})
      end
  | Busy _ => Some (Testing, a)
  | Exited => None
  end.

(** One reply being spoken: the messages the synthesis service has still to
    deliver to its receiver, whether [receive_audio_stream] is still in its
    loop, the decoded chunks that the receivers of other replies have still
    to put, and the shared streamer. *)
Record pipeline : Type := {
  inbox : list ws_message;
  receiving : bool;
  others : list string;
  streamer : AudioStreamer
}.

Definition audio_payload (m : ws_message) : option string :=
  match audio m with
  | Some a => if truthy a then Some a else None
  | None => None
  end.

Definition final_flag (m : ws_message) : bool :=
  match isFinal m with Some true => true | _ => false end.

(** One turn of [while True] in [receive_audio_stream] on message [m]: the
    flag says whether the loop goes on. *)
Definition receive_one (m : ws_message) (a : AudioStreamer) : bool * AudioStreamer :=
  match audio_payload m with
  | Some payload =>
      match b64decode payload with
      | Some audio_chunk => (true, add_audio_chunk a audio_chunk)
      | None => (false, a)
      end
  | None => if final_flag m then (false, a) else (true, a)
  end.

(** [receive_audio_stream] run to its end on the messages [ms] with nothing
    else scheduled in between. *)
Fixpoint receive_audio_stream (ms : list ws_message) (a : AudioStreamer) : AudioStreamer :=
  match ms with
  | [] => a
  | m :: rest =>
      match receive_one m a with
      | (true, a') => receive_audio_stream rest a'
      | (false, a') => a'
      end
  end.

(** The interleavings of the receiving task of the reply, the receivers of
    other replies and the playback threads. *)
Inductive step : pipeline -> pipeline -> Prop :=
| step_receive m rest os a :
    step {| inbox := m :: rest; receiving := true; others := os; streamer := a |}
         {| inbox := rest;
            receiving := fst (receive_one m a);
            others := os;
            streamer := snd (receive_one m a) |}
| step_closed os a :
    step {| inbox := []; receiving := true; others := os; streamer := a |}
         {| inbox := []; receiving := false; others := os; streamer := a |}
| step_other ms r chunk os a :
    step {| inbox := ms; receiving := r; others := chunk :: os; streamer := a |}
         {| inbox := ms; receiving := r; others := os;
            streamer := add_audio_chunk a chunk |}
| step_player ms r os a t' a' :
    player_turn (audio_thread a) a = Some (t', a') ->
    step {| inbox := ms; receiving := r; others := os; streamer := a |}
         {| inbox := ms; receiving := r; others := os; streamer := set_thread a' t' |}
| step_earlier ms r os a i t t' a' :
    earlier_threads a !! i = Some t ->
    player_turn t a = Some (t', a') ->
    step {| inbox := ms; receiving := r; others := os; streamer := a |}
         {| inbox := ms; receiving := r; others := os;
            streamer := set_earlier a' (<[i := t']> (earlier_threads a)) |}.

Inductive steps : pipeline -> pipeline -> Prop :=
| steps_refl p : steps p p
| steps_more p q r : steps p q -> step q r -> steps p r.

(** [text_to_speech_websocket] on the shared streamer [a], once
    [start_audio_thread()] has been called and the two tasks are created. *)
Definition speak (a : AudioStreamer) (ms : list ws_message) (os : list string) : pipeline :=
  {| inbox := ms; receiving := true; others := os; streamer := start_audio_thread a |}.

(** A message that carries the base64 text [payload]. *)
Definition audio_message (payload : string) : ws_message :=
  {| audio := Some payload; isFinal := None |}.

Definition final_message : ws_message :=
  {| audio := None; isFinal := Some true |}.

End Pipeline.

(** What the client sends over the websocket: the first message with the
    voice settings, a text chunk, and the closing message with the flush. *)
Inductive out_message : Type :=
| VoiceSettings
| TextChunk (text : string)
| Flush.

(** [send_text_stream] on a connection that accepts [budget] more sends
    before it breaks; a send that raises ends the function in its handler. *)
Fixpoint send_text_stream (budget : nat) (text_stream : list string) : list out_message :=
  match text_stream with
  | [] =>
      match budget with
      | O => []
      | S _ => [Flush]
      end
  | text_chunk :: rest =>
      if truthy text_chunk
      then match budget with
           | O => []
           | S budget' => TextChunk text_chunk :: send_text_stream budget' rest
           end
      else send_text_stream budget rest
  end.

(** The sending side of [text_to_speech_websocket]: nothing when the
    connection cannot be opened, otherwise the voice settings and then the
    text stream. *)
Definition text_to_speech_sends (connected : bool) (budget : nat) (text_stream : list string)
  : list out_message :=
  if connected
  then match budget with
       | O => []
       | S budget' => VoiceSettings :: send_text_stream budget' text_stream
       end
  else [].

(** The loop of [chatbot] over the pieces the model streams: the content
    of the returned message and the chunks kept for the audio. *)
Fixpoint collect_stream (stream : list string) (full_content : string)
    (text_chunks : list string) : string * list string :=
  match stream with
  | [] => (full_content, text_chunks)
  | content_piece :: rest =>
      if truthy content_piece
      then collect_stream rest (full_content ++ content_piece)%string
             (text_chunks ++ [content_piece])
      else collect_stream rest full_content text_chunks
  end.

(** [chatbot]: the content of the AIMessage it returns, and what the audio
    thread it starts sends to the synthesis service ([None] when it starts
    no thread). *)
Definition chatbot (connected : bool) (budget : nat) (stream : list string)
  : string * option (list out_message) :=
  let '(full_content, text_chunks) := collect_stream stream EmptyString [] in
  (full_content,
   match text_chunks with
   | [] => None
   | _ => Some (text_to_speech_sends connected budget text_chunks)
   end).

(** The text a list of sent messages carries. *)
Fixpoint sent_text (ms : list out_message) : string :=
  match ms with
  | [] => EmptyString
  | TextChunk t :: rest => (t ++ sent_text rest)%string
  | _ :: rest => sent_text rest
  end.

End Graph2.

(* ===================================================================== *)
(** ** services/resume_processor.py *)
(* ===================================================================== *)

Module ResumeProcessor.
Import Py.
Local Open Scope string_scope.

Section Processor.

(** The document loaders and the file system: the page contents of a PDF
    or DOCX file, the text of a plain file. *)
Variable pdf_pages : string -> result (list string).
Variable docx_pages : string -> result (list string).
Variable read_text : string -> result string.

(** [RecursiveCharacterTextSplitter.split_text]. *)
Variable split_text : string -> list string.

(** [Chroma(...)] followed by [add_texts(chunks)] on the collection: the
    store, seen through its search, or the exception of the client. *)
Variable create_store : string -> list string -> result QuestionGenerator.vector_db.

Definition newline : string := String "010" EmptyString.

(** [int(x)] of a float: the fraction is dropped, towards zero. *)
Definition py_int (x : Q) : Z := Z.quot (Qnum x) (Z.pos (Qden x)).

(** The [try] block of [load_text]. *)
Definition load_text_body (path : string) : result string :=
  let suffix := lower (Main.path_suffix path) in
  if String.eqb suffix ".pdf" then
    bind (pdf_pages path) (fun pages => Ok (join newline pages))
  else if String.eqb suffix ".docx" then
    bind (docx_pages path) (fun pages => Ok (join newline pages))
  else if String.eqb suffix ".txt" then
    read_text path
  else Raise (Exception ("Unsupported file format: " ++ suffix)).

Definition load_text (path : string) : result string :=
  match load_text_body path with
  | Ok text => Ok text
  | Raise e => Raise (Exception ("Error loading file " ++ path ++ ": " ++ Main.exn_str e))
  end.

(** The [try] block of [process_resume]; [now] is [time.time()]. *)
Definition process_resume_body (resume_path : string) (now : Q)
  : result (QuestionGenerator.vector_db * option string) :=
  bind (load_text resume_path) (fun text =>
  if negb (truthy (strip text))
  then Raise (Exception "Resume file appears to be empty or could not be processed")
  else
    let chunks := split_text text in
    match chunks with
    | [] => Raise (Exception "No text chunks could be created from resume")
    | _ =>
        let collection_name := "resume_" ++ pretty (py_int now) in
        bind (create_store collection_name chunks) (fun vectorstore =>
        Ok (vectorstore, Some collection_name))
    end).

Definition process_resume (resume_path : string) (now : Q)
  : result (QuestionGenerator.vector_db * option string) :=
  match process_resume_body resume_path now with
  | Ok r => Ok r
  | Raise e => Raise (Exception ("Failed to process resume: " ++ Main.exn_str e))
  end.

End Processor.

End ResumeProcessor.

(* ===================================================================== *)
(** ** The words of the specification, and doubles for the backends *)
(* ===================================================================== *)

Module Spec.
Import Py RequestModels ResponseModels.

(** The text after [SCORE:] on a line that carries the prefix. *)
Definition score_text_of_line (raw : string) : option string :=
  let line := strip raw in
  if startswith "SCORE:" line then strip <$> after_first ":" line else None.

(** The texts of the [SCORE:] lines of a response, first to last. *)
Definition score_texts (response : string) : list string :=
  omap score_text_of_line (split_on "010" (strip response)).

(** "[items] are the non-blank fields, stripped and in their order, of a
    line of [response] that starts with [prefix]" (or there are none). *)
Definition listed_on (prefix response : string) (items : list string) : Prop :=
  items = [] \/
  exists raw text,
    In raw (split_on "010" (strip response)) /\
    startswith prefix (strip raw) = true /\
    after_first ":" (strip raw) = Some text /\
    items = filter (fun s => truthy s) (map strip (split_on "|" (strip text))) /\
    (length items <= length (split_on "|" (strip text)))%nat.

(** The score of a parse state is a score. *)
Definition in_range (p : EvaluationService.parsed) : Prop :=
  (0 <= EvaluationService.p_score p)%Q /\ (EvaluationService.p_score p <= 10)%Q.

(** What the [SCORE:] texts make of the running score: the last text that
    [float] accepts decides. *)
Definition last_score (py_float : string -> option fval) (init : Q) (texts : list string) : Q :=
  fold_left (fun acc t =>
               match py_float t with
               | Some x => finite_part (clamp_0_10 x)
               | None => acc
               end) texts init.

(** Both lists of a parse state come from lines of the response. *)
Definition lists_from (response : string) (p : EvaluationService.parsed) : Prop :=
  listed_on "STRENGTHS:" response (EvaluationService.p_strengths p) /\
  listed_on "IMPROVEMENTS:" response (EvaluationService.p_improvements p).

(** The consistency modifier as the specification words it: at least 8
    adds 0.3, at most 5 takes 0.2 off. *)
Definition consistency_modifier_spec (c : option Q) : Q :=
  match c with
  | Some v => if Qle_bool 8 v then 0.3%Q else if Qle_bool v 5 then (-0.2)%Q else 0%Q
  | None => 0%Q
  end.

(** The overall score as the specification words it: the mean plus the two
    modifiers, clamped to [0,10]. *)
Definition overall_score_spec (individual_scores : list Q) (a : Analytics) : option Q :=
  match mean individual_scores with
  | Some base =>
      Some (finite_part (clamp_0_10
              (Finite (base + (EvaluationService.clarity_modifier (communication_clarity a)
                               + consistency_modifier_spec (consistency_score a)))%Q)))
  | None => None
  end.

(** An analytics record with the two fields the overall score reads. *)
Definition analytics_with (clarity : string) (c : option Q) : Analytics :=
  {| total_duration := "0 minutes 0 seconds";
     average_response_time := 0;
     speaking_pace := "Normal";
     technical_depth := "Low";
     communication_clarity := clarity;
     consistency_score := c |}.

Fixpoint digits_value (acc : Z) (s : string) : option Z :=
  match s with
  | EmptyString => Some acc
  | String c s' =>
      let n := nat_of_ascii c in
      if ((48 <=? n) && (n <=? 57))%nat
      then digits_value (acc * 10 + Z.of_nat (n - 48)) s'
      else None
  end.

(** A double for [float] that reads plain decimal literals, [sign digits
    . digits], and refuses everything else. *)
Definition float_literal (s : string) : option fval :=
  let '(negative, body) :=
    match s with
    | String "-" r => (true, r)
    | String "+" r => (false, r)
    | _ => (false, s)
    end in
  let signed (q : Q) := if negative then Qopp q else q in
  match split_on "." body with
  | [i] =>
      if is_empty i then None
      else (fun v => Finite (signed (inject_Z v))) <$> digits_value 0 i
  | [i; f] =>
      if is_empty i && is_empty f then None
      else (fun v => Finite (signed (inject_Z v / inject_Z (10 ^ Z.of_nat (String.length f)))%Q))
             <$> digits_value 0 (i ++ f)%string
  | _ => None
  end.

(** Doubles for the question generator: a vector store that always finds
    the same passage, a structured chain whose answer parses into three
    questions, and a model whose free-text answer starts with a bare number. *)
Definition resume_db : QuestionGenerator.vector_db :=
  fun _ _ => Some ["Built a payment service in Go"].

Definition three_questions_chain (role context : string) : option (list string) :=
  Some ["Why Go?"; "Why Rust?"; "Why both?"].

Definition numbered_stub_llm (p : QuestionGenerator.prompt) : option string :=
  Some ("1." ++ String "010" "2. Which services did you build in Go?")%string.

(** The status code a failed call answers with. *)
Definition http_status {A : Type} (r : result A) : option Z :=
  match r with
  | Raise (HTTPException status_code _) => Some status_code
  | _ => None
  end.

(** The words of the evaluation lifecycle. *)
Definition status_is (d : gmap string SessionManager.jvalue) (s : string) : Prop :=
  d !! "status" = Some (SessionManager.JStr s).

Definition has_results (d : gmap string SessionManager.jvalue) : Prop :=
  is_Some (d !! "results").

Definition has_error (d : gmap string SessionManager.jvalue) : Prop :=
  is_Some (d !! "error").

(** "[d'] is [d] after its one write": completed with results and no error,
    or error with an error string and no results. *)
Definition written_once (d d' : gmap string SessionManager.jvalue) : Prop :=
  status_is d "processing" /\
  ((status_is d' "completed" /\ has_results d' /\ ~ has_error d') \/
   (status_is d' "error" /\ has_error d' /\ ~ has_results d')).

Definition pending_ids (s : Main.server) : list string :=
  map Main.t_evaluation_id (Main.pending s).

(** What holds of the server between two steps: every stored evaluation is
    a non-empty record whose results are there exactly when it is completed,
    whose error is there exactly when it is in error, and which is processing
    exactly when its task is still to run; no two tasks are for one
    evaluation; every task has its record. *)
Definition server_invariant (s : Main.server) : Prop :=
  (forall eid d, SessionManager.evaluations (Main.store s) !! eid = Some d ->
     SessionManager.dict_truthy d = true /\
     (has_results d <-> status_is d "completed") /\
     (has_error d <-> status_is d "error") /\
     (status_is d "processing" <-> eid ∈ pending_ids s)) /\
  NoDup (pending_ids s) /\
  (forall eid, eid ∈ pending_ids s ->
     is_Some (SessionManager.evaluations (Main.store s) !! eid)).

(** Everything put on the queue so far, in the order of the puts: what the
    playback thread has taken, then what is still queued. *)
Definition delivered (a : Graph2.AudioStreamer) : list (option string) :=
  map Some (Graph2.taken a) ++ Graph2.audio_queue a.

(** "[payload] is a non-empty base64 text that decodes to [chunk]". *)
Definition carries (b64decode : string -> option string) (payload chunk : string) : Prop :=
  Py.truthy payload = true /\ b64decode payload = Some chunk.

(** [l] is [l1] and [l2] shuffled together, each in its own order. *)
Inductive interleaved {A : Type} : list A -> list A -> list A -> Prop :=
| interleaved_nil : interleaved [] [] []
| interleaved_left x l1 l2 l :
    interleaved l1 l2 l -> interleaved (x :: l1) l2 (x :: l)
| interleaved_right x l1 l2 l :
    interleaved l1 l2 l -> interleaved l1 (x :: l2) (x :: l).

(** The shared streamer as long as [stop()] has not been called: no
    sentinel on the queue, no thread besides the one the attribute names,
    and that thread in its loop exactly when the flag is set. *)
Definition unstopped (a : Graph2.AudioStreamer) : Prop :=
  (None ∉ Graph2.audio_queue a) /\
  Graph2.earlier_threads a = [] /\
  (Graph2.is_playing a = true <-> Graph2.audio_thread a <> Graph2.Exited).

(** The histories of the shared streamer before [stop()]: replies start
    the thread or find it started, receivers put chunks, the thread moves. *)
Inductive lives (playable : string -> bool) : Graph2.AudioStreamer -> Prop :=
| lives_new : lives playable Graph2.audio_streamer
| lives_start a : lives playable a -> lives playable (Graph2.start_audio_thread a)
| lives_put a chunk : lives playable a -> lives playable (Graph2.add_audio_chunk a chunk)
| lives_turn a t' a' :
    lives playable a ->
    Graph2.player_turn playable (Graph2.audio_thread a) a = Some (t', a') ->
    lives playable (Graph2.set_thread a' t').

(** The state of one reply that started on the streamer [a0], on the
    messages that carry [payloads] and then the final flag, while other
    replies put the chunks [others0]: some of the chunks have been put. *)
Definition in_order (b64decode : string -> option string) (playable : string -> bool)
    (a0 : Graph2.AudioStreamer) (chunks others0 : list string)
    (rest : list Graph2.ws_message) (p : Graph2.pipeline) : Prop :=
  let a := Graph2.streamer p in
  (exists done todo others_done put,
     chunks = done ++ todo /\
     others0 = others_done ++ Graph2.others p /\
     interleaved done others_done put /\
     delivered a = delivered a0 ++ map Some put /\
     (Graph2.receiving p = true ->
        exists payloads, Forall2 (carries b64decode) payloads todo /\
          Graph2.inbox p = map Graph2.audio_message payloads ++ Graph2.final_message :: rest) /\
     (Graph2.receiving p = false -> todo = [])) /\
  Graph2.is_playing a = true /\
  Graph2.audio_thread a <> Graph2.Exited /\
  Graph2.earlier_threads a = [] /\
  (exists new, Graph2.taken a = Graph2.taken a0 ++ new /\
     Graph2.play_calls a = Graph2.play_calls a0 ++ List.filter playable new).

(** What can have happened since [stop()] was called on the streamer [a]:
    the thread is still inside the [get] it was in and has taken nothing,
    or it has left that [get], having taken at most the chunk that was at
    the head of the queue. *)
Definition since_stop (playable : string -> bool) (a b : Graph2.AudioStreamer) : Prop :=
  Graph2.is_playing b = false /\
  Graph2.earlier_threads b = [] /\
  ((Graph2.audio_thread b = Graph2.Waiting /\ Graph2.audio_thread a = Graph2.Waiting /\
    Graph2.taken b = Graph2.taken a /\ Graph2.play_calls b = Graph2.play_calls a /\
    exists l, Graph2.audio_queue b = Graph2.audio_queue a ++ None :: l) \/
   (Graph2.audio_thread b <> Graph2.Waiting /\
    exists extra,
      Graph2.taken b = Graph2.taken a ++ extra /\
      Graph2.play_calls b = Graph2.play_calls a ++ List.filter playable extra /\
      (extra = [] \/
       (Graph2.audio_thread a = Graph2.Waiting /\
        exists c tl, Graph2.audio_queue a = Some c :: tl /\ extra = [c])))).

(** The shared streamer when a second reply begins while a chunk of the
    first is still queued. *)
Definition mid_reply : Graph2.AudioStreamer :=
  Graph2.add_audio_chunk Graph2.started "Wg==".

(** Nothing is left to do for the reply: its receiver and the others are
    over and the queue is empty. *)
Definition finished (p : Graph2.pipeline) : Prop :=
  Graph2.receiving p = false /\ Graph2.others p = [] /\
  Graph2.audio_queue (Graph2.streamer p) = [].

(** The puts of a run of chunks. *)
Definition put_all (chunks : list string) (a : Graph2.AudioStreamer) : Graph2.AudioStreamer :=
  fold_left Graph2.add_audio_chunk chunks a.

(** Doubles for the audio pipeline: payloads that decode to themselves and
    a mixer that plays everything. *)
Definition plain_decode (payload : string) : option string := Some payload.

Definition plays_all (chunk : string) : bool := true.

(** Doubles for the services of main.py: a resume processor that fails and
    models that raise on every request. *)
Definition no_resume (path : string)
  : result (QuestionGenerator.vector_db * option string) :=
  Raise (Exception "resume processor unavailable").

Definition silent_question_llm (p : QuestionGenerator.prompt) : option string := None.

Definition no_chain (role context : string) : option (list string) := None.

Definition silent_transition_llm (n : nat) : option string := None.

Definition silent_evaluation_llm (p : EvaluationService.prompt) : option string := None.

Definition empty_storage : SessionManager.storage :=
  {| SessionManager.sessions := ∅; SessionManager.evaluations := ∅ |}.

(** A server that has stored one SDE session and no evaluation yet. *)
Definition sde_session : gmap string SessionManager.jvalue :=
  <["session_id" := SessionManager.JStr "s1"]>
  (<["role" := SessionManager.JStr "SDE"]> ∅).

Definition one_session : Main.server :=
  {| Main.store := {| SessionManager.sessions := {[ "s1" := sde_session ]};
                      SessionManager.evaluations := ∅ |};
     Main.pending := [] |}.

Definition one_answer : RequestModels.SubmitInterviewRequest :=
  {| RequestModels.session_id := "s1";
     RequestModels.interview_data :=
       [ {| RequestModels.question_id := 1;
            RequestModels.question_text := "Why Go?";
            RequestModels.answer_text := "Because of its concurrency model.";
            RequestModels.answer_duration := 12 |} ] |}.

Definition unknown_session : RequestModels.SubmitInterviewRequest :=
  {| RequestModels.session_id := "no-such-session";
     RequestModels.interview_data := [] |}.

(** The server after the submit of [one_answer] under the evaluation id e1. *)
Definition after_submit : Main.server :=
  {| Main.store :=
       snd (fst (Main.submit_interview (Main.store one_session) one_answer "e1" 0));
     Main.pending :=
       Main.pending one_session
       ++ Main.option_to_list
            (snd (Main.submit_interview (Main.store one_session) one_answer "e1" 0)) |}.

(** Three chunks as the synthesis service sends them. *)
Definition abc_payloads : list string := ["QQ=="; "Qg=="; "Qw=="].

(** How often the table [m] says [k] was mentioned. *)
Fixpoint mentions (m : list (string * nat)) (k : string) : nat :=
  match m with
  | [] => 0%nat
  | (k', n) :: m' => if String.eqb k k' then n else mentions m' k
  end.

(** How often [k] occurs in [l]. *)
Fixpoint occurrences (l : list string) (k : string) : nat :=
  match l with
  | [] => 0%nat
  | x :: l' => if String.eqb k x then S (occurrences l' k) else occurrences l' k
  end.

(** The ids [enumerate] hands out: 1, 2, ..., n. *)
Definition ids_from_one (n : nat) : list Z := map Z.of_nat (seq 1 n).

(** What a stored evaluation record looks like to a reader: processing,
    completed with the results of an evaluation, or in error. *)
Definition readable (d : gmap string SessionManager.jvalue) : Prop :=
  status_is d "processing" \/
  (status_is d "completed" /\ exists r, d !! "results" = Some (SessionManager.JResults r)) \/
  status_is d "error".

Definition all_readable (s : Main.server) : Prop :=
  forall eid d, SessionManager.evaluations (Main.store s) !! eid = Some d -> readable d.

(** The pieces of a stream put end to end. *)
Definition concat_text (pieces : list string) : string :=
  fold_right String.append EmptyString pieces.

(** The pieces of a stream that are not empty. *)
Definition spoken (pieces : list string) : list string :=
  List.filter (fun c => Py.truthy c) pieces.

(** A resume processor that returns the store [resume_db]. *)
Definition working_resume (path : string)
  : result (QuestionGenerator.vector_db * option string) :=
  Ok (resume_db, Some "resume_0").

(** A file system with one blank text file, whatever the path. *)
Definition blank_file (path : string) : result string := Ok "   ".

Definition no_pages (path : string) : result (list string) :=
  Raise (Exception "no loader").

Definition one_chunk (text : string) : list string := [text].

Definition store_of_chunks (collection : string) (chunks : list string)
  : result QuestionGenerator.vector_db :=
  Ok (fun _ _ => Some chunks).

Definition plain_type_error (operation : string) (v : SessionManager.jvalue) : string :=
  operation.

(** The response to initializing an SDE interview when every model request
    fails: the static bank, the fallback greeting, the default transitions. *)
Definition sde_response : ResponseModels.InitializeResponse :=
  {| ResponseModels.ir_session_id := "u1";
     ResponseModels.intro_message :=
       QuestionGenerator.generate_intro_message silent_question_llm "SDE";
     ResponseModels.questions :=
       Main.number_questions 0 (QuestionGenerator._get_generic_questions "SDE");
     ResponseModels.transitions :=
       TransitionGenerator.generate_transitions silent_transition_llm 5 |}.

Definition submitted_response : ResponseModels.SubmitInterviewResponse :=
  {| ResponseModels.evaluation_id := "e1";
     ResponseModels.message := "Interview submitted successfully. Processing results..." |}.

Definition submitted_task : Main.task :=
  {| Main.t_evaluation_id := "e1";
     Main.t_session_data := sde_session;
     Main.t_interview_data := RequestModels.interview_data one_answer |}.

(** Doubles for the disk: the server runs in /srv, the disk has no
    directory besides those of the storage, every record can be written. *)
Definition srv : Disk.path := ["srv"].

Definition no_directory (p : Disk.path) : bool := false.

Definition all_encodable (d : gmap string SessionManager.jvalue) : bool := true.

Definition any_name (name : string) : bool := true.

Definition session_file (id : string) : Disk.path :=
  (Disk.sessions_dir srv ++ [id ++ ".json"]%string)%list.

Definition evaluation_file (id : string) : Disk.path :=
  (Disk.evaluations_dir srv ++ [id ++ ".json"]%string)%list.

(** The disk after the session s1 was stored and [one_answer] submitted
    under the evaluation id e1. *)
Definition disk_with_session : Disk.disk :=
  fst (Disk.store_session srv no_directory any_name all_encodable ∅ "s1" sde_session).

Definition disk_after_submit : Disk.disk :=
  snd (fst (Disk.submit_interview srv no_directory any_name all_encodable
              disk_with_session one_answer "e1" 0)).

(** The record of the evaluation e1 as that submit wrote it. *)
Definition e1_record : gmap string SessionManager.jvalue :=
  <["evaluation_id" := SessionManager.JStr "e1"]>
  (<["session_id" := SessionManager.JStr "s1"]>
  (<["role" := SessionManager.JStr "SDE"]>
  (<["interview_data" :=
       SessionManager.JAnswers (RequestModels.interview_data one_answer)]>
  (<["submitted_at" := SessionManager.JNum 0]>
  (<["status" := SessionManager.JStr "processing"]> ∅))))).

(** A submit whose session id is a path from the sessions directory to the
    file of the evaluation e1. *)
Definition evaluation_as_session : RequestModels.SubmitInterviewRequest :=
  {| RequestModels.session_id := "../evaluations/e1";
     RequestModels.interview_data := RequestModels.interview_data one_answer |}.

Definition no_passages : QuestionGenerator.vector_db := fun _ _ => None.

Definition numbered_stub_answer : string :=
  ("1." ++ String "010" "2. Which services did you build in Go?")%string.

End Spec.

(* ===================================================================== *)
(** * Properties *)
(* ===================================================================== *)

(** ** The clamp and the answer parser *)

Section EvaluationFacts.
Import Py RequestModels ResponseModels EvaluationService Spec.

Variable py_float : string -> option fval.

Lemma Qle_bool_false_lt (x y : Q) : Qle_bool x y = false -> (y < x)%Q.
Proof.
  intros H. apply Qnot_le_lt. intros Hle.
  apply Qle_bool_iff in Hle. congruence.
Qed.

(** The clamp never leaves an infinity or a NaN behind. *)
Lemma clamp_0_10_finite (x : fval) : clamp_0_10 x = Finite (finite_part (clamp_0_10 x)).
Proof.
  unfold clamp_0_10, py_max, py_min.
  destruct x as [q| | |]; simpl; try reflexivity.
  destruct (Qle_bool 10 q); simpl; [reflexivity|].
  destruct (Qle_bool q 0); reflexivity.
Qed.

Lemma clamp_0_10_range (x : fval) :
  (0 <= finite_part (clamp_0_10 x))%Q /\ (finite_part (clamp_0_10 x) <= 10)%Q.
Proof.
  unfold clamp_0_10, py_max, py_min.
  destruct x as [q| | |]; simpl; try (split; apply Qle_bool_iff; reflexivity).
  destruct (Qle_bool 10 q) eqn:H10; simpl; [split; apply Qle_bool_iff; reflexivity|].
  destruct (Qle_bool q 0) eqn:H0; simpl; [split; apply Qle_bool_iff; reflexivity|].
  split.
  - apply Qlt_le_weak. now apply Qle_bool_false_lt.
  - apply Qlt_le_weak. now apply Qle_bool_false_lt.
Qed.

(** A line that starts with a prefix holding a colon has a text after its
    first colon: [split(':', 1)[1]] cannot raise. *)
Lemma prefix_after_first (p s : string) :
  String.prefix p s = true -> mem_ascii ":" p = true ->
  exists r, after_first ":" s = Some r.
Proof.
  revert s. induction p as [|c p IH]; intros s H Hm; [discriminate|].
  destruct s as [|d s]; simpl in H; [discriminate|].
  destruct (ascii_dec c d) as [->|]; [|discriminate].
  cbn [mem_ascii after_first] in *.
  destruct (Ascii.eqb_spec d ":") as [->|Hne]; [eauto|].
  apply (IH s H). rewrite Ascii.eqb_sym in Hm.
  destruct (Ascii.eqb_spec d ":"); [contradiction|exact Hm].
Qed.

Lemma parse_line_total (st : parsed) (raw : string) :
  exists st', parse_line py_float st raw = Some st'.
Proof.
  unfold parse_line.
  destruct (startswith "SCORE:" (strip raw)) eqn:Hs.
  { destruct (after_first ":" (strip raw)); [|eauto].
    destruct (py_float (strip s)); eauto. }
  destruct (startswith "FEEDBACK:" (strip raw)) eqn:Hf.
  { destruct (prefix_after_first _ _ Hf eq_refl) as [r ->]. simpl. eauto. }
  destruct (startswith "STRENGTHS:" (strip raw)) eqn:Hst.
  { destruct (prefix_after_first _ _ Hst eq_refl) as [r ->]. simpl.
    destruct (listed (strip r)); eauto. }
  destruct (startswith "IMPROVEMENTS:" (strip raw)) eqn:Hi.
  { destruct (prefix_after_first _ _ Hi eq_refl) as [r ->]. simpl.
    destruct (listed (strip r)); eauto. }
  eauto.
Qed.

Lemma parse_line_range (st st' : parsed) (raw : string) :
  in_range st -> parse_line py_float st raw = Some st' -> in_range st'.
Proof.
  unfold parse_line. intros Hr H.
  destruct (startswith "SCORE:" (strip raw)).
  { destruct (after_first ":" (strip raw)); [|congruence].
    destruct (py_float (strip s)) as [x|]; [|congruence].
    injection H as <-. apply clamp_0_10_range. }
  destruct (startswith "FEEDBACK:" (strip raw)).
  { destruct (after_first ":" (strip raw)); simpl in H; [|discriminate].
    injection H as <-. exact Hr. }
  destruct (startswith "STRENGTHS:" (strip raw)).
  { destruct (after_first ":" (strip raw)); simpl in H; [|discriminate].
    destruct (listed (strip s)); injection H as <-; exact Hr. }
  destruct (startswith "IMPROVEMENTS:" (strip raw)).
  { destruct (after_first ":" (strip raw)); simpl in H; [|discriminate].
    destruct (listed (strip s)); injection H as <-; exact Hr. }
  congruence.
Qed.

Lemma parse_lines_total (lines : list string) (st : parsed) :
  exists st', parse_lines py_float st lines = Some st'.
Proof.
  revert st. induction lines as [|l lines IH]; intros st; simpl; [eauto|].
  destruct (parse_line_total st l) as [st1 ->]. apply IH.
Qed.

Lemma parse_lines_range (lines : list string) (st st' : parsed) :
  in_range st -> parse_lines py_float st lines = Some st' -> in_range st'.
Proof.
  revert st. induction lines as [|l lines IH]; intros st Hr H; simpl in H.
  - congruence.
  - destruct (parse_line py_float st l) as [st1|] eqn:Hl; [|discriminate].
    eapply IH; [|exact H]. eapply parse_line_range; eauto.
Qed.

(** The parser never takes the exception exit: the analysis of an answer that
    arrived is the analysis of its parse. *)
Lemma parse_response_total (response : string) :
  exists p, parse_response py_float response = Some p.
Proof. apply parse_lines_total. Qed.

End EvaluationFacts.

(** ** The score of one answer *)

Section ScoreFacts.
Import Py RequestModels ResponseModels EvaluationService Spec.

Variable py_float : string -> option fval.

Lemma parse_line_score (st st' : parsed) (raw : string) :
  parse_line py_float st raw = Some st' ->
  p_score st' = last_score py_float (p_score st) (option_list (score_text_of_line raw)).
Proof.
  unfold parse_line, score_text_of_line. intros H.
  destruct (startswith "SCORE:" (strip raw)) eqn:Hs.
  { destruct (prefix_after_first _ _ Hs eq_refl) as [r Hr].
    rewrite Hr in *. simpl.
    destruct (py_float (strip r)); injection H as <-; reflexivity. }
  simpl.
  destruct (startswith "FEEDBACK:" (strip raw)).
  { destruct (after_first ":" (strip raw)); simpl in H; [|discriminate].
    injection H as <-. reflexivity. }
  destruct (startswith "STRENGTHS:" (strip raw)).
  { destruct (after_first ":" (strip raw)); simpl in H; [|discriminate].
    destruct (listed (strip s)); injection H as <-; reflexivity. }
  destruct (startswith "IMPROVEMENTS:" (strip raw)).
  { destruct (after_first ":" (strip raw)); simpl in H; [|discriminate].
    destruct (listed (strip s)); injection H as <-; reflexivity. }
  injection H as <-. reflexivity.
Qed.

Lemma last_score_app (init : Q) (l1 l2 : list string) :
  last_score py_float init (l1 ++ l2) = last_score py_float (last_score py_float init l1) l2.
Proof. apply fold_left_app. Qed.

Lemma parse_lines_score (lines : list string) (st st' : parsed) :
  parse_lines py_float st lines = Some st' ->
  p_score st' = last_score py_float (p_score st) (omap score_text_of_line lines).
Proof.
  revert st. induction lines as [|l lines IH]; intros st H; simpl in H.
  - injection H as <-. reflexivity.
  - destruct (parse_line py_float st l) as [st1|] eqn:Hl; [|discriminate].
    rewrite (IH _ H), (parse_line_score _ _ _ Hl).
    simpl. destruct (score_text_of_line l); reflexivity.
Qed.

Lemma last_score_unparseable (init : Q) (texts : list string) :
  Forall (fun t => py_float t = None) texts -> last_score py_float init texts = init.
Proof.
  induction 1 as [|t texts Ht _ IH]; [reflexivity|].
  unfold last_score in *. simpl. rewrite Ht. exact IH.
Qed.

Lemma clamp_high (q : Q) : (10 <= q)%Q -> finite_part (clamp_0_10 (Finite q)) = 10%Q.
Proof.
  intros H. apply Qle_bool_iff in H.
  unfold clamp_0_10, py_max, py_min. simpl. rewrite H. reflexivity.
Qed.

Lemma clamp_low (q : Q) : (q <= 0)%Q -> finite_part (clamp_0_10 (Finite q)) = 0%Q.
Proof.
  intros H. unfold clamp_0_10, py_max, py_min. simpl.
  destruct (Qle_bool 10 q) eqn:H10.
  - apply Qle_bool_iff in H10. exfalso.
    apply (Qle_not_lt _ _ (Qle_trans _ _ _ H10 H)). reflexivity.
  - simpl. apply Qle_bool_iff in H. rewrite H. reflexivity.
Qed.

Lemma clamp_inside (q : Q) :
  (0 <= q)%Q -> (q <= 10)%Q -> (finite_part (clamp_0_10 (Finite q)) == q)%Q.
Proof.
  intros H0 H10. unfold clamp_0_10, py_max, py_min. simpl.
  destruct (Qle_bool 10 q) eqn:E10; simpl.
  - apply Qle_bool_iff in E10. apply Qle_antisym; assumption.
  - destruct (Qle_bool q 0) eqn:E0; simpl; [|reflexivity].
    apply Qle_bool_iff in E0. apply Qle_antisym; assumption.
Qed.

(** C5.  Whatever the scoring backend answers (or if it raises), the score
    of the analysis lies in [0,10].  When [float] refuses the text of every
    [SCORE:] line, in particular when there is no such line, and when the
    backend raises, the score is the default 5.0.  When the response has one
    [SCORE:] line and its text is the number [q], the score is [q] clamped:
    10 for [q >= 10], 0 for [q <= 0], [q] itself in between. *)
Theorem parsed_score_in_range (question_id : Z) (reply : option string) :
  let a := analysis_of_reply py_float question_id reply in
  ((0 <= score a)%Q /\ (score a <= 10)%Q) /\
  (reply = None -> score a = 5%Q) /\
  (forall response, reply = Some response ->
     Forall (fun t => py_float t = None) (score_texts response) ->
     score a = 5%Q) /\
  (forall response t q, reply = Some response ->
     score_texts response = [t] -> py_float t = Some (Finite q) ->
     ((10 <= q)%Q -> score a = 10%Q) /\
     ((q <= 0)%Q -> score a = 0%Q) /\
     ((0 <= q)%Q -> (q <= 10)%Q -> (score a == q)%Q)).
Proof.
  intros a. subst a.
  assert (Hfive : in_range parsed_default) by (split; discriminate).
  destruct reply as [response|]; simpl.
  2:{ repeat split; try discriminate; intros; discriminate. }
  destruct (parse_response_total py_float response) as [p Hp].
  rewrite Hp. simpl.
  pose proof (parse_lines_range py_float _ _ _ Hfive Hp) as Hrange.
  pose proof (parse_lines_score _ _ _ Hp) as Hscore.
  fold (score_texts response) in Hscore.
  split; [exact Hrange|].
  split; [discriminate|].
  split.
  - intros r [= <-] Hall. rewrite Hscore.
    apply last_score_unparseable. exact Hall.
  - intros r t q [= <-] Ht Hq. rewrite Hscore, Ht.
    unfold last_score. simpl. rewrite Hq.
    split; [apply clamp_high|]. split; [apply clamp_low|apply clamp_inside].
Qed.

(** The inputs the specification names, with [float_literal] for [float]. *)
Example score_15_is_10 :
  score (analysis_of_reply float_literal 1 (Some "SCORE: 15")) = 10%Q.
Proof. reflexivity. Qed.

Example score_minus_3_is_0 :
  score (analysis_of_reply float_literal 1 (Some "SCORE: -3")) = 0%Q.
Proof. reflexivity. Qed.

Example score_abc_is_default :
  score (analysis_of_reply float_literal 1 (Some "SCORE: abc")) = 5%Q.
Proof. reflexivity. Qed.

Example score_missing_is_default :
  score (analysis_of_reply float_literal 1 (Some "FEEDBACK: fine")) = 5%Q.
Proof. reflexivity. Qed.

End ScoreFacts.

(** ** The strengths and improvements of one answer *)

Section ListFacts.
Import Py RequestModels ResponseModels EvaluationService Spec.

Variable py_float : string -> option fval.

Lemma filter_map_strip (l : list string) :
  filter (fun s => truthy s) (map strip l)
  = map strip (filter (fun s => truthy (strip s)) l).
Proof.
  induction l as [|x l IH]; [reflexivity|].
  simpl. rewrite !filter_cons.
  destruct (decide (truthy (strip x))); simpl; rewrite IH; reflexivity.
Qed.

Lemma pipe_items_length (text : string) :
  (length (pipe_items text) <= length (split_on "|" text))%nat.
Proof. unfold pipe_items. rewrite length_map. apply length_filter. Qed.

(** The items come from one line: a line with the prefix lists them. *)
Lemma pipe_items_listed_on (prefix response raw text : string) :
  In raw (split_on "010" (strip response)) ->
  startswith prefix (strip raw) = true ->
  after_first ":" (strip raw) = Some text ->
  listed_on prefix response (pipe_items (strip text)).
Proof.
  intros Hin Hp Ha. right. exists raw, text.
  repeat split; try assumption.
  - unfold pipe_items. symmetry. apply filter_map_strip.
  - apply pipe_items_length.
Qed.

Lemma parse_line_lists (response : string) (st st' : parsed) (raw : string) :
  In raw (split_on "010" (strip response)) ->
  lists_from response st ->
  parse_line py_float st raw = Some st' ->
  lists_from response st'.
Proof.
  unfold parse_line. intros Hin [Hs Hi] H.
  destruct (startswith "SCORE:" (strip raw)).
  { destruct (after_first ":" (strip raw)); [|injection H as <-; split; assumption].
    destruct (py_float (strip s)); injection H as <-; split; assumption. }
  destruct (startswith "FEEDBACK:" (strip raw)).
  { destruct (after_first ":" (strip raw)); simpl in H; [|discriminate].
    injection H as <-. split; assumption. }
  destruct (startswith "STRENGTHS:" (strip raw)) eqn:Hst.
  { destruct (after_first ":" (strip raw)) as [text|] eqn:Ha; simpl in H; [|discriminate].
    destruct (listed (strip text)); injection H as <-; split; simpl; try assumption.
    eapply pipe_items_listed_on; eassumption. }
  destruct (startswith "IMPROVEMENTS:" (strip raw)) eqn:Him.
  { destruct (after_first ":" (strip raw)) as [text|] eqn:Ha; simpl in H; [|discriminate].
    destruct (listed (strip text)); injection H as <-; split; simpl; try assumption.
    eapply pipe_items_listed_on; eassumption. }
  injection H as <-. split; assumption.
Qed.

Lemma parse_lines_lists (response : string) (lines : list string) (st st' : parsed) :
  (forall raw, In raw lines -> In raw (split_on "010" (strip response))) ->
  lists_from response st ->
  parse_lines py_float st lines = Some st' ->
  lists_from response st'.
Proof.
  revert st. induction lines as [|l lines IH]; intros st Hsub Hst H; simpl in H.
  - injection H as <-. exact Hst.
  - destruct (parse_line py_float st l) as [st1|] eqn:Hl; [|discriminate].
    apply (IH st1); [intros raw Hr; apply Hsub; right; exact Hr| |exact H].
    eapply parse_line_lists; [apply Hsub; left; reflexivity|exact Hst|exact Hl].
Qed.

(** C9, as the code has it.  The strengths (and the improvements) of a parsed
    answer are the non-blank fields of a [STRENGTHS:] ([IMPROVEMENTS:]) line
    of the response, stripped, in the order of the line, or there are none;
    their number is at most the number of fields of that line.  The parser
    has no bound of its own. *)
Theorem strengths_and_improvements_follow_their_line (question_id : Z) (response : string) :
  let a := analysis_of_reply py_float question_id (Some response) in
  listed_on "STRENGTHS:" response (strengths a) /\
  listed_on "IMPROVEMENTS:" response (improvements a).
Proof.
  simpl. destruct (parse_response_total py_float response) as [p Hp].
  rewrite Hp. simpl.
  unfold parse_response in Hp.
  eapply parse_lines_lists; [| |exact Hp].
  - auto.
  - split; left; reflexivity.
Qed.

(** C9 fails as stated: a line with four strengths gives four strengths. *)
Lemma four_strengths_are_kept :
  ~ (length (strengths (analysis_of_reply float_literal 1
                          (Some "STRENGTHS: clear | concise | concrete | calm"))) <= 3)%nat.
Proof. vm_compute. lia. Qed.

End ListFacts.

(** ** The overall score *)

Section OverallScoreFacts.
Import Py RequestModels ResponseModels EvaluationService Spec.

Lemma clamp_0_10_Qeq (q q' : Q) :
  (q == q')%Q ->
  (finite_part (clamp_0_10 (Finite q)) == finite_part (clamp_0_10 (Finite q')))%Q.
Proof.
  intros H.
  assert (H10 : Qle_bool 10 q' = Qle_bool 10 q) by (rewrite H; reflexivity).
  assert (H0 : Qle_bool q' 0 = Qle_bool q 0) by (rewrite H; reflexivity).
  unfold clamp_0_10, py_max, py_min. simpl. rewrite H10.
  destruct (Qle_bool 10 q); simpl; [reflexivity|].
  rewrite H0. destruct (Qle_bool q 0); simpl; [reflexivity|exact H].
Qed.

Lemma consistency_modifier_agrees (c : option Q) :
  (forall v, c = Some v -> ~ (v == 0)%Q) ->
  consistency_modifier c = consistency_modifier_spec c.
Proof.
  intros H. destruct c as [v|]; [|reflexivity]. simpl.
  destruct (Qeq_bool v 0) eqn:E; [|reflexivity].
  apply Qeq_bool_iff in E. destruct (H v eq_refl E).
Qed.

(** Away from a consistency score of zero the code computes the formula of
    the specification: the mean plus the two modifiers, clamped. *)
Lemma overall_score_agrees (individual_scores : list Q) (a : Analytics) :
  individual_scores <> [] ->
  (forall v, consistency_score a = Some v -> ~ (v == 0)%Q) ->
  exists code spec,
    _calculate_overall_score individual_scores a = Some code /\
    overall_score_spec individual_scores a = Some spec /\
    (code == spec)%Q /\ (0 <= code)%Q /\ (code <= 10)%Q.
Proof.
  intros Hne Hc. unfold _calculate_overall_score, overall_score_spec.
  destruct (mean individual_scores) as [base|] eqn:Hm.
  - eexists; eexists. split; [reflexivity|]. split; [reflexivity|].
    split; [|apply clamp_0_10_range].
    apply clamp_0_10_Qeq. rewrite (consistency_modifier_agrees _ Hc). ring.
  - destruct individual_scores; [congruence|discriminate].
Qed.

(** The case the specification spells out: three tens, consistency 9 and an
    excellent clarity give 10, not 10.8. *)
Example overall_score_is_clamped :
  _calculate_overall_score [10; 10; 10]%Q (analytics_with "Excellent" (Some 9%Q))
  = Some 10%Q.
Proof. reflexivity. Qed.

(** C4 on the input where the code leaves the formula: with a consistency
    score of 0, which is at most 5, the specification takes 0.2 off the mean
    5 and gets 4.8; the code, whose guard reads the score 0 as absent,
    returns 5. *)
Theorem zero_consistency_is_not_penalised :
  exists code spec,
    _calculate_overall_score [5; 5; 5]%Q (analytics_with "Fair" (Some 0%Q)) = Some code /\
    overall_score_spec [5; 5; 5]%Q (analytics_with "Fair" (Some 0%Q)) = Some spec /\
    (code == 5)%Q /\ (spec == 4.8)%Q /\ ~ (code == spec)%Q.
Proof.
  eexists; eexists. split; [reflexivity|]. split; [reflexivity|].
  split; [reflexivity|]. split; [reflexivity|]. discriminate.
Qed.

(** The overall score never raises: it is a number in [0,10] for every list
    of scores, 5 for the empty one. *)
Lemma overall_score_total (individual_scores : list Q) (a : Analytics) :
  exists v, _calculate_overall_score individual_scores a = Some v.
Proof.
  unfold _calculate_overall_score.
  destruct individual_scores as [|s l]; simpl; eauto.
Qed.

Section Pipeline.

Variable llm : prompt -> option string.
Variable py_float : string -> option fval.

(** C10.  On no question-answer pair [evaluate_complete_interview] returns
    (it does not raise) a complete result: no question analysis, the overall
    score 5.0, the "Unknown" analytics record of the fallback, and in it the
    consistency score 10.0. *)
Theorem empty_interview_is_evaluated (session_id role : string) :
  exists r,
    evaluate_complete_interview llm py_float session_id [] role = Ok r /\
    question_analysis r = [] /\
    (overall_score r == 5)%Q /\
    analytics r = set_consistency_score analytics_fallback 10%Q /\
    total_duration (analytics r) = "Unable to calculate" /\
    (average_response_time (analytics r) == 0)%Q /\
    speaking_pace (analytics r) = "Unknown" /\
    technical_depth (analytics r) = "Unknown" /\
    communication_clarity (analytics r) = "Unknown" /\
    consistency_score (analytics r) = Some 10%Q.
Proof.
  eexists. split; [reflexivity|].
  repeat split; reflexivity.
Qed.

End Pipeline.

End OverallScoreFacts.

(** ** The question generator *)

Section QuestionFacts.
Import Py QuestionGenerator Spec.

Lemma generic_questions_length (role : string) :
  length (_get_generic_questions role) = 5%nat.
Proof.
  unfold _get_generic_questions.
  destruct (String.eqb role "SDE"); [reflexivity|].
  destruct (String.eqb role "Data Scientist"); [reflexivity|].
  destruct (String.eqb role "Product Manager"); reflexivity.
Qed.

Lemma generic_questions_nonempty (role : string) :
  Forall (fun q => truthy q = true) (_get_generic_questions role).
Proof.
  unfold _get_generic_questions.
  destruct (String.eqb role "SDE"); [repeat constructor|].
  destruct (String.eqb role "Data Scientist"); [repeat constructor|].
  destruct (String.eqb role "Product Manager"); repeat constructor.
Qed.

Variable llm : prompt -> option string.
Variable structured_chain : string -> string -> option (list string).

(** The second and third tier: whatever the free-text request returns, or
    if it raises, the fallback hands back five strings. *)
Lemma fallback_questions_length (role context : string) :
  length (_generate_fallback_questions llm role context) = 5%nat.
Proof.
  unfold _generate_fallback_questions.
  destruct (llm (FallbackPrompt role context)) as [content|];
    [|apply generic_questions_length].
  set (qs := take 5 (numbered_lines (strip content))).
  assert (Hqs : (length qs <= 5)%nat) by (unfold qs; rewrite length_take; lia).
  destruct (length qs <? 5)%nat eqn:E.
  - apply Nat.ltb_lt in E.
    rewrite length_take, length_app, length_drop, generic_questions_length. lia.
  - apply Nat.ltb_ge in E. rewrite length_take. lia.
Qed.

(** When the structured request fails, [generate_questions] returns five
    strings. *)
Lemma generate_questions_after_failure (db : vector_db) (role resume_path : string) :
  (forall context, structured_chain role context = None) ->
  length (generate_questions llm structured_chain db role resume_path) = 5%nat.
Proof.
  intros Hfail. unfold generate_questions.
  destruct (negb _); [apply fallback_questions_length|].
  rewrite Hfail. apply fallback_questions_length.
Qed.

(** When every request to the model fails, the five strings are the static
    bank of the role, none of them empty. *)
Lemma generate_questions_static_bank (db : vector_db) (role resume_path : string) :
  (forall context, structured_chain role context = None) ->
  (forall p, llm p = None) ->
  generate_questions llm structured_chain db role resume_path
  = _get_generic_questions role.
Proof.
  intros Hfail Hllm. unfold generate_questions, _generate_fallback_questions.
  destruct (negb _); [rewrite Hllm; reflexivity|].
  rewrite Hfail, Hllm. reflexivity.
Qed.

End QuestionFacts.

Section QuestionFailures.
Import Py QuestionGenerator Spec.

(** C1 on the inputs where the code leaves it.  A structured answer that
    parses into three questions is returned as it is, three questions long;
    and when the structured request fails, a line ["1."] of the free-text
    answer survives the blank-line filter and becomes an empty question. *)
Theorem generate_questions_not_five_nonempty :
  generate_questions (fun _ => None) three_questions_chain resume_db "SDE" "uploads/cv.txt"
    = ["Why Go?"; "Why Rust?"; "Why both?"] /\
  generate_questions numbered_stub_llm (fun _ _ => None) resume_db "SDE" "uploads/cv.txt"
    = [ EmptyString;
        "Which services did you build in Go?";
        "Describe your experience with software design patterns and architecture.";
        "How do you ensure code quality and maintainability in your projects?";
        "What's your approach to learning new technologies and frameworks?" ].
Proof. split; reflexivity. Qed.

End QuestionFailures.

(** ** The handlers of main.py *)

Section HandlerFacts.
Import Py RequestModels ResponseModels SessionManager Main Spec.

Variable process_resume : string -> result (QuestionGenerator.vector_db * option string).
Variable question_llm : QuestionGenerator.prompt -> option string.
Variable structured_chain : string -> string -> option (list string).
Variable transition_llm : nat -> option string.
Variable evaluation_llm : EvaluationService.prompt -> option string.
Variable py_float : string -> option fval.

Abbreviation initialize :=
  (initialize_interview process_resume question_llm structured_chain transition_llm).

(** C2 on the code.  When the extension of the uploaded file is not one of
    .pdf, .docx, .txt, or the role is not one of the three, the body raises
    its 400, the handler's [except Exception] catches it, and the call fails
    with status 500; nothing is stored. *)
Theorem initialize_rejection_is_a_500 (st : storage) (role filename uuid : string) (now : Q) :
  str_in (lower (path_suffix filename)) allowed_extensions = false \/
  str_in role valid_roles = false ->
  http_status (fst (initialize st role filename uuid now)) = Some 500%Z /\
  http_status (fst (initialize st role filename uuid now)) <> Some 400%Z /\
  snd (initialize st role filename uuid now) = st.
Proof.
  intros Hbad. unfold initialize_interview, initialize_body.
  destruct (str_in (lower (path_suffix filename)) allowed_extensions) eqn:He.
  - destruct Hbad as [Hbad|Hbad]; [discriminate|]. rewrite Hbad.
    repeat split; discriminate.
  - repeat split; discriminate.
Qed.

End HandlerFacts.

(** ** The store on the files: which file an id names *)

Section PathFacts.
Import Py.

Lemma split_on_no_sep (sep : ascii) (s : string) :
  mem_ascii sep s = false -> split_on sep s = [s].
Proof.
  induction s as [|c s IH]; [reflexivity|].
  cbn [mem_ascii split_on]. intros H. apply orb_false_iff in H as [Hc Hs].
  rewrite Ascii.eqb_sym, Hc, (IH Hs). reflexivity.
Qed.

Lemma mem_ascii_app (c : ascii) (a b : string) :
  mem_ascii c (a ++ b)%string = mem_ascii c a || mem_ascii c b.
Proof.
  induction a as [|d a IH]; [reflexivity|].
  change (String d a ++ b)%string with (String d (a ++ b)%string).
  cbn [mem_ascii]. rewrite IH, orb_assoc. reflexivity.
Qed.

Lemma string_length_app (a b : string) :
  String.length (a ++ b)%string = (String.length a + String.length b)%nat.
Proof.
  induction a as [|c a IH]; [reflexivity|].
  change (String c a ++ b)%string with (String c (a ++ b)%string).
  cbn [String.length]. rewrite IH. reflexivity.
Qed.

Lemma string_app_inv_tail (a b t : string) : (a ++ t = b ++ t)%string -> a = b.
Proof.
  intros H.
  assert (Hlen : String.length a = String.length b).
  { apply (f_equal String.length) in H. rewrite !string_length_app in H. lia. }
  revert b H Hlen. induction a as [|c a IH]; intros [|d b] H Hlen; try discriminate.
  - reflexivity.
  - change (String c (a ++ t)%string = String d (b ++ t)%string) in H.
    injection H as -> H. f_equal. apply IH; [exact H|].
    simpl in Hlen. lia.
Qed.

End PathFacts.

Section DiskFacts.
Import Py RequestModels ResponseModels SessionManager Main Disk Spec.

Variable cwd : path.
Variable other_directory : path -> bool.
Variable name_ok : string -> bool.
Variable encodable : gmap string jvalue -> bool.

Abbreviation session_path := (json_path cwd other_directory name_ok (sessions_dir cwd)).
Abbreviation evaluation_path := (json_path cwd other_directory name_ok (evaluations_dir cwd)).
Abbreviation read := (read_json cwd other_directory name_ok).
Abbreviation write := (write_json cwd other_directory name_ok encodable).
Abbreviation unlink := (unlink_json cwd other_directory name_ok).

(** An id that is a file name names the file of that name in the
    directory. *)
Lemma json_path_plain (directory : path) (id : string) :
  plain id = true ->
  json_path cwd other_directory name_ok directory id
  = if is_directory cwd other_directory (directory ++ [(id ++ ".json")%string])
       || negb (name_ok (id ++ ".json")%string)
    then None else Some (directory ++ [(id ++ ".json")%string]).
Proof.
  unfold plain. intros H. apply andb_true_iff in H as [Hslash Hnul].
  apply negb_true_iff in Hslash, Hnul.
  unfold json_path. rewrite Hnul.
  rewrite split_on_no_sep by (rewrite mem_ascii_app, Hslash; reflexivity).
  cbn [rev app].
  assert (Hstart : startswith "/" (id ++ ".json")%string = false).
  { destruct id as [|c id]; [reflexivity|].
    cbn [mem_ascii] in Hslash. apply orb_false_iff in Hslash as [Hc _].
    unfold startswith.
    change (String c id ++ ".json")%string with (String c (id ++ ".json")%string).
    cbn [String.prefix]. destruct (ascii_dec "/" c) as [<-|_]; [discriminate|reflexivity]. }
  rewrite Hstart. reflexivity.
Qed.

Lemma walk_up (cur : path) (rest : list string) :
  walk cwd other_directory cur (".." :: rest)
  = walk cwd other_directory (removelast cur) rest.
Proof. reflexivity. Qed.

Lemma walk_down (cur : path) (d : string) (rest : list string) :
  is_empty d = false -> String.eqb d "." = false -> String.eqb d ".." = false ->
  is_directory cwd other_directory (cur ++ [d]) = true ->
  walk cwd other_directory cur (d :: rest) = walk cwd other_directory (cur ++ [d]) rest.
Proof. intros H1 H2 H3 H4. cbn [walk]. rewrite H1, H2, H3, H4. reflexivity. Qed.

Lemma sessions_to_evaluations :
  walk cwd other_directory (sessions_dir cwd) [".."; "evaluations"]
  = Some (evaluations_dir cwd).
Proof.
  rewrite walk_up. unfold sessions_dir. rewrite removelast_last.
  rewrite walk_down; [reflexivity|reflexivity|reflexivity|reflexivity|].
  unfold is_directory. apply orb_true_iff. left. apply orb_true_iff. right.
  apply bool_decide_eq_true_2. reflexivity.
Qed.

Lemma evaluations_to_sessions :
  walk cwd other_directory (evaluations_dir cwd) [".."; "sessions"]
  = Some (sessions_dir cwd).
Proof.
  rewrite walk_up. unfold evaluations_dir. rewrite removelast_last.
  rewrite walk_down; [reflexivity|reflexivity|reflexivity|reflexivity|].
  unfold is_directory. apply orb_true_iff. left. apply orb_true_iff. left.
  apply bool_decide_eq_true_2. reflexivity.
Qed.

Lemma traversal_split (dir t : string) :
  split_on "/" t = [t] -> mem_ascii "/" dir = false ->
  split_on "/" ("../" ++ dir ++ "/" ++ t)%string = [".."; dir; t].
Proof.
  intros Ht Hdir.
  assert (Hinner : split_on "/" (dir ++ "/" ++ t)%string = [dir; t]).
  { clear - Ht Hdir. induction dir as [|c dir IH].
    - change (split_on "/" (String "/" t) = [EmptyString; t]). cbn [split_on].
      change (Ascii.eqb "/" "/") with true. cbn. rewrite Ht. reflexivity.
    - change (String c dir ++ "/" ++ t)%string with (String c (dir ++ "/" ++ t)%string).
      cbn [mem_ascii] in Hdir. apply orb_false_iff in Hdir as [Hc Hdir].
      cbn [split_on]. rewrite Ascii.eqb_sym, Hc, (IH Hdir). reflexivity. }
  change ("../" ++ dir ++ "/" ++ t)%string
    with (String "." (String "." (String "/" (dir ++ "/" ++ t)%string))).
  cbn [split_on]. change (Ascii.eqb "." "/") with false.
  change (Ascii.eqb "/" "/") with true. cbn. rewrite Hinner. reflexivity.
Qed.

(** From the sessions directory, [../evaluations/<id>] is the file of the
    evaluation [<id>]; and the other way round. *)
Lemma session_path_of_evaluation (eid : string) :
  plain eid = true ->
  session_path ("../evaluations/" ++ eid)%string = evaluation_path eid.
Proof.
  intros Hplain. rewrite (json_path_plain _ eid Hplain).
  unfold plain in Hplain. apply andb_true_iff in Hplain as [Hslash Hnul].
  apply negb_true_iff in Hslash, Hnul.
  unfold json_path.
  assert (Hn : mem_ascii "000" ("../evaluations/" ++ eid)%string = false).
  { rewrite mem_ascii_app, Hnul. reflexivity. }
  rewrite Hn.
  assert (Hname : (("../evaluations/" ++ eid) ++ ".json"
                   = "../" ++ "evaluations" ++ "/" ++ (eid ++ ".json"))%string)
    by reflexivity.
  rewrite Hname, traversal_split;
    [|apply split_on_no_sep; rewrite mem_ascii_app, Hslash; reflexivity|reflexivity].
  cbn [rev app]. change (startswith "/" _) with false. cbv iota.
  rewrite sessions_to_evaluations. reflexivity.
Qed.

Lemma evaluation_path_of_session (sid : string) :
  plain sid = true ->
  evaluation_path ("../sessions/" ++ sid)%string = session_path sid.
Proof.
  intros Hplain. rewrite (json_path_plain _ sid Hplain).
  unfold plain in Hplain. apply andb_true_iff in Hplain as [Hslash Hnul].
  apply negb_true_iff in Hslash, Hnul.
  unfold json_path.
  assert (Hn : mem_ascii "000" ("../sessions/" ++ sid)%string = false).
  { rewrite mem_ascii_app, Hnul. reflexivity. }
  rewrite Hn.
  assert (Hname : (("../sessions/" ++ sid) ++ ".json"
                   = "../" ++ "sessions" ++ "/" ++ (sid ++ ".json"))%string)
    by reflexivity.
  rewrite Hname, traversal_split;
    [|apply split_on_no_sep; rewrite mem_ascii_app, Hslash; reflexivity|reflexivity].
  cbn [rev app]. change (startswith "/" _) with false. cbv iota.
  rewrite evaluations_to_sessions. reflexivity.
Qed.

(** The two directories hold different files. *)
Lemma directories_apart (a b : string) :
  (sessions_dir cwd ++ [a] : path) <> evaluations_dir cwd ++ [b].
Proof.
  unfold sessions_dir, evaluations_dir. rewrite <- !app_assoc. intros H.
  apply app_inv_head in H. discriminate.
Qed.

(** Two ids that are file names name the same file of a directory only
    when they are the same id. *)
Lemma plain_paths_apart (directory : path) (id other : string) :
  plain id = true -> plain other = true -> other <> id ->
  json_path cwd other_directory name_ok directory other = None \/
  json_path cwd other_directory name_ok directory other
  <> json_path cwd other_directory name_ok directory id.
Proof.
  intros Hid Hother Hne. rewrite !json_path_plain by assumption.
  destruct (is_directory cwd other_directory (directory ++ [(other ++ ".json")%string])
            || negb (name_ok (other ++ ".json")%string));
    [left; reflexivity|right].
  destruct (is_directory cwd other_directory (directory ++ [(id ++ ".json")%string])
            || negb (name_ok (id ++ ".json")%string));
    [discriminate|].
  intros [= H]. apply app_inv_head in H. injection H as H.
  apply string_app_inv_tail in H. contradiction.
Qed.

(** What a read returns after a write, whichever ids and directories name
    the files. *)
Lemma read_write (dk : disk) (d d' : path) (id id' : string) (data : gmap string jvalue) :
  read (fst (write dk d id data)) d' id'
  = match json_path cwd other_directory name_ok d id with
    | Some p =>
        if decide (json_path cwd other_directory name_ok d' id' = Some p)
        then (if encodable data then Some data else None)
        else read dk d' id'
    | None => read dk d' id'
    end.
Proof.
  unfold write_json, read_json.
  destruct (json_path cwd other_directory name_ok d id) as [p|]; [|reflexivity].
  destruct (decide (json_path cwd other_directory name_ok d' id' = Some p)) as [->|Hne].
  - destruct (encodable data); cbn [fst]; rewrite lookup_insert_eq; reflexivity.
  - destruct (json_path cwd other_directory name_ok d' id') as [p'|]; [|reflexivity].
    assert (p <> p') by congruence.
    destruct (encodable data); cbn [fst]; rewrite lookup_insert_ne by assumption;
      reflexivity.
Qed.

Lemma read_unlink (dk : disk) (d d' : path) (id id' : string) :
  read (fst (unlink dk d id)) d' id'
  = match json_path cwd other_directory name_ok d id with
    | Some p =>
        if decide (json_path cwd other_directory name_ok d' id' = Some p)
        then None else read dk d' id'
    | None => read dk d' id'
    end.
Proof.
  unfold unlink_json, read_json.
  destruct (json_path cwd other_directory name_ok d id) as [p|]; [|reflexivity].
  destruct (decide (json_path cwd other_directory name_ok d' id' = Some p)) as [->|Hne].
  - destruct (dk !! p) eqn:E; cbn [fst]; [rewrite lookup_delete_eq|rewrite E]; reflexivity.
  - destruct (json_path cwd other_directory name_ok d' id') as [p'|]; [|reflexivity].
    assert (p <> p') by congruence.
    destruct (dk !! p); cbn [fst]; [rewrite lookup_delete_ne by assumption|]; reflexivity.
Qed.

(** A submit whose session id names nothing readable is answered 404 and
    leaves the disk alone. *)
Lemma submit_unreadable_session (dk : disk) (request : SubmitInterviewRequest)
    (uuid : string) (now : Q) :
  get_session cwd other_directory name_ok dk (session_id request) = None ->
  submit_interview cwd other_directory name_ok encodable dk request uuid now
  = (Raise (HTTPException 404 "Session not found"), dk, None).
Proof.
  intros Hnone. unfold submit_interview, submit_body. rewrite Hnone. reflexivity.
Qed.

(** C6 on the code.  The 404 is given when the file that the path
    [sessions/<session_id>.json] names does not read, and then the disk is
    left as it was; but that is not the same as the id being that of no
    stored session.  The path is opened as the request gives it: with the
    session id [../evaluations/<id>] the file is the record of the
    evaluation [<id>], which lies outside the sessions directory, so it is
    no stored session; that record has a role, and the call answers 200,
    writes a new evaluation record, whose session id is the path, and queues
    its task, with the evaluation record as the session. *)
Theorem submit_accepts_a_path_to_an_evaluation (dk : disk) (eid uuid role : string)
    (answers : list InterviewAnswer) (record : gmap string jvalue) (now : Q) :
  plain eid = true ->
  get_evaluation cwd other_directory name_ok dk eid = Some record ->
  record !! "role" = Some (JStr role) ->
  let request :=
    {| session_id := ("../evaluations/" ++ eid)%string; interview_data := answers |} in
  let outcome := submit_interview cwd other_directory name_ok encodable dk request uuid now in
  let evaluation_data : gmap string jvalue :=
    <["evaluation_id" := JStr uuid]>
    (<["session_id" := JStr ("../evaluations/" ++ eid)%string]>
    (<["role" := JStr role]>
    (<["interview_data" := JAnswers answers]>
    (<["submitted_at" := JNum now]>
    (<["status" := JStr "processing"]> ∅))))) in
  (forall name : string,
     session_path (session_id request) <> Some (sessions_dir cwd ++ [name])) /\
  get_session cwd other_directory name_ok dk (session_id request) = Some record /\
  fst (fst outcome)
    = Ok {| evaluation_id := uuid;
            message := "Interview submitted successfully. Processing results..." |} /\
  http_status (fst (fst outcome)) <> Some 404%Z /\
  snd (fst outcome)
    = fst (store_evaluation cwd other_directory name_ok encodable dk uuid evaluation_data) /\
  snd outcome = Some {| t_evaluation_id := uuid;
                        t_session_data := record;
                        t_interview_data := answers |} /\
  (plain uuid = true -> encodable evaluation_data = true ->
   evaluation_path uuid <> None ->
   get_evaluation cwd other_directory name_ok (snd (fst outcome)) uuid = Some evaluation_data) /\
  (forall other : SubmitInterviewRequest,
     get_session cwd other_directory name_ok dk (session_id other) = None ->
     submit_interview cwd other_directory name_ok encodable dk other uuid now
     = (Raise (HTTPException 404 "Session not found"), dk, None)).
Proof.
  intros Hplain Hrecord Hrole request outcome evaluation_data.
  assert (Hpath : session_path (session_id request) = evaluation_path eid)
    by apply (session_path_of_evaluation eid Hplain).
  assert (Hget : get_session cwd other_directory name_ok dk (session_id request) = Some record).
  { unfold get_session, read_json. rewrite Hpath. exact Hrecord. }
  assert (Htruthy : dict_truthy record = true).
  { unfold dict_truthy. apply negb_true_iff, bool_decide_eq_false. intros Hdom.
    apply dom_empty_iff_L in Hdom. rewrite Hdom, lookup_empty in Hrole. discriminate. }
  assert (Hout : outcome
            = (Ok {| evaluation_id := uuid;
                     message := "Interview submitted successfully. Processing results..." |},
               fst (store_evaluation cwd other_directory name_ok encodable dk uuid evaluation_data),
               Some {| t_evaluation_id := uuid; t_session_data := record;
                       t_interview_data := answers |})).
  { unfold outcome, submit_interview, submit_body. rewrite Hget, Htruthy. cbn [negb].
    unfold getitem_str. rewrite Hrole. reflexivity. }
  split.
  { intros name. rewrite Hpath. rewrite (json_path_plain _ eid Hplain).
    destruct (is_directory _ _ _ || negb _); [discriminate|].
    intros [= H]. symmetry in H. exact (directories_apart _ _ H). }
  split; [exact Hget|]. rewrite Hout. cbn [fst snd].
  split; [reflexivity|]. split; [discriminate|]. split; [reflexivity|].
  split; [reflexivity|].
  split; [|intros other Hnone; apply submit_unreadable_session; exact Hnone].
  intros Huuid Henc Hsome. unfold get_evaluation, store_evaluation.
  rewrite read_write. destruct (evaluation_path uuid) as [p|]; [|contradiction].
  rewrite decide_True by reflexivity. rewrite Henc. reflexivity.
Qed.

End DiskFacts.

(** ** The lifecycle of an evaluation *)

Section LifecycleFacts.
Import Py RequestModels ResponseModels SessionManager Main Spec.

Variable process_resume : string -> result (QuestionGenerator.vector_db * option string).
Variable question_llm : QuestionGenerator.prompt -> option string.
Variable structured_chain : string -> string -> option (list string).
Variable transition_llm : nat -> option string.
Variable evaluation_llm : EvaluationService.prompt -> option string.
Variable py_float : string -> option fval.

Abbreviation server_step :=
  (step process_resume question_llm structured_chain transition_llm
        evaluation_llm py_float).
Abbreviation server_reachable :=
  (reachable process_resume question_llm structured_chain transition_llm
             evaluation_llm py_float).
Abbreviation background := (process_evaluation_background evaluation_llm py_float).

Lemma dict_truthy_lookup (d : gmap string jvalue) (k : string) :
  is_Some (d !! k) -> dict_truthy d = true.
Proof.
  intros Hk. unfold dict_truthy. apply negb_true_iff, bool_decide_eq_false.
  intros Hdom. apply elem_of_dom in Hk. rewrite Hdom in Hk.
  exact (not_elem_of_empty _ Hk).
Qed.

(** [initialize_interview] writes sessions only. *)
Lemma initialize_keeps_evaluations (st : storage) (role filename uuid : string) (now : Q) :
  evaluations (snd (initialize_interview process_resume question_llm structured_chain
                      transition_llm st role filename uuid now))
  = evaluations st.
Proof.
  unfold initialize_interview, initialize_body.
  destruct (negb (str_in _ allowed_extensions)); [reflexivity|].
  destruct (negb (str_in role valid_roles)); [reflexivity|].
  destruct (process_resume _) as [[db name]|e]; reflexivity.
Qed.

(** The two outcomes of a submit: nothing stored and nothing queued, or one
    new processing record under the fresh id and its task. *)
Lemma submit_outcome (st : storage) (request : SubmitInterviewRequest)
    (uuid : string) (now : Q) :
  (exists e, submit_interview st request uuid now = (Raise e, st, None)) \/
  (exists d t,
     fst (fst (submit_interview st request uuid now))
       = Ok {| evaluation_id := uuid;
               message := "Interview submitted successfully. Processing results..." |} /\
     evaluations (snd (fst (submit_interview st request uuid now)))
       = <[uuid := d]> (evaluations st) /\
     snd (submit_interview st request uuid now) = Some t /\
     t_evaluation_id t = uuid /\
     status_is d "processing" /\ ~ has_results d /\ ~ has_error d).
Proof.
  unfold submit_interview, submit_body.
  destruct (get_session st (session_id request)) as [session_data|];
    [|left; eexists; reflexivity].
  destruct (negb (dict_truthy session_data)); [left; eexists; reflexivity|].
  destruct (getitem_str session_data "role") as [role|[c m|m]];
    [|left; eexists; reflexivity|left; eexists; reflexivity].
  right. eexists; eexists. simpl.
  split; [reflexivity|].
  split; [reflexivity|]. split; [reflexivity|]. split; [reflexivity|].
  unfold status_is, has_results, has_error.
  split; [reflexivity|].
  split; intros [v Hv]; vm_compute in Hv; discriminate.
Qed.

Lemma completed_update_spec (results : ResultsResponse) (now : Q) (d : gmap string jvalue) :
  let d' := completed_update results now ∪ d in
  status_is d' "completed" /\ has_results d' /\ (d' !! "error" = d !! "error").
Proof.
  unfold status_is, has_results, completed_update. simpl.
  repeat split.
  - apply lookup_union_Some_l. reflexivity.
  - exists (JResults results). apply lookup_union_Some_l. reflexivity.
  - apply lookup_union_r. reflexivity.
Qed.

Lemma error_update_spec (e : exn) (now : Q) (d : gmap string jvalue) :
  let d' := error_update e now ∪ d in
  status_is d' "error" /\ has_error d' /\ (d' !! "results" = d !! "results").
Proof.
  unfold status_is, has_error, error_update. simpl.
  repeat split.
  - apply lookup_union_Some_l. reflexivity.
  - exists (JStr (exn_str e)). apply lookup_union_Some_l. reflexivity.
  - apply lookup_union_r. reflexivity.
Qed.

(** What the background task does to the store when its record is there and
    not empty: one write to that record, which sets the status to completed
    and adds the results, or sets it to error and adds the error string. *)
Lemma background_outcome (st : storage) (t : task) (now : Q) (d : gmap string jvalue) :
  evaluations st !! t_evaluation_id t = Some d ->
  dict_truthy d = true ->
  exists d',
    evaluations (background st t now) = <[t_evaluation_id t := d']> (evaluations st) /\
    ((status_is d' "completed" /\ has_results d' /\ d' !! "error" = d !! "error") \/
     (status_is d' "error" /\ has_error d' /\ d' !! "results" = d !! "results")).
Proof.
  intros Hd Ht. unfold process_evaluation_background, update_evaluation, get_evaluation.
  destruct (run_evaluation evaluation_llm py_float t) as [results|e];
    rewrite Hd, Ht; simpl; eexists; (split; [reflexivity|]).
  - left. apply completed_update_spec.
  - right. apply error_update_spec.
Qed.


Lemma status_exclusive (d : gmap string jvalue) (a b : string) :
  status_is d a -> status_is d b -> a = b.
Proof. unfold status_is. intros Ha Hb. congruence. Qed.

Lemma invariant_start (sess : gmap string (gmap string jvalue)) :
  server_invariant {| store := {| sessions := sess; evaluations := ∅ |}; pending := [] |}.
Proof.
  split; [|split].
  - intros eid d H. simpl in H. rewrite lookup_empty in H. discriminate.
  - constructor.
  - intros eid H. inversion H.
Qed.

Lemma invariant_submit (s : server) (request : SubmitInterviewRequest)
    (uuid : string) (now : Q) :
  evaluations (store s) !! uuid = None ->
  server_invariant s ->
  server_invariant
    {| store := snd (fst (submit_interview (store s) request uuid now));
       pending := pending s
                  ++ option_to_list (snd (submit_interview (store s) request uuid now)) |}.
Proof.
  intros Hfresh (Hrec & Hnodup & Hhas).
  destruct (submit_outcome (store s) request uuid now)
    as [[e He]|(d & t & _ & Hev & Ht & Hid & Hproc & Hnores & Hnoerr)].
  { rewrite He. simpl. rewrite app_nil_r. destruct s.
    exact (conj Hrec (conj Hnodup Hhas)). }
  assert (Hnotin : uuid ∉ pending_ids s).
  { intros Hin. apply Hhas in Hin. rewrite Hfresh in Hin. destruct Hin; discriminate. }
  assert (Hids : pending_ids
                   {| store := snd (fst (submit_interview (store s) request uuid now));
                      pending := pending s
                        ++ option_to_list (snd (submit_interview (store s) request uuid now)) |}
                 = pending_ids s ++ [uuid]).
  { unfold pending_ids. simpl. rewrite Ht. simpl. rewrite map_app. simpl.
    rewrite Hid. reflexivity. }
  unfold server_invariant. rewrite Hids. simpl. rewrite Hev.
  split; [|split].
  - intros eid d0 Hd0. destruct (decide (uuid = eid)) as [<-|Hne].
    + rewrite lookup_insert_eq in Hd0. injection Hd0 as <-.
      split; [apply (dict_truthy_lookup d "status"); eexists; exact Hproc|].
      split; [split; [intros H; contradiction|
                      intros H; pose proof (status_exclusive _ _ _ Hproc H); discriminate]|].
      split; [split; [intros H; contradiction|
                      intros H; pose proof (status_exclusive _ _ _ Hproc H); discriminate]|].
      split; [intros _; apply elem_of_app; right; apply list_elem_of_singleton; reflexivity
             |intros _; exact Hproc].
    + rewrite lookup_insert_ne in Hd0 by exact Hne.
      destruct (Hrec eid d0 Hd0) as (Htr & Hres & Herr & Hpend).
      repeat split; try apply Hres; try apply Herr; try exact Htr.
      * intros H. apply elem_of_app. left. apply Hpend, H.
      * intros H. apply elem_of_app in H as [H|H]; [apply Hpend, H|].
        apply list_elem_of_singleton in H. congruence.
  - apply NoDup_app. split; [exact Hnodup|]. split; [|apply NoDup_singleton].
    intros x Hx Hx'. apply list_elem_of_singleton in Hx'. subst x. contradiction.
  - intros eid H. apply elem_of_app in H as [H|H].
    + destruct (decide (uuid = eid)) as [<-|Hne]; [contradiction|].
      rewrite lookup_insert_ne by exact Hne. apply Hhas, H.
    + apply list_elem_of_singleton in H. subst eid. rewrite lookup_insert_eq. eauto.
Qed.


Lemma invariant_background (s : server) (before : list task) (t : task)
    (after : list task) (now : Q) :
  pending s = before ++ t :: after ->
  server_invariant s ->
  server_invariant {| store := background (store s) t now; pending := before ++ after |}.
Proof.
  intros Hpend (Hrec & Hnodup & Hhas).
  assert (Hids : pending_ids s
                 = map t_evaluation_id before ++ t_evaluation_id t :: map t_evaluation_id after).
  { unfold pending_ids. rewrite Hpend, map_app. reflexivity. }
  rewrite Hids in Hnodup. apply NoDup_app in Hnodup as (Hnb & Hcross & Hna).
  apply NoDup_cons in Hna as [Hnotafter Hna].
  assert (Hnotbefore : t_evaluation_id t ∉ map t_evaluation_id before).
  { intros H. apply (Hcross _ H). left. }
  assert (Hin : t_evaluation_id t ∈ pending_ids s).
  { rewrite Hids. apply elem_of_app. right. left. }
  destruct (Hhas _ Hin) as [d Hd].
  destruct (Hrec _ _ Hd) as (Htr & Hres & Herr & Hproc).
  apply Hproc in Hin as Hstatus.
  destruct (background_outcome (store s) t now d Hd Htr) as (d' & Hev & Hd').
  assert (Hids' : pending_ids {| store := background (store s) t now;
                                 pending := before ++ after |}
                  = map t_evaluation_id before ++ map t_evaluation_id after).
  { unfold pending_ids. simpl. apply map_app. }
  assert (Hgone : t_evaluation_id t ∉ map t_evaluation_id before ++ map t_evaluation_id after).
  { intros H. apply elem_of_app in H as [H|H]; contradiction. }
  unfold server_invariant. rewrite Hids'. simpl. rewrite Hev.
  split; [|split].
  - intros eid d0 Hd0. destruct (decide (t_evaluation_id t = eid)) as [<-|Hne].
    + rewrite lookup_insert_eq in Hd0. injection Hd0 as <-.
      destruct Hd' as [(Hst & Hr & He)|(Hst & He & Hr)].
      * split; [apply (dict_truthy_lookup d' "status"); eexists; exact Hst|].
        split; [split; intros _; assumption|].
        split; [split|split].
        -- intros Herr'. unfold has_error in *. rewrite He in Herr'.
           apply Herr in Herr'. pose proof (status_exclusive _ _ _ Hstatus Herr').
           discriminate.
        -- intros H. pose proof (status_exclusive _ _ _ Hst H). discriminate.
        -- intros H. pose proof (status_exclusive _ _ _ Hst H). discriminate.
        -- intros H. contradiction.
      * split; [apply (dict_truthy_lookup d' "status"); eexists; exact Hst|].
        split; [split|].
        -- intros Hres'. unfold has_results in *. rewrite Hr in Hres'.
           apply Hres in Hres'. pose proof (status_exclusive _ _ _ Hstatus Hres').
           discriminate.
        -- intros H. pose proof (status_exclusive _ _ _ Hst H). discriminate.
        -- split; [split; intros _; assumption|]. split.
           ++ intros H. pose proof (status_exclusive _ _ _ Hst H). discriminate.
           ++ intros H. contradiction.
    + rewrite lookup_insert_ne in Hd0 by exact Hne.
      destruct (Hrec eid d0 Hd0) as (Htr0 & Hres0 & Herr0 & Hpend0).
      split; [exact Htr0|]. split; [exact Hres0|]. split; [exact Herr0|].
      rewrite Hpend0, Hids. rewrite !elem_of_app, elem_of_cons.
      split; [intros [H|[H|H]]; [left; exact H|congruence|right; exact H]
             |intros [H|H]; [left; exact H|right; right; exact H]].
  - apply NoDup_app. split; [exact Hnb|]. split; [|exact Hna].
    intros x Hx Hx'. apply (Hcross x Hx). right. exact Hx'.
  - intros eid H.
    destruct (decide (t_evaluation_id t = eid)) as [<-|Hne]; [contradiction|].
    rewrite lookup_insert_ne by exact Hne. apply Hhas. rewrite Hids.
    apply elem_of_app in H as [H|H]; apply elem_of_app; [left; exact H|right; right; exact H].
Qed.

Lemma invariant_step (s s' : server) :
  server_invariant s -> server_step s s' -> server_invariant s'.
Proof.
  intros Hinv Hstep. destruct Hstep as [s role filename uuid now|s request uuid now Hfresh|s before t after now Hpend].
  - destruct Hinv as (Hrec & Hnodup & Hhas).
    unfold server_invariant, pending_ids in *. simpl.
    rewrite initialize_keeps_evaluations. exact (conj Hrec (conj Hnodup Hhas)).
  - apply invariant_submit; assumption.
  - apply invariant_background; assumption.
Qed.

Lemma invariant_reachable (s : server) : server_reachable s -> server_invariant s.
Proof.
  induction 1 as [sess|s s' _ IH Hstep]; [apply invariant_start|].
  eapply invariant_step; eassumption.
Qed.

(** A step leaves a stored record alone or is its one write. *)
Lemma step_writes_once (s s' : server) (eid : string) (d : gmap string jvalue) :
  server_invariant s -> server_step s s' ->
  evaluations (store s) !! eid = Some d ->
  exists d', evaluations (store s') !! eid = Some d' /\ (d' = d \/ written_once d d').
Proof.
  intros Hinv Hstep Hd.
  destruct Hstep as [s role filename uuid now|s request uuid now Hfresh|s before t after now Hpend];
    simpl.
  - rewrite initialize_keeps_evaluations. eauto.
  - destruct (submit_outcome (store s) request uuid now)
      as [[e He]|(d1 & t & _ & Hev & _)].
    + rewrite He. simpl. eauto.
    + rewrite Hev. exists d. split; [|left; reflexivity].
      rewrite lookup_insert_ne; [exact Hd|]. intros ->. congruence.
  - destruct Hinv as (Hrec & Hnodup & Hhas).
    assert (Hin : t_evaluation_id t ∈ pending_ids s).
    { unfold pending_ids. rewrite Hpend, map_app. apply elem_of_app. right. left. }
    destruct (Hhas _ Hin) as [dt Hdt].
    destruct (Hrec _ _ Hdt) as (Htr & Hres & Herr & Hproc).
    apply Hproc in Hin as Hstatus.
    destruct (background_outcome (store s) t now dt Hdt Htr) as (d' & Hev & Hd').
    rewrite Hev. destruct (decide (t_evaluation_id t = eid)) as [<-|Hne].
    + rewrite Hd in Hdt. injection Hdt as <-.
      exists d'. rewrite lookup_insert_eq. split; [reflexivity|]. right.
      split; [exact Hstatus|].
      destruct Hd' as [(Hst & Hr & He)|(Hst & He & Hr)]; [left|right].
      * repeat split; try assumption. unfold has_error. rewrite He.
        intros H. apply Herr in H. pose proof (status_exclusive _ _ _ Hstatus H).
        discriminate.
      * repeat split; try assumption. unfold has_results. rewrite Hr.
        intros H. apply Hres in H. pose proof (status_exclusive _ _ _ Hstatus H).
        discriminate.
    + exists d. rewrite lookup_insert_ne by exact Hne. eauto.
Qed.

(** C3.  In every state the server reaches from a start without
    evaluations: a stored evaluation has results exactly when its status is
    completed; a step of the server either leaves a stored evaluation as it
    is or is its one write, from processing to completed with results or to
    error with an error string, never both; an evaluation is processing
    exactly as long as its background task is still to run, there is one
    task for it, and running that task is the write.  So a record that has
    left processing is never written again. *)
Theorem evaluation_written_exactly_once (s : server) :
  server_reachable s ->
  (forall eid d, evaluations (store s) !! eid = Some d ->
     (has_results d <-> status_is d "completed")) /\
  (forall s' eid d, server_step s s' -> evaluations (store s) !! eid = Some d ->
     exists d', evaluations (store s') !! eid = Some d' /\
                (d' = d \/ written_once d d')) /\
  (forall eid d, evaluations (store s) !! eid = Some d ->
     (status_is d "processing" <-> eid ∈ pending_ids s)) /\
  NoDup (pending_ids s) /\
  (forall before t after now, pending s = before ++ t :: after ->
     exists d d',
       evaluations (store s) !! t_evaluation_id t = Some d /\
       evaluations (background (store s) t now) !! t_evaluation_id t = Some d' /\
       written_once d d').
Proof.
  intros Hreach. pose proof (invariant_reachable s Hreach) as Hinv.
  pose proof Hinv as (Hrec & Hnodup & Hhas).
  split; [intros eid d Hd; apply (Hrec eid d Hd)|].
  split; [intros s' eid d Hstep Hd; eapply step_writes_once; eassumption|].
  split; [intros eid d Hd; apply (Hrec eid d Hd)|].
  split; [exact Hnodup|].
  intros before t after now Hpend.
  assert (Hin : t_evaluation_id t ∈ pending_ids s).
  { unfold pending_ids. rewrite Hpend, map_app. apply elem_of_app. right. left. }
  destruct (Hhas _ Hin) as [d Hd]. exists d.
  destruct (step_writes_once s _ (t_evaluation_id t) d Hinv
              (step_background _ _ _ _ _ _ s before t after now Hpend) Hd)
    as (d' & Hd' & [->|Hw]).
  - exfalso. simpl in Hd'.
    destruct (Hrec _ _ Hd) as (Htr & Hres & Herr & Hproc).
    destruct (background_outcome (store s) t now d Hd Htr) as (d2 & Hev & Hd2).
    rewrite Hev, lookup_insert_eq in Hd'. injection Hd' as ->.
    apply Hproc in Hin.
    destruct Hd2 as [(Hst & _)|(Hst & _)];
      pose proof (status_exclusive _ _ _ Hin Hst); discriminate.
  - exists d'. simpl in Hd'. auto.
Qed.

End LifecycleFacts.

(** ** The audio pipeline *)

Section AudioFacts.
Import Py Graph2 Spec.

Variable b64decode : string -> option string.
Variable playable : string -> bool.

Abbreviation audio_step := (step b64decode playable).
Abbreviation audio_steps := (steps b64decode playable).

Lemma steps_trans (p q r : pipeline) :
  audio_steps p q -> audio_steps q r -> audio_steps p r.
Proof.
  intros Hpq Hqr. induction Hqr as [q|q r1 r2 _ IH Hstep]; [exact Hpq|].
  eapply steps_more; [apply IH; exact Hpq|exact Hstep].
Qed.

Lemma steps_one (p q : pipeline) : audio_step p q -> audio_steps p q.
Proof. intros H. eapply steps_more; [apply steps_refl|exact H]. Qed.

Lemma put_all_fields (chunks : list string) (a : AudioStreamer) :
  audio_queue (put_all chunks a) = audio_queue a ++ map Some chunks /\
  is_playing (put_all chunks a) = is_playing a /\
  audio_thread (put_all chunks a) = audio_thread a /\
  taken (put_all chunks a) = taken a /\
  play_calls (put_all chunks a) = play_calls a /\
  earlier_threads (put_all chunks a) = earlier_threads a.
Proof.
  revert a. induction chunks as [|c chunks IH]; intros a; simpl.
  - rewrite app_nil_r. repeat split.
  - destruct (IH (add_audio_chunk a c)) as (Hq & Hp & Ht & Hk & Hc & He).
    unfold put_all in *. rewrite Hq, Hp, Ht, Hk, Hc, He. simpl.
    rewrite <- app_assoc. repeat split.
Qed.

Lemma receive_one_audio (payload chunk : string) (a : AudioStreamer) :
  carries b64decode payload chunk ->
  receive_one b64decode (audio_message payload) a = (true, add_audio_chunk a chunk).
Proof.
  intros [Ht Hd]. unfold receive_one, audio_payload. simpl. rewrite Ht, Hd. reflexivity.
Qed.

(** The receiving task alone: it puts the chunks of the audio messages in
    the order of the messages, and never waits for room on the queue. *)
Lemma receive_run (payloads chunks : list string) (rest : list ws_message)
    (os : list string) (a : AudioStreamer) :
  Forall2 (carries b64decode) payloads chunks ->
  audio_steps {| inbox := map audio_message payloads ++ rest; receiving := true;
                 others := os; streamer := a |}
              {| inbox := rest; receiving := true; others := os;
                 streamer := put_all chunks a |}.
Proof.
  intros H. revert a. induction H as [|payload chunk payloads chunks Hc _ IH]; intros a.
  - apply steps_refl.
  - eapply steps_trans; [|apply (IH (add_audio_chunk a chunk))].
    apply steps_one. simpl.
    pose proof (step_receive b64decode playable (audio_message payload)
                  (map audio_message payloads ++ rest) os a) as Hstep.
    rewrite (receive_one_audio _ _ _ Hc) in Hstep. exact Hstep.
Qed.

(** The receivers of the other replies alone. *)
Lemma others_run (os rest : list string) (ms : list ws_message) (r : bool)
    (a : AudioStreamer) :
  audio_steps {| inbox := ms; receiving := r; others := os ++ rest; streamer := a |}
              {| inbox := ms; receiving := r; others := rest; streamer := put_all os a |}.
Proof.
  revert a. induction os as [|c os IH]; intros a.
  - apply steps_refl.
  - eapply steps_trans; [|apply (IH (add_audio_chunk a c))].
    apply steps_one. simpl. apply step_other.
Qed.

(** A move of a thread changes the queue and the logs in one of two ways:
    not at all but for a sentinel taken, or by taking the chunk at the head
    of the queue, which a thread only does from inside [get]. *)
Lemma player_turn_cases (t t' : player) (a a' : AudioStreamer) :
  player_turn playable t a = Some (t', a') ->
  is_playing a' = is_playing a /\ audio_thread a' = audio_thread a /\
  earlier_threads a' = earlier_threads a /\
  ((taken a' = taken a /\ play_calls a' = play_calls a /\
    (audio_queue a' = audio_queue a \/
     (t = Waiting /\ t' = Exited /\ audio_queue a = None :: audio_queue a')) /\
    (forall c, t = Busy c -> t' = Testing)) \/
   (exists c, t = Waiting /\ audio_queue a = Some c :: audio_queue a' /\
      taken a' = taken a ++ [c] /\
      ((playable c = true /\ play_calls a' = play_calls a ++ [c] /\ t' = Busy c) \/
       (playable c = false /\ play_calls a' = play_calls a /\ t' = Testing)))).
Proof.
  intros H. destruct t as [| |c|]; simpl in H.
  - injection H as <- <-. split; [reflexivity|]. split; [reflexivity|].
    split; [reflexivity|]. left. split; [reflexivity|]. split; [reflexivity|].
    split; [left; reflexivity|discriminate].
  - destruct (audio_queue a) as [|[c|] rest] eqn:Hq.
    + injection H as <- <-. split; [reflexivity|]. split; [reflexivity|].
      split; [reflexivity|]. left. split; [reflexivity|]. split; [reflexivity|].
      split; [left; exact Hq|discriminate].
    + destruct (playable c) eqn:Hc; injection H as <- <-; cbn;
        (split; [reflexivity|]); (split; [reflexivity|]); (split; [reflexivity|]);
        right; exists c; (split; [reflexivity|]); (split; [reflexivity|]);
        (split; [reflexivity|]).
      * left. split; [exact Hc|]. split; reflexivity.
      * right. split; [exact Hc|]. split; reflexivity.
    + injection H as <- <-. cbn. split; [reflexivity|]. split; [reflexivity|].
      split; [reflexivity|]. left. split; [reflexivity|]. split; [reflexivity|].
      split; [right; split; [reflexivity|split; reflexivity]|discriminate].
  - injection H as <- <-. split; [reflexivity|]. split; [reflexivity|].
    split; [reflexivity|]. left. split; [reflexivity|]. split; [reflexivity|].
    split; [left; reflexivity|]. intros c' _. reflexivity.
  - discriminate.
Qed.

Lemma player_turn_queue (t t' : player) (a a' : AudioStreamer) :
  player_turn playable t a = Some (t', a') ->
  (length (audio_queue a') <= length (audio_queue a))%nat.
Proof.
  intros H. destruct (player_turn_cases _ _ _ _ H) as (_ & _ & _ & [Hsame|Htake]).
  - destruct Hsame as (_ & _ & [Hq|(_ & _ & Hq)] & _); rewrite Hq; simpl; lia.
  - destruct Htake as (c & _ & Hq & _). rewrite Hq. simpl. lia.
Qed.

Lemma set_thread_same (a : AudioStreamer) : set_thread a (audio_thread a) = a.
Proof. destruct a. reflexivity. Qed.

(** A thread in its loop, with the flag set, gets to its [get]. *)
Lemma to_waiting (ms : list ws_message) (r : bool) (os : list string) (a : AudioStreamer) :
  is_playing a = true -> audio_thread a <> Exited ->
  audio_steps {| inbox := ms; receiving := r; others := os; streamer := a |}
              {| inbox := ms; receiving := r; others := os;
                 streamer := set_thread a Waiting |}.
Proof.
  intros Hp Ht.
  destruct (audio_thread a) as [| |c|] eqn:Hth.
  - apply steps_one. apply step_player. rewrite Hth. simpl. rewrite Hp. reflexivity.
  - rewrite <- Hth, set_thread_same. apply steps_refl.
  - eapply steps_more.
    + apply steps_one.
      apply (step_player b64decode playable ms r os a Testing a).
      rewrite Hth. reflexivity.
    + apply (step_player b64decode playable ms r os (set_thread a Testing) Waiting
               (set_thread a Testing)).
      simpl. rewrite Hp. reflexivity.
  - contradiction.
Qed.

(** The playback thread alone: it empties a queue of chunks from the front,
    one chunk after the other. *)
Lemma drain_run (chunks : list string) (ms : list ws_message) (r : bool)
    (os : list string) (a : AudioStreamer) :
  is_playing a = true ->
  audio_thread a <> Exited ->
  audio_queue a = map Some chunks ->
  exists a',
    audio_steps {| inbox := ms; receiving := r; others := os; streamer := a |}
                {| inbox := ms; receiving := r; others := os; streamer := a' |} /\
    audio_queue a' = [].
Proof.
  revert a. induction chunks as [|c chunks IH]; intros a Hp Ht Hq.
  - exists a. split; [apply steps_refl|exact Hq].
  - pose proof (to_waiting ms r os a Hp Ht) as Hw.
    assert (Hturn : exists t' a1,
              player_turn playable Waiting (set_thread a Waiting) = Some (t', a1) /\
              t' <> Exited /\ is_playing a1 = true /\ audio_queue a1 = map Some chunks).
    { simpl. rewrite Hq. simpl. destruct (playable c); eexists; eexists;
        (split; [reflexivity|]); simpl; (split; [discriminate|]); split; auto. }
    destruct Hturn as (t' & a1 & Hturn & Ht' & Hp1 & Hq1).
    destruct (IH (set_thread a1 t') Hp1 Ht' Hq1) as (a' & Hsteps & Hq').
    exists a'. split; [|exact Hq'].
    eapply steps_trans; [exact Hw|].
    eapply steps_trans; [|exact Hsteps].
    apply steps_one. apply step_player. exact Hturn.
Qed.

Lemma interleaved_app {A : Type} (l1 l2 l k1 k2 k : list A) :
  interleaved l1 l2 l -> interleaved k1 k2 k ->
  interleaved (l1 ++ k1) (l2 ++ k2) (l ++ k).
Proof.
  intros H Hk. induction H; simpl; [exact Hk| |]; constructor; assumption.
Qed.

Lemma interleaved_snoc_left {A : Type} (x : A) (l1 l2 l : list A) :
  interleaved l1 l2 l -> interleaved (l1 ++ [x]) l2 (l ++ [x]).
Proof.
  intros H. rewrite <- (app_nil_r l2).
  apply interleaved_app; [exact H|repeat constructor].
Qed.

Lemma interleaved_snoc_right {A : Type} (x : A) (l1 l2 l : list A) :
  interleaved l1 l2 l -> interleaved l1 (l2 ++ [x]) (l ++ [x]).
Proof.
  intros H. rewrite <- (app_nil_r l1).
  apply interleaved_app; [exact H|repeat constructor].
Qed.

Lemma interleaved_alone {A : Type} (l1 l : list A) : interleaved l1 [] l -> l = l1.
Proof.
  intros H. remember [] as l2 eqn:E. induction H; [reflexivity| |discriminate].
  rewrite (IHinterleaved E). reflexivity.
Qed.

Lemma delivered_start (a : AudioStreamer) : delivered (start_audio_thread a) = delivered a.
Proof. unfold delivered, start_audio_thread. destruct (is_playing a); reflexivity. Qed.

Lemma unstopped_idle (a : AudioStreamer) :
  unstopped a -> is_playing a = false -> audio_thread a = Exited.
Proof.
  intros (_ & _ & Hflag) Hp.
  destruct (audio_thread a) eqn:Hth; try reflexivity; exfalso;
    (assert (Hp' : is_playing a = true) by (apply Hflag; discriminate)); congruence.
Qed.

Lemma in_order_start (a0 : AudioStreamer) (payloads chunks others0 : list string)
    (rest : list ws_message) :
  unstopped a0 ->
  Forall2 (carries b64decode) payloads chunks ->
  in_order b64decode playable a0 chunks others0 rest
    (speak a0 (map audio_message payloads ++ final_message :: rest) others0).
Proof.
  intros Ha H. pose proof Ha as (Hsent & Hearlier & Hflag). unfold in_order, speak.
  cbn [streamer receiving inbox others]. split; [|split; [|split; [|split]]].
  - exists [], chunks, [], []. split; [reflexivity|]. split; [reflexivity|].
    split; [constructor|]. split; [rewrite delivered_start, app_nil_r; reflexivity|].
    split; [|discriminate].
    intros _. exists payloads. split; [exact H|reflexivity].
  - unfold start_audio_thread. destruct (is_playing a0) eqn:Hp; [exact Hp|reflexivity].
  - unfold start_audio_thread. destruct (is_playing a0) eqn:Hp; [|discriminate].
    apply Hflag. reflexivity.
  - unfold start_audio_thread. destruct (is_playing a0) eqn:Hp; [exact Hearlier|].
    cbn [earlier_threads]. rewrite (unstopped_idle a0 Ha Hp). exact Hearlier.
  - exists []. unfold start_audio_thread. destruct (is_playing a0);
      cbn [taken play_calls List.filter]; rewrite !app_nil_r; split; reflexivity.
Qed.

Lemma delivered_no_sentinel (a0 a : AudioStreamer) (put : list string) :
  None ∉ audio_queue a0 ->
  delivered a = delivered a0 ++ map Some put ->
  None ∉ audio_queue a.
Proof.
  intros Hsent Hdel Hin. unfold delivered in Hdel.
  assert (Hd : None ∈ map Some (taken a) ++ audio_queue a).
  { apply elem_of_app. right. exact Hin. }
  rewrite Hdel in Hd.
  apply elem_of_app in Hd as [Hd|Hd].
  - apply elem_of_app in Hd as [Hd|Hd]; [|contradiction].
    apply list_elem_of_fmap in Hd as (x & Hx & _). discriminate.
  - apply list_elem_of_fmap in Hd as (x & Hx & _). discriminate.
Qed.

Lemma in_order_step (a0 : AudioStreamer) (chunks others0 : list string)
    (rest : list ws_message) (p q : pipeline) :
  None ∉ audio_queue a0 ->
  in_order b64decode playable a0 chunks others0 rest p -> audio_step p q ->
  in_order b64decode playable a0 chunks others0 rest q.
Proof.
  intros Hsent
    ((done & todo & odone & put & Hchunks & Hothers & Hmix & Hdel & Hrecv & Hover)
     & Hplay & Hthread & Hearlier & (new & Hnew & Hcalls)) Hstep.
  destruct Hstep as [m ms os a|os a|ms r c os a|ms r os a t' a' Hturn
                    |ms r os a i t t' a' Hi Hturn];
    cbn [streamer receiving inbox others] in *.
  - destruct (Hrecv eq_refl) as (payloads & Hcarry & Hinbox).
    destruct Hcarry as [|payload c payloads todo' Hc Hcarry].
    + simpl in Hinbox. injection Hinbox as -> ->.
      unfold in_order. cbn.
      split; [|split; [exact Hplay|split; [exact Hthread|split; [exact Hearlier|]]]].
      * exists done, [], odone, put. split; [exact Hchunks|]. split; [exact Hothers|].
        split; [exact Hmix|]. split; [exact Hdel|]. split; [discriminate|reflexivity].
      * exists new. split; assumption.
    + simpl in Hinbox. injection Hinbox as -> ->.
      rewrite (receive_one_audio _ _ a Hc). unfold in_order. cbn.
      split; [|split; [exact Hplay|split; [exact Hthread|split; [exact Hearlier|]]]].
      * exists (done ++ [c]), todo', odone, (put ++ [c]).
        split; [rewrite Hchunks, <- app_assoc; reflexivity|].
        split; [exact Hothers|].
        split; [apply interleaved_snoc_left; exact Hmix|].
        split.
        { unfold delivered in *. cbn. rewrite app_assoc, Hdel, map_app, <- !app_assoc.
          reflexivity. }
        split; [|discriminate].
        intros _. exists payloads. split; [exact Hcarry|reflexivity].
      * exists new. split; assumption.
  - destruct (Hrecv eq_refl) as (payloads & _ & Hinbox).
    destruct payloads; discriminate.
  - unfold in_order. cbn.
    split; [|split; [exact Hplay|split; [exact Hthread|split; [exact Hearlier|]]]].
    + exists done, todo, (odone ++ [c]), (put ++ [c]).
      split; [exact Hchunks|].
      split; [rewrite Hothers, <- app_assoc; reflexivity|].
      split; [apply interleaved_snoc_right; exact Hmix|].
      split.
      { unfold delivered in *. cbn. rewrite app_assoc, Hdel, map_app, <- !app_assoc.
        reflexivity. }
      split; assumption.
    + exists new. split; assumption.
  - pose proof (delivered_no_sentinel a0 a put Hsent Hdel) as Hclean.
    destruct (player_turn_cases _ _ _ _ Hturn) as (Hp' & _ & He' & [Hsame|Htake]).
    + destruct Hsame as (Hk & Hc & Hq & _).
      assert (Hq' : audio_queue a' = audio_queue a).
      { destruct Hq as [Hq|(_ & _ & Hq)]; [exact Hq|].
        exfalso. apply Hclean. rewrite Hq. apply list_elem_of_here. }
      assert (Ht' : t' <> Exited).
      { destruct (audio_thread a) as [| |c|] eqn:Hth; simpl in Hturn.
        - rewrite Hplay in Hturn. injection Hturn as <- _. discriminate.
        - destruct (audio_queue a) as [|[c|] tl] eqn:Hqa.
          + injection Hturn as <- _. discriminate.
          + destruct (playable c); injection Hturn as <- _; discriminate.
          + exfalso. apply Hclean. apply list_elem_of_here.
        - injection Hturn as <- _. discriminate.
        - discriminate. }
      unfold in_order. cbn. rewrite Hp', He'.
      split; [|split; [exact Hplay|split; [exact Ht'|split; [exact Hearlier|]]]].
      * exists done, todo, odone, put. unfold delivered in *. cbn.
        rewrite Hk, Hq'. repeat split; assumption.
      * exists new. rewrite Hk, Hc. split; assumption.
    + destruct Htake as (c & _ & Hq & Hk & Hcase).
      unfold in_order. cbn. rewrite Hp', He'.
      split; [|split; [exact Hplay|split; [|split; [exact Hearlier|]]]].
      * exists done, todo, odone, put. unfold delivered in *. cbn.
        split; [exact Hchunks|]. split; [exact Hothers|]. split; [exact Hmix|].
        split; [|split; assumption].
        rewrite Hk, map_app, <- app_assoc. cbn. rewrite <- Hq. exact Hdel.
      * destruct Hcase as [(_ & _ & ->)|(_ & _ & ->)]; discriminate.
      * exists (new ++ [c]). rewrite Hk, Hnew, <- app_assoc. split; [reflexivity|].
        rewrite List.filter_app. cbn [List.filter].
        destruct Hcase as [(Hpc & Hc & _)|(Hpc & Hc & _)]; rewrite Hpc, Hc, Hcalls.
        -- rewrite <- app_assoc. reflexivity.
        -- rewrite app_nil_r. reflexivity.
  - rewrite Hearlier in Hi. discriminate.
Qed.

Lemma in_order_run (a0 : AudioStreamer) (chunks others0 : list string)
    (rest : list ws_message) (p q : pipeline) :
  None ∉ audio_queue a0 ->
  in_order b64decode playable a0 chunks others0 rest p -> audio_steps p q ->
  in_order b64decode playable a0 chunks others0 rest q.
Proof.
  intros Hsent Hp Hsteps. induction Hsteps as [p|p q r _ IH Hstep]; [exact Hp|].
  eapply in_order_step; [exact Hsent|apply IH; exact Hp|exact Hstep].
Qed.

Lemma in_order_steps (a0 : AudioStreamer) (payloads chunks others0 : list string)
    (rest : list ws_message) (p : pipeline) :
  unstopped a0 ->
  Forall2 (carries b64decode) payloads chunks ->
  audio_steps (speak a0 (map audio_message payloads ++ final_message :: rest) others0) p ->
  in_order b64decode playable a0 chunks others0 rest p.
Proof.
  intros Ha Hc Hsteps.
  eapply in_order_run; [apply Ha| |exact Hsteps].
  apply in_order_start; assumption.
Qed.

Lemma map_Some_app_inv (l1 : list string) (q : list (option string)) (l : list string) :
  map Some l1 ++ q = map Some l -> exists l2, q = map Some l2 /\ l = l1 ++ l2.
Proof.
  revert l. induction l1 as [|x l1 IH]; intros l H; simpl in H.
  - exists l. split; [exact H|reflexivity].
  - destruct l as [|y l]; [discriminate|]. simpl in H. injection H as -> H.
    destruct (IH l H) as (l2 & Hq & Hl). exists l2. split; [exact Hq|].
    simpl. rewrite Hl. reflexivity.
Qed.

Lemma map_Some_inj (l1 l2 : list string) : map Some l1 = map Some l2 -> l1 = l2.
Proof.
  revert l2. induction l1 as [|x l1 IH]; intros [|y l2] H; try discriminate; [reflexivity|].
  simpl in H. injection H as -> H. rewrite (IH l2 H). reflexivity.
Qed.

Lemma no_sentinel_chunks (q : list (option string)) :
  None ∉ q -> exists chunks, q = map Some chunks.
Proof.
  induction q as [|[c|] q IH]; intros H.
  - exists []. reflexivity.
  - destruct IH as (chunks & ->).
    + intros Hin. apply H. apply list_elem_of_further. exact Hin.
    + exists (c :: chunks). reflexivity.
  - exfalso. apply H. apply list_elem_of_here.
Qed.

(** With a single thread, every step either leaves the two logs as they
    are, or is that thread, inside its [get] and so not inside a playback,
    taking the chunk at the head of the queue; when it plays the chunk it
    is inside that playback afterwards. *)
Lemma one_playback_at_a_time (p q : pipeline) :
  earlier_threads (streamer p) = [] ->
  audio_step p q ->
  (taken (streamer q) = taken (streamer p) /\
   play_calls (streamer q) = play_calls (streamer p) /\
   (forall c, audio_thread (streamer p) = Busy c ->
      audio_thread (streamer q) = Busy c \/ audio_thread (streamer q) = Testing)) \/
  (exists c, audio_thread (streamer p) = Waiting /\
     audio_queue (streamer p) = Some c :: audio_queue (streamer q) /\
     taken (streamer q) = taken (streamer p) ++ [c] /\
     ((playable c = true /\
       play_calls (streamer q) = play_calls (streamer p) ++ [c] /\
       audio_thread (streamer q) = Busy c) \/
      (playable c = false /\
       play_calls (streamer q) = play_calls (streamer p) /\
       audio_thread (streamer q) = Testing))).
Proof.
  intros Hearlier Hstep.
  destruct Hstep as [m ms os a|os a|ms r c os a|ms r os a t' a' Hturn
                    |ms r os a i t t' a' Hi Hturn];
    cbn [streamer] in *.
  - left. unfold receive_one. destruct (audio_payload m) as [payload|].
    + destruct (b64decode payload); cbn; repeat split; auto.
    + destruct (final_flag m); cbn; repeat split; auto.
  - left. repeat split; auto.
  - left. cbn. repeat split; auto.
  - destruct (player_turn_cases _ _ _ _ Hturn) as (_ & _ & _ & [Hsame|Htake]).
    + left. destruct Hsame as (Hk & Hc & _ & Hb). cbn.
      split; [exact Hk|]. split; [exact Hc|].
      intros c Hth. right. apply (Hb c). exact Hth.
    + right. destruct Htake as (c & Ht & Hq & Hk & Hcase). exists c. cbn.
      split; [exact Ht|]. split; [exact Hq|]. split; [exact Hk|]. exact Hcase.
  - rewrite Hearlier in Hi. discriminate.
Qed.

(** When nothing is left to do, the thread has taken everything that was
    put, in the order of the puts. *)
Lemma in_order_finished (a0 : AudioStreamer) (chunks others0 : list string)
    (rest : list ws_message) (p : pipeline) :
  in_order b64decode playable a0 chunks others0 rest p ->
  finished p ->
  exists put, interleaved chunks others0 put /\
    map Some (taken (streamer p)) = delivered a0 ++ map Some put.
Proof.
  intros ((done & todo & odone & put & Hchunks & Hothers & Hmix & Hdel & _ & Hover) & _)
         (Hr & Ho & Hq).
  exists put. rewrite (Hover Hr), app_nil_r in Hchunks. rewrite Ho, app_nil_r in Hothers.
  subst done odone. split; [exact Hmix|].
  unfold delivered in Hdel at 1. rewrite Hq, app_nil_r in Hdel. exact Hdel.
Qed.

(** From every state of the reply the pipeline can run to its end. *)
Lemma in_order_finish (a0 : AudioStreamer) (chunks others0 : list string)
    (rest : list ws_message) (p : pipeline) :
  None ∉ audio_queue a0 ->
  in_order b64decode playable a0 chunks others0 rest p ->
  exists q, audio_steps p q /\ finished q.
Proof.
  intros Hsent Hinv.
  pose proof Hinv as
    ((done & todo & odone & put & Hchunks & Hothers & Hmix & Hdel & Hrecv & Hover)
     & Hplay & Hthread & Hearlier & _).
  destruct p as [ms r os a]. cbn [streamer receiving inbox others] in *.
  (* the receiver runs to the final message *)
  assert (Hreceived : exists ms1,
    audio_steps {| inbox := ms; receiving := r; others := os; streamer := a |}
                {| inbox := ms1; receiving := false; others := os;
                   streamer := put_all todo a |}).
  { destruct r.
    - destruct (Hrecv eq_refl) as (payloads & Hcarry & ->).
      exists rest. eapply steps_more; [apply receive_run; exact Hcarry|].
      apply (step_receive b64decode playable final_message rest os (put_all todo a)).
    - rewrite (Hover eq_refl). exists ms. apply steps_refl. }
  destruct Hreceived as (ms1 & Hsteps1).
  (* the other receivers put what they have *)
  pose proof (others_run os [] ms1 false (put_all todo a)) as Hsteps2.
  rewrite app_nil_r in Hsteps2.
  set (a2 := put_all os (put_all todo a)) in *.
  (* the thread empties the queue *)
  assert (Hinv2 : in_order b64decode playable a0 chunks others0 rest
                    {| inbox := ms1; receiving := false; others := []; streamer := a2 |}).
  { eapply in_order_run; [exact Hsent|exact Hinv|].
    eapply steps_trans; [exact Hsteps1|exact Hsteps2]. }
  destruct Hinv2 as ((_ & _ & _ & put2 & _ & _ & _ & Hdel2 & _) & Hplay2 & Hthread2 & _).
  cbn [streamer] in *.
  destruct (no_sentinel_chunks (audio_queue a2)
              (delivered_no_sentinel a0 a2 put2 Hsent Hdel2)) as (queued & Hqueued).
  destruct (drain_run queued ms1 false [] a2 Hplay2 Hthread2 Hqueued)
    as (a3 & Hsteps3 & Hq3).
  exists {| inbox := ms1; receiving := false; others := []; streamer := a3 |}.
  split; [|repeat split; assumption].
  eapply steps_trans; [eapply steps_trans; eassumption|exact Hsteps3].
Qed.

(** The states the shared streamer goes through before [stop()] are the
    ones the replies are proved on. *)
Lemma lives_unstopped (a : AudioStreamer) : lives playable a -> unstopped a.
Proof.
  intros H. induction H as [|a _ IH|a c _ (Hs & He & Hf)|a t' a' _ (Hs & He & Hf) Hturn].
  - split; [intros Hin; inversion Hin|]. split; [reflexivity|].
    cbn. split; [discriminate|]. intros Hne. contradiction.
  - unfold start_audio_thread. destruct (is_playing a) eqn:Hp; [exact IH|].
    pose proof (unstopped_idle a IH Hp) as Hth. destruct IH as (Hs & He & Hf).
    unfold unstopped. cbn. rewrite Hth. cbn.
    split; [exact Hs|]. split; [exact He|]. split; [discriminate|reflexivity].
  - unfold unstopped. cbn. split; [|split; assumption].
    intros Hin. apply elem_of_app in Hin as [Hin|Hin]; [contradiction|].
    apply list_elem_of_singleton in Hin. discriminate.
  - destruct (player_turn_cases _ _ _ _ Hturn) as (Hp' & _ & He' & Hcase).
    unfold unstopped. cbn. rewrite Hp', He'.
    assert (Hq : forall x, x ∈ audio_queue a' -> x ∈ audio_queue a).
    { intros x Hx. destruct Hcase as [(_ & _ & [Hq|(_ & _ & Hq)] & _)|(c & _ & Hq & _)].
      - rewrite <- Hq. exact Hx.
      - rewrite Hq. apply list_elem_of_further. exact Hx.
      - rewrite Hq. apply list_elem_of_further. exact Hx. }
    split; [intros Hin; apply Hs, Hq, Hin|]. split; [exact He|].
    destruct (audio_thread a) as [| |c|] eqn:Hth; simpl in Hturn.
    + destruct (is_playing a); injection Hturn as <- _.
      * split; [discriminate|reflexivity].
      * split; [discriminate|]. intros Hne. contradiction.
    + assert (Hp : is_playing a = true) by (apply Hf; discriminate).
      destruct (audio_queue a) as [|[c|] tl] eqn:Hqa.
      * injection Hturn as <- _. rewrite Hp. split; [discriminate|reflexivity].
      * destruct (playable c); injection Hturn as <- _; rewrite Hp;
          (split; [discriminate|reflexivity]).
      * exfalso. apply Hs. apply list_elem_of_here.
    + assert (Hp : is_playing a = true) by (apply Hf; discriminate).
      injection Hturn as <- _. rewrite Hp. split; [discriminate|reflexivity].
    + discriminate.
Qed.

(** C7.  A reply starts on the shared streamer in any state it can have
    before [stop()], while other replies may still be putting their chunks.
    On the messages of a synthesis service that emits audio chunks and then
    the final flag, in every state that can be reached: what has been put on
    the queue since the start is the chunks emitted so far, in emission
    order, shuffled with what the other replies have put, and exactly the
    chunks emitted so far when there is no other reply; taken-then-queued is
    what was there at the start followed by these puts, so the thread takes
    in the order of the puts; the calls to play are the chunks taken that
    the mixer accepts, in the order taken.  There is one thread; a chunk is
    taken only by that thread from inside its [get], from the head of the
    queue, and when it is played the thread is inside that playback, during
    which no step takes or plays a chunk.  The run can always be completed,
    and when nothing is left to do the thread has taken all the chunks in
    the order they were put. *)
Theorem audio_played_in_emission_order (a0 : AudioStreamer)
    (payloads chunks others0 : list string) (rest : list ws_message) (p : pipeline) :
  unstopped a0 ->
  Forall2 (carries b64decode) payloads chunks ->
  audio_steps (speak a0 (map audio_message payloads ++ final_message :: rest) others0) p ->
  (exists done todo others_done put,
     chunks = done ++ todo /\
     others0 = others_done ++ others p /\
     interleaved done others_done put /\
     (others0 = [] -> put = done) /\
     delivered (streamer p) = delivered a0 ++ map Some put /\
     (receiving p = false -> todo = [])) /\
  (exists new, taken (streamer p) = taken a0 ++ new /\
     play_calls (streamer p) = play_calls a0 ++ List.filter playable new) /\
  (earlier_threads (streamer p) = [] /\ is_playing (streamer p) = true /\
   audio_thread (streamer p) <> Exited) /\
  (forall q, audio_step p q ->
     (taken (streamer q) = taken (streamer p) /\
      play_calls (streamer q) = play_calls (streamer p) /\
      (forall c, audio_thread (streamer p) = Busy c ->
         audio_thread (streamer q) = Busy c \/ audio_thread (streamer q) = Testing)) \/
     (exists c, audio_thread (streamer p) = Waiting /\
        audio_queue (streamer p) = Some c :: audio_queue (streamer q) /\
        taken (streamer q) = taken (streamer p) ++ [c] /\
        ((playable c = true /\
          play_calls (streamer q) = play_calls (streamer p) ++ [c] /\
          audio_thread (streamer q) = Busy c) \/
         (playable c = false /\
          play_calls (streamer q) = play_calls (streamer p) /\
          audio_thread (streamer q) = Testing)))) /\
  (finished p ->
     exists put, interleaved chunks others0 put /\
       map Some (taken (streamer p)) = delivered a0 ++ map Some put) /\
  (exists q put, audio_steps p q /\ finished q /\
     interleaved chunks others0 put /\
     map Some (taken (streamer q)) = delivered a0 ++ map Some put).
Proof.
  intros Ha Hcarry Hsteps.
  pose proof (in_order_steps a0 payloads chunks others0 rest p Ha Hcarry Hsteps) as Hinv.
  pose proof Hinv as
    ((done & todo & odone & put & Hchunks & Hothers & Hmix & Hdel & Hrecv & Hover)
     & Hplay & Hthread & Hearlier & Hnew).
  destruct Ha as (Hsent & _).
  split.
  { exists done, todo, odone, put.
    split; [exact Hchunks|]. split; [exact Hothers|]. split; [exact Hmix|].
    split; [|split; assumption].
    intros ->. symmetry in Hothers. apply app_eq_nil in Hothers as [-> _].
    apply interleaved_alone. exact Hmix. }
  split; [exact Hnew|].
  split; [split; [exact Hearlier|split; assumption]|].
  split; [intros q Hstep; apply one_playback_at_a_time; assumption|].
  split; [apply (in_order_finished a0 chunks others0 rest p Hinv)|].
  destruct (in_order_finish a0 chunks others0 rest p Hsent Hinv) as (q & Hq & Hfin).
  destruct (in_order_finished a0 chunks others0 rest q
              (in_order_run a0 chunks others0 rest p q Hsent Hinv Hq) Hfin)
    as (put' & Hmix' & Htaken').
  exists q, put'. split; [exact Hq|]. split; [exact Hfin|]. split; assumption.
Qed.

(** No step puts more than one chunk on the queue, and only a message read
    or a chunk of another reply pays for it. *)
Lemma queue_step (p q : pipeline) :
  audio_step p q ->
  (length (audio_queue (streamer q)) + length (inbox q) + length (others q)
   <= length (audio_queue (streamer p)) + length (inbox p) + length (others p))%nat.
Proof.
  intros Hstep.
  destruct Hstep as [m ms os a|os a|ms r c os a|ms r os a t' a' Hturn
                    |ms r os a i t t' a' Hi Hturn];
    cbn [streamer inbox others].
  - unfold receive_one. destruct (audio_payload m) as [payload|].
    + destruct (b64decode payload); cbn; [rewrite length_app; cbn|]; lia.
    + destruct (final_flag m); cbn; lia.
  - lia.
  - cbn. rewrite length_app. cbn. lia.
  - pose proof (player_turn_queue _ _ _ _ Hturn). cbn. lia.
  - pose proof (player_turn_queue _ _ _ _ Hturn). cbn. lia.
Qed.

(** The queue holds at most what it held when the reply began and what the
    receivers have read since. *)
Lemma queue_at_most_received (a : AudioStreamer) (ms : list ws_message)
    (os : list string) (p : pipeline) :
  audio_steps (speak a ms os) p ->
  (length (audio_queue (streamer p)) + length (inbox p) + length (others p)
   <= length (audio_queue a) + length ms + length os)%nat.
Proof.
  intros Hsteps. remember (speak a ms os) as p0 eqn:Hp0.
  induction Hsteps as [p|p q r _ IH Hstep].
  - subst p. unfold speak, start_audio_thread. cbn. destruct (is_playing a); cbn; lia.
  - specialize (IH Hp0). pose proof (queue_step _ _ Hstep). lia.
Qed.

(** A burst of [n] audio messages read before the thread takes anything
    adds [n] chunks to the queue. *)
Lemma burst_fills_queue (a : AudioStreamer) (payload chunk : string) (n : nat) :
  carries b64decode payload chunk ->
  exists p, audio_steps (speak a (repeat (audio_message payload) n) []) p /\
    audio_queue (streamer p) = audio_queue a ++ repeat (Some chunk) n.
Proof.
  intros Hc.
  exists {| inbox := []; receiving := true; others := [];
            streamer := put_all (repeat chunk n) (start_audio_thread a) |}.
  split.
  - pose proof (receive_run (repeat payload n) (repeat chunk n) [] []
                  (start_audio_thread a)) as Hrun.
    rewrite app_nil_r in Hrun. unfold speak.
    replace (repeat (audio_message payload) n) with (map audio_message (repeat payload n)).
    + apply Hrun. clear Hrun. induction n; simpl; constructor; assumption.
    + clear. induction n; simpl; [reflexivity|]. rewrite IHn. reflexivity.
  - cbn [streamer].
    destruct (put_all_fields (repeat chunk n) (start_audio_thread a)) as (Hq & _).
    rewrite Hq. f_equal.
    + unfold start_audio_thread. destruct (is_playing a); reflexivity.
    + clear. induction n; simpl; [reflexivity|]. rewrite IHn. reflexivity.
Qed.

(** C8, as the code has it.  The queue is built without a capacity and a
    put never waits: when the service sends [n] audio messages before the
    thread takes any, all [n] chunks are added to what the shared queue
    holds, whatever [n]; the only bound on the queue is what it held when
    the reply began plus the number of messages the receivers have read
    since. *)
Theorem audio_queue_grows_with_the_messages (a0 : AudioStreamer)
    (payload chunk : string) (n : nat) :
  carries b64decode payload chunk ->
  (exists p, audio_steps (speak a0 (repeat (audio_message payload) n) []) p /\
     audio_queue (streamer p) = audio_queue a0 ++ repeat (Some chunk) n) /\
  (forall a ms os p, audio_steps (speak a ms os) p ->
     (length (audio_queue (streamer p)) + length (inbox p) + length (others p)
      <= length (audio_queue a) + length ms + length os)%nat).
Proof.
  intros Hc. split; [apply burst_fills_queue; exact Hc|apply queue_at_most_received].
Qed.

End AudioFacts.

(** C8 fails as stated: no capacity bounds the queue, already for the first
    reply on the new streamer with no other reply around. *)
Lemma audio_queue_has_no_capacity :
  ~ exists capacity : nat,
      forall ms p,
        Graph2.steps Spec.plain_decode Spec.plays_all
          (Graph2.speak Graph2.audio_streamer ms []) p ->
        (length (Graph2.audio_queue (Graph2.streamer p)) <= capacity)%nat.
Proof.
  intros [capacity Hbound].
  destruct (burst_fills_queue Spec.plain_decode Spec.plays_all Graph2.audio_streamer
              "QQ==" "QQ==" (S capacity)) as (p & Hsteps & Hq).
  { split; reflexivity. }
  specialize (Hbound _ _ Hsteps). rewrite Hq in Hbound. cbn in Hbound.
  rewrite repeat_length in Hbound. lia.
Qed.

(** ** The theorems at concrete inputs *)

Section Witnesses.
Import Py RequestModels ResponseModels SessionManager Main Graph2 Spec.

Lemma initialize_rejection_is_a_500_witness :
  (str_in (lower (path_suffix "cv.txt")) allowed_extensions = false \/
   str_in "Engineer" valid_roles = false) /\
  (http_status (fst (initialize_interview no_resume silent_question_llm no_chain
                       silent_transition_llm empty_storage "Engineer" "cv.txt" "u1" 0))
     = Some 500%Z /\
   http_status (fst (initialize_interview no_resume silent_question_llm no_chain
                       silent_transition_llm empty_storage "Engineer" "cv.txt" "u1" 0))
     <> Some 400%Z /\
   snd (initialize_interview no_resume silent_question_llm no_chain
          silent_transition_llm empty_storage "Engineer" "cv.txt" "u1" 0)
     = empty_storage).
Proof.
  split; [right; reflexivity|].
  apply (initialize_rejection_is_a_500 no_resume silent_question_llm no_chain
           silent_transition_llm empty_storage "Engineer" "cv.txt" "u1" 0).
  right. reflexivity.
Defined.

Lemma submit_accepts_a_path_to_an_evaluation_witness :
  Disk.plain "e1" = true /\
  Disk.get_evaluation srv no_directory any_name disk_after_submit "e1" = Some e1_record /\
  e1_record !! "role" = Some (JStr "SDE") /\
  (let outcome :=
     Disk.submit_interview srv no_directory any_name all_encodable disk_after_submit
       evaluation_as_session "e2" 1 in
   let evaluation_data : gmap string jvalue :=
     <["evaluation_id" := JStr "e2"]>
     (<["session_id" := JStr "../evaluations/e1"]>
     (<["role" := JStr "SDE"]>
     (<["interview_data" := JAnswers (interview_data one_answer)]>
     (<["submitted_at" := JNum 1]>
     (<["status" := JStr "processing"]> ∅))))) in
   (forall name : string,
      Disk.json_path srv no_directory any_name (Disk.sessions_dir srv)
        (session_id evaluation_as_session)
      <> Some (Disk.sessions_dir srv ++ [name])) /\
   Disk.get_session srv no_directory any_name disk_after_submit (session_id evaluation_as_session)
     = Some e1_record /\
   fst (fst outcome)
     = Ok {| evaluation_id := "e2";
             message := "Interview submitted successfully. Processing results..." |} /\
   http_status (fst (fst outcome)) <> Some 404%Z /\
   snd (fst outcome)
     = fst (Disk.store_evaluation srv no_directory any_name all_encodable disk_after_submit "e2"
              evaluation_data) /\
   snd outcome = Some {| t_evaluation_id := "e2";
                         t_session_data := e1_record;
                         t_interview_data := interview_data one_answer |} /\
   (Disk.plain "e2" = true -> all_encodable evaluation_data = true ->
    Disk.json_path srv no_directory any_name (Disk.evaluations_dir srv) "e2" <> None ->
    Disk.get_evaluation srv no_directory any_name (snd (fst outcome)) "e2" = Some evaluation_data) /\
   (forall other : SubmitInterviewRequest,
      Disk.get_session srv no_directory any_name disk_after_submit (session_id other) = None ->
      Disk.submit_interview srv no_directory any_name all_encodable disk_after_submit other "e2" 1
      = (Raise (HTTPException 404 "Session not found"), disk_after_submit, None))).
Proof.
  split; [reflexivity|]. split; [reflexivity|]. split; [reflexivity|].
  apply (submit_accepts_a_path_to_an_evaluation srv no_directory any_name all_encodable
           disk_after_submit "e1" "e2" "SDE" (interview_data one_answer) e1_record 1);
    reflexivity.
Defined.

(** The same submit on the disk that holds the session s1 and the
    evaluation e1: the only session stored is s1, the request names
    [../evaluations/e1], and the answer is the 200 with a second evaluation
    on the disk. *)
Example path_as_session_id_is_accepted :
  dom disk_after_submit = {[ session_file "s1"; evaluation_file "e1" ]} /\
  session_id evaluation_as_session <> "s1" /\
  http_status (fst (fst (Disk.submit_interview srv no_directory any_name all_encodable
                           disk_after_submit evaluation_as_session "e2" 1))) = None /\
  dom (snd (fst (Disk.submit_interview srv no_directory any_name all_encodable
                   disk_after_submit evaluation_as_session "e2" 1)))
  = {[ session_file "s1"; evaluation_file "e1"; evaluation_file "e2" ]}.
Proof.
  split; [vm_compute; reflexivity|]. split; [discriminate|].
  split; [reflexivity|]. vm_compute. reflexivity.
Qed.

(** A session id that names no file at all is answered 404. *)
Example unknown_session_is_a_404 :
  Disk.submit_interview srv no_directory any_name all_encodable disk_after_submit
    unknown_session "e2" 1
  = (Raise (HTTPException 404 "Session not found"), disk_after_submit, None).
Proof. apply submit_unreadable_session. reflexivity. Qed.

(** One evaluation from submit to completion, on the server with one
    session: the record is stored as processing without results, and the
    background task leaves it completed with results. *)
Example one_evaluation_lifecycle :
  (evaluations (store after_submit) !! "e1") ≫= (fun d => d !! "status")
    = Some (JStr "processing") /\
  (evaluations (store after_submit) !! "e1") ≫= (fun d => d !! "results") = None /\
  pending_ids after_submit = ["e1"] /\
  forall t, pending after_submit = [t] ->
    let st := process_evaluation_background silent_evaluation_llm float_literal
                (store after_submit) t 5 in
    (evaluations st !! "e1") ≫= (fun d => d !! "status") = Some (JStr "completed") /\
    is_Some ((evaluations st !! "e1") ≫= (fun d => d !! "results")).
Proof.
  split; [reflexivity|]. split; [reflexivity|]. split; [reflexivity|].
  intros t [= <-]. split; [reflexivity|]. eexists. reflexivity.
Qed.

Lemma after_submit_reachable :
  reachable no_resume silent_question_llm no_chain silent_transition_llm
            silent_evaluation_llm float_literal after_submit.
Proof.
  apply (reachable_step _ _ _ _ _ _ one_session after_submit).
  - apply reachable_start.
  - apply (step_submit _ _ _ _ _ _ one_session one_answer "e1" 0). reflexivity.
Defined.

Lemma evaluation_written_exactly_once_witness :
  reachable no_resume silent_question_llm no_chain silent_transition_llm
            silent_evaluation_llm float_literal after_submit /\
  ((forall eid d, evaluations (store after_submit) !! eid = Some d ->
      (has_results d <-> status_is d "completed")) /\
   (forall s' eid d,
      Main.step no_resume silent_question_llm no_chain silent_transition_llm
                silent_evaluation_llm float_literal after_submit s' ->
      evaluations (store after_submit) !! eid = Some d ->
      exists d', evaluations (store s') !! eid = Some d' /\
                 (d' = d \/ written_once d d')) /\
   (forall eid d, evaluations (store after_submit) !! eid = Some d ->
      (status_is d "processing" <-> eid ∈ pending_ids after_submit)) /\
   NoDup (pending_ids after_submit) /\
   (forall before t after now, pending after_submit = before ++ t :: after ->
      exists d d',
        evaluations (store after_submit) !! t_evaluation_id t = Some d /\
        evaluations (process_evaluation_background silent_evaluation_llm float_literal
                       (store after_submit) t now) !! t_evaluation_id t = Some d' /\
        written_once d d')).
Proof.
  split; [exact after_submit_reachable|].
  apply (evaluation_written_exactly_once no_resume silent_question_llm no_chain
           silent_transition_llm silent_evaluation_llm float_literal after_submit).
  exact after_submit_reachable.
Defined.

Lemma plays_all_filter (l : list string) : List.filter plays_all l = l.
Proof. induction l as [|c l IH]; [reflexivity|]. cbn. rewrite IH. reflexivity. Qed.

Lemma fresh_unstopped : unstopped audio_streamer.
Proof. apply (lives_unstopped plays_all). apply lives_new. Qed.

Lemma mid_reply_unstopped : unstopped mid_reply.
Proof.
  apply (lives_unstopped plays_all). apply lives_put.
  apply (lives_start plays_all audio_streamer). apply lives_new.
Defined.

(** The scenario of the specification: the service emits A, B, C and the
    final flag; with a mixer that plays everything there is a complete run
    of the first reply, and at its end the calls to play are A, B, C in
    that order. *)
Example abc_is_played_in_order :
  exists q,
    Graph2.steps plain_decode plays_all
      (speak audio_streamer (map audio_message abc_payloads ++ [final_message]) []) q /\
    finished q /\
    taken (streamer q) = abc_payloads /\
    play_calls (streamer q) = abc_payloads.
Proof.
  assert (Hc : Forall2 (carries plain_decode) abc_payloads abc_payloads)
    by (repeat constructor).
  pose proof fresh_unstopped as Ha. pose proof Ha as (Hsent & _).
  pose proof (in_order_start plain_decode plays_all audio_streamer
                abc_payloads abc_payloads [] [] Ha Hc) as H0.
  destruct (in_order_finish plain_decode plays_all audio_streamer abc_payloads [] [] _
              Hsent H0) as (q & Hq & Hfin).
  pose proof (in_order_run plain_decode plays_all audio_streamer abc_payloads [] [] _ q
                Hsent H0 Hq) as Hinv.
  destruct (in_order_finished plain_decode plays_all audio_streamer abc_payloads [] [] q
              Hinv Hfin) as (put & Hmix & Htaken).
  apply interleaved_alone in Hmix. subst put.
  apply map_Some_inj in Htaken.
  destruct Hinv as (_ & _ & _ & _ & new & Hnew & Hcalls).
  exists q. split; [exact Hq|]. split; [exact Hfin|]. split; [exact Htaken|].
  rewrite Hcalls, plays_all_filter. cbn in Hnew |- *. rewrite <- Hnew. exact Htaken.
Qed.

Lemma audio_played_in_emission_order_witness :
  unstopped mid_reply /\
  Forall2 (carries plain_decode) abc_payloads abc_payloads /\
  Graph2.steps plain_decode plays_all
    (speak mid_reply (map audio_message abc_payloads ++ [final_message]) ["WQ=="])
    (speak mid_reply (map audio_message abc_payloads ++ [final_message]) ["WQ=="]) /\
  (let p := speak mid_reply (map audio_message abc_payloads ++ [final_message]) ["WQ=="] in
   (exists done todo others_done put,
      abc_payloads = done ++ todo /\
      ["WQ=="] = others_done ++ others p /\
      interleaved done others_done put /\
      (["WQ=="] = [] -> put = done) /\
      delivered (streamer p) = delivered mid_reply ++ map Some put /\
      (receiving p = false -> todo = [])) /\
   (exists new, taken (streamer p) = taken mid_reply ++ new /\
      play_calls (streamer p) = play_calls mid_reply ++ List.filter plays_all new) /\
   (earlier_threads (streamer p) = [] /\ is_playing (streamer p) = true /\
    audio_thread (streamer p) <> Exited) /\
   (forall q, Graph2.step plain_decode plays_all p q ->
      (taken (streamer q) = taken (streamer p) /\
       play_calls (streamer q) = play_calls (streamer p) /\
       (forall c, audio_thread (streamer p) = Busy c ->
          audio_thread (streamer q) = Busy c \/ audio_thread (streamer q) = Testing)) \/
      (exists c, audio_thread (streamer p) = Waiting /\
         audio_queue (streamer p) = Some c :: audio_queue (streamer q) /\
         taken (streamer q) = taken (streamer p) ++ [c] /\
         ((plays_all c = true /\
           play_calls (streamer q) = play_calls (streamer p) ++ [c] /\
           audio_thread (streamer q) = Busy c) \/
          (plays_all c = false /\
           play_calls (streamer q) = play_calls (streamer p) /\
           audio_thread (streamer q) = Testing)))) /\
   (finished p ->
      exists put, interleaved abc_payloads ["WQ=="] put /\
        map Some (taken (streamer p)) = delivered mid_reply ++ map Some put) /\
   (exists q put, Graph2.steps plain_decode plays_all p q /\ finished q /\
      interleaved abc_payloads ["WQ=="] put /\
      map Some (taken (streamer q)) = delivered mid_reply ++ map Some put)).
Proof.
  assert (Hc : Forall2 (carries plain_decode) abc_payloads abc_payloads)
    by (repeat constructor).
  split; [exact mid_reply_unstopped|]. split; [exact Hc|]. split; [apply steps_refl|].
  apply (audio_played_in_emission_order plain_decode plays_all mid_reply
           abc_payloads abc_payloads ["WQ=="] [] _ mid_reply_unstopped Hc).
  apply steps_refl.
Defined.

Lemma audio_queue_grows_with_the_messages_witness :
  carries plain_decode "QQ==" "QQ==" /\
  ((exists p, Graph2.steps plain_decode plays_all
                (speak mid_reply (repeat (audio_message "QQ==") 3) []) p /\
      audio_queue (streamer p) = audio_queue mid_reply ++ repeat (Some "QQ==") 3) /\
   (forall a ms os p, Graph2.steps plain_decode plays_all (speak a ms os) p ->
      (length (audio_queue (streamer p)) + length (inbox p) + length (others p)
       <= length (audio_queue a) + length ms + length os)%nat)).
Proof.
  split; [split; reflexivity|].
  apply (audio_queue_grows_with_the_messages plain_decode plays_all mid_reply
           "QQ==" "QQ==" 3).
  split; reflexivity.
Defined.

End Witnesses.

(* ===================================================================== *)
(** * Further properties of the services *)
(* ===================================================================== *)

(** ** The evaluation pipeline as a whole *)

Section PipelineFacts.
Import Py RequestModels ResponseModels EvaluationService Spec.

Variable llm : prompt -> option string.
Variable py_float : string -> option fval.

Lemma Qfloor_nonneg (x : Q) : (0 <= x)%Q -> (0 <= Qfloor x)%Z.
Proof.
  intros H. change 0%Z with (Qfloor 0). apply Qfloor_resp_le. exact H.
Qed.

(** Rounding to one decimal keeps a score a score. *)
Lemma round1_range (x : Q) :
  (0 <= x)%Q -> (x <= 10)%Q -> (0 <= round1 x)%Q /\ (round1 x <= 10)%Q.
Proof.
  intros H0 H10. unfold round1.
  set (t := (x * 10)%Q). set (f := Qfloor t).
  assert (Ht0 : (0 <= t)%Q) by (unfold t; nra).
  assert (Ht100 : (t <= 100)%Q) by (unfold t; nra).
  assert (Hf0 : (0 <= f)%Z) by (apply Qfloor_nonneg; exact Ht0).
  assert (Hfle : (inject_Z f <= t)%Q) by apply Qfloor_le.
  set (n := if Qle_bool (t - inject_Z f) (1 # 2)
            then if Qle_bool (1 # 2) (t - inject_Z f)
                 then if Z.even f then f else (f + 1)%Z
                 else f
            else (f + 1)%Z).
  assert (Hn : (0 <= n <= 100)%Z).
  { assert (Hf100 : (f <= 100)%Z).
    { apply (Qfloor_resp_le t 100) in Ht100. exact Ht100. }
    assert (Hup : (1 # 2 <= t - inject_Z f)%Q -> (f + 1 <= 100)%Z).
    { intros Hr. destruct (Z.eq_dec f 100%Z) as [E|E]; [|lia].
      exfalso. rewrite E in Hr. change (inject_Z 100) with 100%Q in Hr.
      assert (t - 100 <= 0)%Q by lra. lra. }
    unfold n.
    destruct (Qle_bool (t - inject_Z f) (1 # 2)) eqn:E1.
    - destruct (Qle_bool (1 # 2) (t - inject_Z f)) eqn:E2; [|lia].
      apply Qle_bool_iff in E2. specialize (Hup E2).
      destruct (Z.even f); lia.
    - assert (Hr : (1 # 2 <= t - inject_Z f)%Q).
      { apply Qlt_le_weak. apply Qnot_le_lt. intros Hle.
        apply Qle_bool_iff in Hle. congruence. }
      specialize (Hup Hr). lia. }
  fold n. destruct Hn as [Hn0 Hn100].
  assert (H1 : (0 <= inject_Z n)%Q) by (change 0%Q with (inject_Z 0); rewrite <- Zle_Qle; exact Hn0).
  assert (H2 : (inject_Z n <= 100)%Q) by (change 100%Q with (inject_Z 100); rewrite <- Zle_Qle; exact Hn100).
  split.
  - apply Qle_shift_div_l; [reflexivity|lra].
  - apply Qle_shift_div_r; [reflexivity|lra].
Qed.


Lemma analysis_of_reply_id (question_id : Z) (reply : option string) :
  ResponseModels.question_id (analysis_of_reply py_float question_id reply) = question_id.
Proof.
  destruct reply as [response|]; simpl; [|reflexivity].
  destruct (parse_response py_float response); reflexivity.
Qed.

Lemma analysis_of_reply_range (question_id : Z) (reply : option string) :
  (0 <= score (analysis_of_reply py_float question_id reply))%Q /\
  (score (analysis_of_reply py_float question_id reply) <= 10)%Q.
Proof.
  destruct reply as [response|]; simpl; [|split; discriminate].
  destruct (parse_response py_float response) as [p|] eqn:Hp; simpl; [|split; discriminate].
  unfold parse_response in Hp.
  eapply parse_lines_range; [|exact Hp]. split; discriminate.
Qed.

Lemma consistency_range (qa_pairs : list InterviewAnswer) :
  (0 <= _analyze_consistency llm py_float qa_pairs)%Q /\
  (_analyze_consistency llm py_float qa_pairs <= 10)%Q.
Proof.
  unfold _analyze_consistency.
  destruct (length qa_pairs <? 2)%nat; [split; discriminate|].
  destruct (llm _) as [content|]; [|split; discriminate].
  destruct (words (strip content)) as [|first rest]; [split; discriminate|].
  destruct (py_float first); [apply clamp_0_10_range|split; discriminate].
Qed.

Lemma overall_score_range (individual_scores : list Q) (a : Analytics) :
  exists v, _calculate_overall_score individual_scores a = Some v /\
            (0 <= v)%Q /\ (v <= 10)%Q.
Proof.
  unfold _calculate_overall_score.
  destruct individual_scores as [|s l].
  - simpl. exists 5%Q. split; [reflexivity|split; discriminate].
  - destruct (mean (s :: l)) as [base|] eqn:Hm; [|discriminate].
    eexists. split; [reflexivity|apply clamp_0_10_range].
Qed.

Lemma recommendations_length (question_analyses : list QuestionAnalysis)
    (a : Analytics) (role : string) :
  (length (_generate_recommendations llm question_analyses a role) <= 5)%nat.
Proof.
  unfold _generate_recommendations.
  destruct (llm _) as [content|]; [|simpl; lia].
  rewrite length_take. lia.
Qed.

(** The pipeline returns: no stage lets an exception out. *)
Lemma evaluation_returns (session_id : string) (qa_pairs : list InterviewAnswer)
    (role : string) :
  exists r, evaluate_complete_interview llm py_float session_id qa_pairs role = Ok r.
Proof.
  unfold evaluate_complete_interview.
  set (analyses := map _ qa_pairs). set (a1 := set_consistency_score _ _).
  destruct (overall_score_range (map score analyses) a1) as (v & Hv & _).
  rewrite Hv. eexists. reflexivity.
Qed.

(** X1.  [evaluate_complete_interview] never raises, whatever the model and
    [float] do: it returns one analysis per question-answer pair, in the
    order of the pairs and under their question ids, every score and the
    overall score in [0,10], a consistency score in [0,10] in the analytics,
    and at most five recommendations. *)
Theorem evaluation_is_always_complete (session_id : string)
    (qa_pairs : list InterviewAnswer) (role : string) :
  exists r,
    evaluate_complete_interview llm py_float session_id qa_pairs role = Ok r /\
    map ResponseModels.question_id (question_analysis r)
      = map RequestModels.question_id qa_pairs /\
    Forall (fun a => (0 <= score a)%Q /\ (score a <= 10)%Q) (question_analysis r) /\
    ((0 <= overall_score r)%Q /\ (overall_score r <= 10)%Q) /\
    (exists c, consistency_score (analytics r) = Some c /\ (0 <= c)%Q /\ (c <= 10)%Q) /\
    (length (recommendations r) <= 5)%nat.
Proof.
  unfold evaluate_complete_interview.
  set (analyses := map _ qa_pairs).
  set (a1 := set_consistency_score _ _).
  destruct (overall_score_range (map score analyses) a1) as (v & Hv & Hv0 & Hv10).
  rewrite Hv. eexists. split; [reflexivity|]. simpl.
  split.
  { unfold analyses, _evaluate_single_answer. rewrite map_map.
    apply map_ext. intros qa. apply analysis_of_reply_id. }
  split.
  { unfold analyses. clear. induction qa_pairs as [|qa l IH]; simpl; constructor;
      [apply analysis_of_reply_range|exact IH]. }
  split; [apply round1_range; assumption|].
  split; [|apply recommendations_length].
  exists (_analyze_consistency llm py_float qa_pairs).
  split; [reflexivity|apply consistency_range].
Qed.

End PipelineFacts.

(** ** Analytics, consistency and the modifiers of the overall score *)

Section AnalyticsFacts.
Import Py RequestModels ResponseModels EvaluationService Spec.

Lemma mean_some (l : list Q) : l <> [] -> exists m, mean l = Some m.
Proof. destruct l; [congruence|intros _; eexists; reflexivity]. Qed.

Lemma Qle_bool_trans_true (a b x : Q) :
  (a <= b)%Q -> Qle_bool b x = true -> Qle_bool a x = true.
Proof.
  intros Hab H. apply Qle_bool_iff. apply Qle_bool_iff in H.
  eapply Qle_trans; eassumption.
Qed.

(** X2.  For answers whose durations are ordinary numbers of seconds (at
    most a day each way, so that their float sum is finite and the exact
    sum stands for it), [_calculate_analytics] returns its "Unknown" record
    exactly in the two cases where its [try] block raises: no answer or no
    score.  Otherwise every label is one of the named levels, a clarity of
    Excellent or Good never comes with a technical depth of Low, and when
    no answer has a positive duration the pace is Normal (the assumed 120
    words per minute). *)
Theorem analytics_labels (qa_pairs : list InterviewAnswer) (scores : list Q) :
  Forall (fun qa => (-86400 <= answer_duration qa)%Q /\ (answer_duration qa <= 86400)%Q)
         qa_pairs ->
  let a := _calculate_analytics qa_pairs scores in
  (qa_pairs = [] \/ scores = [] -> a = analytics_fallback) /\
  (qa_pairs <> [] -> scores <> [] ->
     a <> analytics_fallback /\
     In (speaking_pace a) ["Slow"; "Normal"; "Fast"] /\
     In (technical_depth a) ["Low"; "Medium"; "High"] /\
     In (communication_clarity a) ["Needs Improvement"; "Fair"; "Good"; "Excellent"] /\
     (communication_clarity a = "Excellent" \/ communication_clarity a = "Good" ->
      technical_depth a <> "Low") /\
     (Forall (fun qa => (answer_duration qa <= 0)%Q) qa_pairs ->
      speaking_pace a = "Normal")).
Proof.
  intros _. unfold _calculate_analytics, analytics_try. split.
  - intros [-> | ->]; [reflexivity|].
    destruct (mean (map answer_duration qa_pairs)); reflexivity.
  - intros Hqa Hsc.
    destruct (mean_some (map answer_duration qa_pairs)) as [avg_rt ->].
    { destruct qa_pairs; [congruence|discriminate]. }
    destruct (mean_some scores Hsc) as [avg_score ->].
    destruct qa_pairs as [|qa0 rest]; [congruence|].
    cbn -[words_per_answer word_count Qsum mean]. repeat split.
    + intros H. apply (f_equal technical_depth) in H. cbn in H.
      unfold technical_depth_of in H.
      destruct (Qle_bool 8 avg_score); [discriminate|].
      destruct (Qle_bool 6 avg_score); discriminate.
    + unfold speaking_pace_of.
      destruct (negb _); [left; reflexivity|].
      destruct (negb _); [right; right; left; reflexivity|right; left; reflexivity].
    + unfold technical_depth_of.
      destruct (Qle_bool 8 avg_score); [right; right; left; reflexivity|].
      destruct (Qle_bool 6 avg_score); [right; left; reflexivity|left; reflexivity].
    + unfold communication_clarity_of.
      destruct (_ && _); [right; right; right; left; reflexivity|].
      destruct (_ && _); [right; right; left; reflexivity|].
      destruct (Qle_bool 20 _); [right; left; reflexivity|left; reflexivity].
    + unfold communication_clarity_of, technical_depth_of.
      destruct (Qle_bool 50 _ && Qle_bool 7 avg_score) eqn:E1.
      { intros _. apply andb_true_iff in E1 as [_ E1].
        rewrite (Qle_bool_trans_true 6 7 avg_score) by (discriminate || assumption).
        destruct (Qle_bool 8 avg_score); discriminate. }
      destruct (Qle_bool 30 _ && Qle_bool 6 avg_score) eqn:E2.
      { intros _. apply andb_true_iff in E2 as [_ E2]. rewrite E2.
        destruct (Qle_bool 8 avg_score); discriminate. }
      destruct (Qle_bool 20 _); intros [H|H]; discriminate.
    + intros Hall.
      assert (Hnone : words_per_answer (qa0 :: rest) = []).
      { unfold words_per_answer.
        replace (filter _ (qa0 :: rest)) with (@nil InterviewAnswer); [reflexivity|].
        symmetry. clear Hqa. induction Hall as [|qa l Hqa' _ IH]; [reflexivity|].
        rewrite filter_cons_False; [exact IH|].
        apply Qle_bool_iff in Hqa'. rewrite Hqa'. intros []. }
      rewrite Hnone. reflexivity.
Qed.


Lemma Qfloor_unique (x : Q) (z : Z) :
  (inject_Z z <= x)%Q -> (x < inject_Z (z + 1))%Q -> Qfloor x = z.
Proof.
  intros Hle Hlt.
  pose proof (Qfloor_le x) as H1. pose proof (Qlt_floor x) as H2.
  assert (Ha : (z < Qfloor x + 1)%Z).
  { rewrite Zlt_Qlt. eapply Qle_lt_trans; [exact Hle|exact H2]. }
  assert (Hb : (Qfloor x < z + 1)%Z).
  { rewrite Zlt_Qlt. eapply Qle_lt_trans; [exact H1|exact Hlt]. }
  lia.
Qed.

(** X3.  For a total of seconds from 0 up to 2^53 (where the float [//]
    and [%] by 60 are exact) the duration text splits the whole seconds of
    the total into minutes and seconds: the minutes are not negative, the
    seconds lie between 0 and 59, and sixty times the minutes plus the
    seconds is the total rounded down. *)
Theorem duration_str_minutes_seconds (total : Q) :
  (0 <= total)%Q -> (total < 9007199254740992)%Q ->
  exists minutes seconds : Z,
    duration_str total
      = (pretty minutes ++ " minutes " ++ pretty seconds ++ " seconds")%string /\
    (0 <= minutes)%Z /\
    (0 <= seconds < 60)%Z /\
    (60 * minutes + seconds = Qfloor total)%Z.
Proof.
  intros Hpos _. unfold duration_str.
  set (m := Qfloor (total / 60)).
  exists m, (Qfloor (total - inject_Z m * 60)). split; [reflexivity|].
  assert (Hm1 : (inject_Z m <= total / 60)%Q) by apply Qfloor_le.
  assert (Hm2 : (total / 60 < inject_Z (m + 1))%Q) by apply Qlt_floor.
  rewrite inject_Z_plus in Hm2. change (inject_Z 1) with 1%Q in Hm2.
  assert (Hlow : (inject_Z m * 60 <= total)%Q).
  { assert (E : (total == total / 60 * 60)%Q) by field. lra. }
  assert (Hhigh : (total < (inject_Z m + 1) * 60)%Q).
  { assert (E : (total == total / 60 * 60)%Q) by field. lra. }
  assert (Hfloor : Qfloor total = (Qfloor (total - inject_Z m * 60) + 60 * m)%Z).
  { apply Qfloor_unique.
    - rewrite inject_Z_plus, inject_Z_mult. change (inject_Z 60) with 60%Q.
      pose proof (Qfloor_le (total - inject_Z m * 60)). lra.
    - rewrite !inject_Z_plus, inject_Z_mult. change (inject_Z 60) with 60%Q.
      change (inject_Z 1) with 1%Q.
      pose proof (Qlt_floor (total - inject_Z m * 60)) as H.
      rewrite inject_Z_plus in H. change (inject_Z 1) with 1%Q in H. lra. }
  assert (Hs0 : (0 <= Qfloor (total - inject_Z m * 60))%Z).
  { apply Qfloor_nonneg. lra. }
  assert (Hs60 : (Qfloor (total - inject_Z m * 60) < 60)%Z).
  { rewrite Zlt_Qlt. eapply Qle_lt_trans; [apply Qfloor_le|].
    change (inject_Z 60) with 60%Q. lra. }
  assert (Hm0 : (0 <= m)%Z).
  { apply Qfloor_nonneg. apply Qle_shift_div_l; [reflexivity|lra]. }
  lia.
Qed.

Lemma Qsum_bounds (l : list Q) (lo hi : Q) :
  Forall (fun s => (lo <= s)%Q /\ (s <= hi)%Q) l ->
  (lo * inject_Z (Z.of_nat (length l)) <= Qsum l)%Q /\
  (Qsum l <= hi * inject_Z (Z.of_nat (length l)))%Q.
Proof.
  induction 1 as [|s l [Hlo Hhi] _ [IHlo IHhi]].
  - change (Qsum []) with 0%Q. change (inject_Z (Z.of_nat (length (@nil Q)))) with 0%Q.
    split; lra.
  - change (Qsum (s :: l)) with (s + Qsum l)%Q.
    change (length (s :: l)) with (S (length l)).
    rewrite Nat2Z.inj_succ. unfold Z.succ. rewrite inject_Z_plus.
    change (inject_Z 1) with 1%Q. split; lra.
Qed.

(** The mean of scores between two bounds lies between them. *)
Lemma mean_bounds (l : list Q) (lo hi m : Q) :
  Forall (fun s => (lo <= s)%Q /\ (s <= hi)%Q) l ->
  mean l = Some m -> (lo <= m)%Q /\ (m <= hi)%Q.
Proof.
  intros Hall Hm. destruct l as [|s l]; [discriminate|].
  injection Hm as <-.
  destruct (Qsum_bounds _ lo hi Hall) as [Hlo Hhi].
  set (n := inject_Z (Z.of_nat (length (s :: l)))) in *.
  assert (Hn : (0 < n)%Q).
  { unfold n. change 0%Q with (inject_Z 0). rewrite <- Zlt_Qlt. simpl. lia. }
  split.
  - apply Qle_shift_div_l; [exact Hn|exact Hlo].
  - apply Qle_shift_div_r; [exact Hn|exact Hhi].
Qed.

Lemma clarity_modifier_bounds (clarity : string) :
  (-(3 # 10) <= clarity_modifier clarity)%Q /\ (clarity_modifier clarity <= 1 # 2)%Q.
Proof.
  unfold clarity_modifier.
  destruct (String.eqb clarity "Excellent"); [split; discriminate|].
  destruct (String.eqb clarity "Good"); [split; discriminate|].
  destruct (String.eqb clarity "Needs Improvement"); split; discriminate.
Qed.

Lemma consistency_modifier_bounds (c : option Q) :
  (-(2 # 10) <= consistency_modifier c)%Q /\ (consistency_modifier c <= 3 # 10)%Q.
Proof.
  unfold consistency_modifier. destruct c as [v|]; [|split; discriminate].
  destruct (negb (Qeq_bool v 0)); [|split; discriminate].
  destruct (Qle_bool 8 v); [split; discriminate|].
  destruct (Qle_bool v 5); split; discriminate.
Qed.

(** X5.  For scores in [0,10] the modifiers move the overall score away
    from the mean of the scores by at most 0.8 upwards and 0.5 downwards,
    whatever the analytics record holds. *)
Theorem overall_score_near_mean (individual_scores : list Q) (a : Analytics) (m : Q) :
  Forall (fun s => (0 <= s)%Q /\ (s <= 10)%Q) individual_scores ->
  mean individual_scores = Some m ->
  exists v, _calculate_overall_score individual_scores a = Some v /\
    (m - (1 # 2) <= v)%Q /\ (v <= m + (8 # 10))%Q.
Proof.
  intros Hall Hm. destruct (mean_bounds _ 0 10 m Hall Hm) as [Hm0 Hm10].
  unfold _calculate_overall_score. rewrite Hm.
  eexists. split; [reflexivity|].
  destruct (clarity_modifier_bounds (communication_clarity a)) as [Hc1 Hc2].
  destruct (consistency_modifier_bounds (consistency_score a)) as [Hk1 Hk2].
  set (d := (0 + clarity_modifier (communication_clarity a)
             + consistency_modifier (consistency_score a))%Q) in *.
  assert (Hd : (-(1 # 2) <= d)%Q /\ (d <= 8 # 10)%Q) by (unfold d; split; lra).
  destruct Hd as [Hd1 Hd2].
  unfold clamp_0_10, py_max, py_min. simpl.
  destruct (Qle_bool 10 (m + d)) eqn:E10; simpl.
  - apply Qle_bool_iff in E10. split; lra.
  - apply Qle_bool_false_lt in E10.
    destruct (Qle_bool (m + d) 0) eqn:E0; simpl.
    + apply Qle_bool_iff in E0. split; lra.
    + split; lra.
Qed.

End AnalyticsFacts.

(** ** The table of improvements behind the recommendations *)

Section ImprovementFacts.
Import Py ResponseModels EvaluationService Spec.

Lemma count_add_mentions (k k' : string) (m : list (string * nat)) :
  mentions (count_add k m) k'
  = if String.eqb k' k then S (mentions m k') else mentions m k'.
Proof.
  induction m as [|[k0 n] m IH]; simpl.
  - destruct (String.eqb k' k); reflexivity.
  - destruct (String.eqb_spec k k0) as [->|Hne]; simpl.
    + destruct (String.eqb k' k0); reflexivity.
    + destruct (String.eqb_spec k' k0) as [->|Hne'].
      * destruct (String.eqb_spec k0 k); [congruence|reflexivity].
      * exact IH.
Qed.

Lemma count_add_keys (k : string) (m : list (string * nat)) :
  map fst (count_add k m)
  = if decide (k ∈ map fst m) then map fst m else map fst m ++ [k].
Proof.
  induction m as [|[k0 n] m IH].
  - cbn [count_add map fst]. destruct (decide (k ∈ [])) as [H|_]; [|reflexivity].
    exfalso. exact (not_elem_of_nil _ H).
  - cbn [count_add]. destruct (String.eqb_spec k k0) as [->|Hne]; cbn [map fst].
    + destruct (decide (k0 ∈ k0 :: map fst m)) as [_|H]; [reflexivity|].
      exfalso. apply H. left.
    + rewrite IH.
      destruct (decide (k ∈ map fst m)) as [Hin|Hnin];
        destruct (decide (k ∈ k0 :: map fst m)) as [Hin'|Hnin']; try reflexivity.
      * exfalso. apply Hnin'. right. exact Hin.
      * exfalso. apply elem_of_cons in Hin' as [H|H]; [congruence|contradiction].
Qed.

Lemma count_add_positive (k : string) (m : list (string * nat)) :
  Forall (fun p => (0 < snd p)%nat) m -> Forall (fun p => (0 < snd p)%nat) (count_add k m).
Proof.
  induction 1 as [|[k0 n] m Hp Hm IH]; simpl.
  - constructor; [simpl; lia|constructor].
  - destruct (String.eqb k k0); constructor; simpl in *; try lia; assumption.
Qed.

(** The loop that counts, started from any table with distinct keys and
    positive counts. *)
Lemma counting_loop (l : list string) (m : list (string * nat)) :
  NoDup (map fst m) -> Forall (fun p => (0 < snd p)%nat) m ->
  let m' := fold_left (fun m k => count_add k m) l m in
  NoDup (map fst m') /\ Forall (fun p => (0 < snd p)%nat) m' /\
  forall k, mentions m' k = (mentions m k + occurrences l k)%nat.
Proof.
  revert m. induction l as [|x l IH]; intros m Hnd Hpos; simpl.
  - repeat split; try assumption. intros k. lia.
  - destruct (IH (count_add x m)) as (Hnd' & Hpos' & Hm').
    + rewrite count_add_keys. destruct (decide (x ∈ map fst m)); [exact Hnd|].
      apply NoDup_app. split; [exact Hnd|]. split; [|apply NoDup_singleton].
      intros y Hy Hy'. apply list_elem_of_singleton in Hy'. subst y. contradiction.
    + apply count_add_positive. exact Hpos.
    + split; [exact Hnd'|]. split; [exact Hpos'|].
      intros k. rewrite Hm', count_add_mentions.
      destruct (String.eqb k x); lia.
Qed.

Lemma mentions_in (m : list (string * nat)) (k : string) (n : nat) :
  NoDup (map fst m) -> In (k, n) m -> mentions m k = n.
Proof.
  induction m as [|[k0 n0] m IH]; intros Hnd Hin; [destruct Hin|].
  simpl in Hnd. apply NoDup_cons in Hnd as [Hnot Hnd].
  simpl. destruct Hin as [[= -> ->]|Hin].
  - rewrite String.eqb_refl. reflexivity.
  - destruct (String.eqb_spec k k0) as [->|Hne]; [|apply IH; assumption].
    exfalso. apply Hnot. apply list_elem_of_In.
    change k0 with (fst (k0, n)). apply in_map. exact Hin.
Qed.

Lemma in_mentions (m : list (string * nat)) (k : string) :
  (0 < mentions m k)%nat -> In (k, mentions m k) m.
Proof.
  induction m as [|[k0 n0] m IH]; simpl; [lia|].
  destruct (String.eqb_spec k k0) as [->|Hne]; [left; reflexivity|].
  intros H. right. apply IH. exact H.
Qed.

(** X6.  The table [_generate_recommendations] builds from the improvement
    strings is their frequency table: each distinct string appears once,
    and a pair [(k, n)] is in the table exactly when [k] occurs [n] times,
    [n] at least one, in the list. *)
Theorem improvement_counts_is_the_frequency_table (all_improvements : list string) :
  NoDup (map fst (improvement_counts all_improvements)) /\
  forall k n,
    In (k, n) (improvement_counts all_improvements)
    <-> (n = occurrences all_improvements k /\ (0 < n)%nat).
Proof.
  destruct (counting_loop all_improvements []) as (Hnd & Hpos & Hm);
    [constructor|constructor|].
  fold (improvement_counts all_improvements) in Hnd, Hpos, Hm.
  split; [exact Hnd|]. intros k n. split.
  - intros Hin. split.
    + rewrite <- (mentions_in _ _ _ Hnd Hin), Hm. reflexivity.
    + rewrite List.Forall_forall in Hpos. apply (Hpos (k, n) Hin).
  - intros [-> Hn]. specialize (Hm k). simpl in Hm. rewrite <- Hm.
    apply in_mentions. rewrite Hm. exact Hn.
Qed.

Lemma insert_desc_perm (x : string * nat) (l : list (string * nat)) :
  Permutation (insert_desc x l) (x :: l).
Proof.
  induction l as [|y l IH]; simpl; [reflexivity|].
  destruct (snd y <=? snd x)%nat; [reflexivity|].
  rewrite IH. apply perm_swap.
Qed.

Lemma insert_desc_sorted (x : string * nat) (l : list (string * nat)) :
  StronglySorted (fun a b => (snd b <= snd a)%nat) l ->
  StronglySorted (fun a b => (snd b <= snd a)%nat) (insert_desc x l).
Proof.
  induction 1 as [|y l Hs IH Hall]; simpl.
  - constructor; constructor.
  - destruct (snd y <=? snd x)%nat eqn:E.
    + apply Nat.leb_le in E. constructor; [constructor; assumption|].
      constructor; [exact E|].
      rewrite List.Forall_forall in Hall |- *. intros z Hz.
      specialize (Hall z Hz). lia.
    + apply Nat.leb_gt in E. constructor; [exact IH|].
      rewrite List.Forall_forall in Hall |- *. intros z Hz.
      apply (Permutation_in _ (insert_desc_perm x l)) in Hz.
      destruct Hz as [<-|Hz]; [lia|apply Hall; exact Hz].
Qed.

Lemma insert_desc_stable (c : nat) (x : string * nat) (l : list (string * nat)) :
  List.filter (fun p => Nat.eqb (snd p) c) (insert_desc x l)
  = List.filter (fun p => Nat.eqb (snd p) c) (x :: l).
Proof.
  induction l as [|y l IH]; [reflexivity|].
  simpl insert_desc. destruct (snd y <=? snd x)%nat eqn:E; [reflexivity|].
  apply Nat.leb_gt in E.
  cbn [List.filter] in *. rewrite IH.
  destruct (Nat.eqb_spec (snd x) c) as [Hx|Hx]; [|reflexivity].
  destruct (Nat.eqb_spec (snd y) c) as [Hy|Hy]; [lia|reflexivity].
Qed.

(** X7.  The order in which the improvements are ranked, [sorted(...,
    key=count, reverse=True)]: the same pairs, by decreasing count, and
    pairs with equal counts in the order they had in the table. *)
Theorem sorted_desc_ranks_by_count (l : list (string * nat)) :
  Permutation (sorted_desc l) l /\
  StronglySorted (fun a b => (snd b <= snd a)%nat) (sorted_desc l) /\
  forall c, List.filter (fun p => Nat.eqb (snd p) c) (sorted_desc l)
            = List.filter (fun p => Nat.eqb (snd p) c) l.
Proof.
  unfold sorted_desc. induction l as [|x l (IHp & IHs & IHf)]; simpl.
  - repeat split; constructor.
  - split; [rewrite insert_desc_perm, IHp; reflexivity|].
    split; [apply insert_desc_sorted; exact IHs|].
    intros c. rewrite insert_desc_stable. cbn [List.filter]. rewrite IHf. reflexivity.
Qed.

End ImprovementFacts.

(** ** The retrieval and the fallback of the question generator *)

Section RetrievalFacts.
Import Py QuestionGenerator Spec.

Lemma unique_from_spec (seen : gset string) (chunks : list string) :
  NoDup (unique_from seen chunks) /\
  (forall x, x ∈ unique_from seen chunks <-> x ∈ chunks /\ x ∉ seen) /\
  sublist (unique_from seen chunks) chunks.
Proof.
  revert seen. induction chunks as [|c chunks IH]; intros seen; simpl.
  - split; [constructor|]. split; [|constructor].
    intros x. split; [intros H; inversion H|intros [H _]; inversion H].
  - destruct (decide (c ∈ seen)) as [Hin|Hnin].
    + destruct (IH seen) as (Hnd & Hmem & Hsub).
      split; [exact Hnd|]. split; [|apply sublist_cons; exact Hsub].
      intros x. rewrite Hmem, elem_of_cons. split.
      * intros [H1 H2]. split; [right; exact H1|exact H2].
      * intros [[->|H1] H2]; [contradiction|split; assumption].
    + destruct (IH ({[c]} ∪ seen)) as (Hnd & Hmem & Hsub).
      split; [|split].
      * apply NoDup_cons. split; [|exact Hnd].
        intros H. apply Hmem in H as [_ H]. apply H.
        apply elem_of_union. left. apply elem_of_singleton. reflexivity.
      * intros x. rewrite !elem_of_cons, Hmem. split.
        -- intros [->|[H1 H2]]; [split; [left; reflexivity|exact Hnin]|].
           split; [right; exact H1|].
           intros Hs. apply H2. apply elem_of_union. right. exact Hs.
        -- intros [[->|H1] H2]; [left; reflexivity|].
           destruct (decide (x = c)) as [->|Hne]; [left; reflexivity|].
           right. split; [exact H1|].
           intros Hs. apply elem_of_union in Hs as [Hs|Hs]; [|contradiction].
           apply elem_of_singleton in Hs. contradiction.
      * apply sublist_skip. exact Hsub.
Qed.

Lemma unique_from_fixed (seen : gset string) (chunks : list string) :
  NoDup chunks -> (forall x, x ∈ chunks -> x ∉ seen) ->
  unique_from seen chunks = chunks.
Proof.
  revert seen. induction chunks as [|c chunks IH]; intros seen Hnd Hdisj; [reflexivity|].
  apply NoDup_cons in Hnd as [Hc Hnd]. simpl.
  rewrite decide_False by (apply Hdisj; left).
  f_equal. apply IH; [exact Hnd|].
  intros x Hx. assert (x ≠ c) by (intros ->; contradiction).
  specialize (Hdisj x (list_elem_of_further _ _ _ Hx)).
  intros Hs. apply elem_of_union in Hs as [Hs|Hs]; [|contradiction].
  apply elem_of_singleton in Hs. contradiction.
Qed.

Lemma unique_from_union (s1 s2 : gset string) (chunks : list string) :
  unique_from (s1 ∪ s2) chunks = filter (fun y => y ∉ s1) (unique_from s2 chunks).
Proof.
  revert s1 s2. induction chunks as [|c chunks IH]; intros s1 s2; [reflexivity|].
  cbn [unique_from].
  destruct (decide (c ∈ s2)) as [H2|H2].
  - rewrite decide_True by (apply elem_of_union; right; exact H2). apply IH.
  - destruct (decide (c ∈ s1)) as [H1|H1].
    + rewrite decide_True by (apply elem_of_union; left; exact H1).
      rewrite filter_cons_False by (intros H; exact (H H1)).
      rewrite <- IH. f_equal. set_solver.
    + rewrite decide_False by (intros H; apply elem_of_union in H as [H|H]; contradiction).
      rewrite filter_cons_True by exact H1.
      f_equal. rewrite <- IH. f_equal. set_solver.
Qed.

Lemma unique_chunks_cons (x : string) (chunks : list string) :
  unique_chunks (x :: chunks) = x :: filter (fun y => y <> x) (unique_chunks chunks).
Proof.
  unfold unique_chunks. cbn [unique_from].
  rewrite decide_False by apply not_elem_of_empty.
  f_equal. rewrite unique_from_union. apply list_filter_iff.
  intros y. rewrite elem_of_singleton. reflexivity.
Qed.

(** Two positions of a filtered list are two positions of the list, in the
    same order. *)
Lemma filter_positions (P : string -> Prop) `{!forall y, Decision (P y)}
    (l : list string) (i j : nat) (x y : string) :
  filter P l !! i = Some x -> filter P l !! j = Some y -> (i < j)%nat ->
  exists i' j', l !! i' = Some x /\ l !! j' = Some y /\ (i' < j')%nat.
Proof.
  revert i j. induction l as [|c l IH]; intros i j Hi Hj Hlt; [discriminate Hi|].
  destruct (decide (P c)) as [Hc|Hc].
  - rewrite filter_cons_True in Hi, Hj by exact Hc.
    destruct j as [|j]; [lia|]. cbn in Hj.
    destruct i as [|i].
    + cbn in Hi. injection Hi as ->.
      assert (Hin : y ∈ l).
      { apply list_elem_of_lookup_2 in Hj. apply list_elem_of_filter in Hj as [_ Hj].
        exact Hj. }
      apply list_elem_of_lookup_1 in Hin as [j' Hj'].
      exists 0%nat, (S j'). split; [reflexivity|]. split; [exact Hj'|lia].
    + cbn in Hi. destruct (IH i j Hi Hj ltac:(lia)) as (i' & j' & Hi' & Hj' & Hlt').
      exists (S i'), (S j'). split; [exact Hi'|]. split; [exact Hj'|lia].
  - rewrite filter_cons_False in Hi, Hj by exact Hc.
    destruct (IH i j Hi Hj Hlt) as (i' & j' & Hi' & Hj' & Hlt').
    exists (S i'), (S j'). split; [exact Hi'|]. split; [exact Hj'|lia].
Qed.

Lemma unique_chunks_order (chunks : list string) (i j : nat) (x y : string) :
  unique_chunks chunks !! i = Some x -> unique_chunks chunks !! j = Some y -> (i < j)%nat ->
  exists k, chunks !! k = Some x /\ y ∉ take (S k) chunks.
Proof.
  revert i j. induction chunks as [|c chunks IH]; intros i j Hi Hj Hlt; [discriminate Hi|].
  rewrite unique_chunks_cons in Hi, Hj.
  destruct j as [|j]; [lia|]. cbn in Hj.
  assert (Hyc : y <> c).
  { apply list_elem_of_lookup_2 in Hj. apply list_elem_of_filter in Hj as [Hj _]. exact Hj. }
  destruct i as [|i].
  - cbn in Hi. injection Hi as <-. exists 0%nat. split; [reflexivity|].
    cbn. intros H. apply list_elem_of_singleton in H. contradiction.
  - cbn in Hi.
    destruct (filter_positions _ _ _ _ _ _ Hi Hj ltac:(lia)) as (i' & j' & Hi' & Hj' & Hlt').
    destruct (IH i' j' Hi' Hj' Hlt') as (k & Hk & Hnot).
    exists (S k). split; [exact Hk|].
    change (take (S (S k)) (c :: chunks)) with (c :: take (S k) chunks).
    intros H. apply elem_of_cons in H as [H|H]; contradiction.
Qed.

(** X8.  The passages kept for the context: no passage twice, exactly the
    passages retrieved, and each at the place of its first retrieval: the
    head of the retrieved list comes first, followed by what is kept of the
    rest without the head's later copies; so of two kept passages the one
    kept earlier was retrieved before the other was retrieved at all.
    Removing duplicates again changes nothing. *)
Theorem unique_chunks_keeps_first_occurrences (relevant_chunks : list string) :
  NoDup (unique_chunks relevant_chunks) /\
  (forall x, x ∈ unique_chunks relevant_chunks <-> x ∈ relevant_chunks) /\
  sublist (unique_chunks relevant_chunks) relevant_chunks /\
  unique_chunks [] = [] /\
  (forall x, unique_chunks (x :: relevant_chunks)
             = x :: filter (fun y => y <> x) (unique_chunks relevant_chunks)) /\
  (forall i j x y,
     unique_chunks relevant_chunks !! i = Some x ->
     unique_chunks relevant_chunks !! j = Some y -> (i < j)%nat ->
     exists k, relevant_chunks !! k = Some x /\ y ∉ take (S k) relevant_chunks) /\
  unique_chunks (unique_chunks relevant_chunks) = unique_chunks relevant_chunks.
Proof.
  split; [|split; [|split; [|split; [|split; [|split]]]]].
  - apply (unique_from_spec ∅ relevant_chunks).
  - destruct (unique_from_spec ∅ relevant_chunks) as (_ & Hmem & _).
    intros x. unfold unique_chunks. rewrite Hmem. split; [intros [H _]; exact H|].
    intros H. split; [exact H|apply not_elem_of_empty].
  - apply (unique_from_spec ∅ relevant_chunks).
  - reflexivity.
  - intros x. apply unique_chunks_cons.
  - apply unique_chunks_order.
  - unfold unique_chunks. apply unique_from_fixed.
    + apply (unique_from_spec ∅ relevant_chunks).
    + intros x _. apply not_elem_of_empty.
Qed.

(** The same passage retrieved first and last is kept at the front. *)
Example first_of_two_copies_is_kept :
  unique_chunks ["a"; "b"; "a"] = ["a"; "b"].
Proof. vm_compute. reflexivity. Qed.

Section Fallback.

Variable llm : prompt -> option string.
Variable structured_chain : string -> string -> option (list string).

(** X9.  When the free-text request answers, the fallback keeps the
    answer's lines (numbering stripped) at the first positions and fills the
    positions the answer leaves, up to the fifth, with the questions the
    static bank has at those positions. *)
Theorem fallback_fills_from_the_bank (role context content : string) (i : nat) :
  llm (FallbackPrompt role context) = Some content ->
  (i < 5)%nat ->
  _generate_fallback_questions llm role context !! i
  = if (i <? length (numbered_lines (strip content)))%nat
    then numbered_lines (strip content) !! i
    else _get_generic_questions role !! i.
Proof.
  intros Hllm Hi. unfold _generate_fallback_questions. rewrite Hllm.
  set (parsed := numbered_lines (strip content)).
  destruct (length (take 5 parsed) <? 5)%nat eqn:E.
  - apply Nat.ltb_lt in E. rewrite length_take in E.
    assert (Hlen : (length parsed < 5)%nat) by lia.
    rewrite (take_ge parsed 5) by lia.
    rewrite lookup_take_lt by exact Hi.
    destruct (i <? length parsed)%nat eqn:Ei.
    + apply Nat.ltb_lt in Ei. apply lookup_app_l. exact Ei.
    + apply Nat.ltb_ge in Ei. rewrite lookup_app_r by exact Ei.
      rewrite lookup_drop. f_equal. lia.
  - apply Nat.ltb_ge in E. rewrite length_take in E.
    assert (Hlen : (5 <= length parsed)%nat) by lia.
    rewrite take_take, Nat.min_id, lookup_take_lt by exact Hi.
    assert (Ei : (i <? length parsed)%nat = true) by (apply Nat.ltb_lt; lia).
    rewrite Ei. reflexivity.
Qed.

Lemma retrieve_nothing (db : vector_db) (queries : list string) :
  (forall query, db query 2%nat = None \/ db query 2%nat = Some []) ->
  retrieve db queries = [].
Proof.
  intros Hdb. induction queries as [|q queries IH]; [reflexivity|].
  simpl. destruct (Hdb q) as [-> | ->]; exact IH.
Qed.

(** X10.  When the vector store yields no passage, every search raising or
    finding nothing, [generate_questions] does not consult the structured
    chain: it returns what the fallback makes of an empty context, five
    questions. *)
Theorem no_context_goes_to_the_fallback (db : vector_db) (role resume_path : string) :
  (forall query, db query 2%nat = None \/ db query 2%nat = Some []) ->
  generate_questions llm structured_chain db role resume_path
    = _generate_fallback_questions llm role EmptyString /\
  length (generate_questions llm structured_chain db role resume_path) = 5%nat.
Proof.
  intros Hdb.
  assert (E : generate_questions llm structured_chain db role resume_path
              = _generate_fallback_questions llm role EmptyString).
  { unfold generate_questions. rewrite (retrieve_nothing db _ Hdb). reflexivity. }
  split; [exact E|]. rewrite E. apply fallback_questions_length.
Qed.

End Fallback.

End RetrievalFacts.

(** ** The transition phrases *)

Section TransitionFacts.
Import Py TransitionGenerator Spec.

Variable llm : nat -> option string.

Lemma repeat_list_length {A : Type} (l : list A) (k : nat) :
  length (repeat_list l k) = (k * length l)%nat.
Proof.
  induction k as [|k IH]; [reflexivity|].
  simpl. rewrite length_app, IH. reflexivity.
Qed.

Lemma transitions_when_raising (num_questions : nat) :
  llm num_questions = None ->
  length (generate_transitions llm num_questions) = num_questions.
Proof.
  intros H. unfold generate_transitions. rewrite H.
  rewrite length_take, repeat_list_length.
  change (length default_transitions_except) with 5%nat.
  pose proof (Nat.mul_succ_div_gt num_questions 5). lia.
Qed.

Lemma transitions_when_answering (num_questions : nat) (content : string) :
  llm num_questions = Some content ->
  length (generate_transitions llm num_questions)
  = Nat.min num_questions (length (numbered_lines (strip content)) + 8).
Proof.
  intros H. unfold generate_transitions. rewrite H.
  set (lines := numbered_lines (strip content)).
  destruct (length (take num_questions lines) <? num_questions)%nat eqn:E.
  - apply Nat.ltb_lt in E. rewrite length_take in E.
    rewrite length_take, length_app, length_take.
    change (length default_transitions) with 8%nat. lia.
  - apply Nat.ltb_ge in E. rewrite length_take in E.
    rewrite take_take, length_take. lia.
Qed.

Lemma transitions_at_most (num_questions : nat) :
  (length (generate_transitions llm num_questions) <= num_questions)%nat.
Proof.
  destruct (llm num_questions) as [content|] eqn:Hllm.
  - rewrite (transitions_when_answering _ _ Hllm). lia.
  - rewrite (transitions_when_raising _ Hllm). lia.
Qed.

(** X11.  [generate_transitions] returns exactly [num_questions] phrases
    when the model raises, and whenever at most eight are asked for; when
    the model answers, the number is [num_questions] capped by the number of
    lines of the answer plus the eight default phrases, so never more than
    asked. *)
Theorem transitions_count (num_questions : nat) :
  (llm num_questions = None ->
     length (generate_transitions llm num_questions) = num_questions) /\
  (forall content, llm num_questions = Some content ->
     length (generate_transitions llm num_questions)
     = Nat.min num_questions (length (numbered_lines (strip content)) + 8)) /\
  ((num_questions <= 8)%nat ->
     length (generate_transitions llm num_questions) = num_questions) /\
  (length (generate_transitions llm num_questions) <= num_questions)%nat.
Proof.
  split; [apply transitions_when_raising|].
  split; [apply transitions_when_answering|].
  split; [|apply transitions_at_most].
  intros Hle. destruct (llm num_questions) as [content|] eqn:Hllm.
  - rewrite (transitions_when_answering _ _ Hllm). lia.
  - apply transitions_when_raising. exact Hllm.
Qed.

End TransitionFacts.

(** ** The session manager, by id *)

Section StoreFacts.
Import Py SessionManager Spec.

Lemma dict_truthy_union (u d : gmap string jvalue) :
  dict_truthy d = true -> dict_truthy (u ∪ d) = true.
Proof.
  unfold dict_truthy. rewrite !negb_true_iff, !bool_decide_eq_false.
  intros Hd Hu. apply Hd. apply dom_empty_iff_L.
  apply dom_empty_iff_L in Hu. apply map_eq. intros k. rewrite lookup_empty.
  assert (H : (u ∪ d) !! k = None) by (rewrite Hu; apply lookup_empty).
  apply lookup_union_None in H as [_ H]. exact H.
Qed.

(** X14.  Writing the same update a second time changes nothing: the
    store after two identical updates is the store after one. *)
Theorem update_evaluation_idempotent (st : storage) (id : string)
    (updates : gmap string jvalue) :
  fst (update_evaluation (fst (update_evaluation st id updates)) id updates)
  = fst (update_evaluation st id updates).
Proof.
  unfold update_evaluation at 2 3.
  destruct (get_evaluation st id) as [d|] eqn:Hd.
  - destruct (dict_truthy d) eqn:Ht.
    + unfold update_evaluation, store_evaluation, get_evaluation. simpl.
      rewrite lookup_insert_eq, (dict_truthy_union _ _ Ht). simpl.
      rewrite insert_insert_eq, (assoc_L (∪)), (idemp_L (∪)). reflexivity.
    + simpl. unfold update_evaluation. rewrite Hd, Ht. reflexivity.
  - simpl. unfold update_evaluation. rewrite Hd. reflexivity.
Qed.

Lemma keep_recent_lookup (mtime : string -> Q) (now max_age : Q)
    (files : gmap string (gmap string jvalue)) (id : string) :
  keep_recent mtime now max_age files !! id
  = if too_old mtime now max_age id then None else files !! id.
Proof.
  unfold keep_recent. rewrite map_lookup_filter.
  destruct (files !! id) as [d|]; simpl.
  - destruct (too_old mtime now max_age id) eqn:E.
    + rewrite option_guard_False; [reflexivity|].
      intros H. discriminate H.
    + rewrite option_guard_True; reflexivity.
  - destruct (too_old mtime now max_age id); reflexivity.
Qed.

Lemma keep_recent_idempotent (mtime : string -> Q) (now max_age : Q)
    (files : gmap string (gmap string jvalue)) :
  keep_recent mtime now max_age (keep_recent mtime now max_age files)
  = keep_recent mtime now max_age files.
Proof.
  apply map_eq. intros id. rewrite !keep_recent_lookup.
  destruct (too_old mtime now max_age id); reflexivity.
Qed.

(** X16.  [cleanup_old_sessions] removes from both directories exactly the
    files older than the maximum age and leaves every other file as it is;
    the number it returns is the number of files that are gone; a second
    sweep at the same time removes nothing and returns 0. *)
Theorem cleanup_removes_the_old_files (st : storage)
    (session_mtime evaluation_mtime : string -> Q) (current_time : Q) (max_age_hours : Z) :
  let max_age_seconds := inject_Z (max_age_hours * 3600) in
  let st' := fst (cleanup_old_sessions st session_mtime evaluation_mtime
                    current_time max_age_hours) in
  let cleaned := snd (cleanup_old_sessions st session_mtime evaluation_mtime
                        current_time max_age_hours) in
  (forall id, get_session st' id
              = if Qle_bool (current_time - session_mtime id) max_age_seconds
                then get_session st id else None) /\
  (forall id, get_evaluation st' id
              = if Qle_bool (current_time - evaluation_mtime id) max_age_seconds
                then get_evaluation st id else None) /\
  (cleaned + size (sessions st') + size (evaluations st')
   = size (sessions st) + size (evaluations st))%nat /\
  cleanup_old_sessions st' session_mtime evaluation_mtime current_time max_age_hours
  = (st', 0%nat).
Proof.
  unfold cleanup_old_sessions, get_session, get_evaluation. simpl.
  set (max_age := inject_Z (max_age_hours * 3600)).
  split; [|split; [|split]].
  - intros id. rewrite keep_recent_lookup. unfold too_old.
    destruct (Qle_bool _ _); reflexivity.
  - intros id. rewrite keep_recent_lookup. unfold too_old.
    destruct (Qle_bool _ _); reflexivity.
  - pose proof (map_size_filter
      (fun kv : string * gmap string jvalue =>
         too_old session_mtime current_time max_age (fst kv) = false) (sessions st)) as H1.
    pose proof (map_size_filter
      (fun kv : string * gmap string jvalue =>
         too_old evaluation_mtime current_time max_age (fst kv) = false) (evaluations st)) as H2.
    unfold keep_recent. lia.
  - rewrite !keep_recent_idempotent. f_equal. lia.
Qed.

End StoreFacts.

(** ** The session manager, on the files *)

Section DiskStoreFacts.
Import Py SessionManager Disk Spec.

Variable cwd : path.
Variable other_directory : path -> bool.
Variable name_ok : string -> bool.
Variable encodable : gmap string jvalue -> bool.

Abbreviation file_of := (json_path cwd other_directory name_ok).
Abbreviation sessions := (sessions_dir cwd).
Abbreviation evaluations := (evaluations_dir cwd).
Abbreviation load := (read_json cwd other_directory name_ok).
Abbreviation dump := (write_json cwd other_directory name_ok encodable).
Abbreviation remove := (unlink_json cwd other_directory name_ok).

Lemma dump_succeeds (dk : disk) (d : path) (id : string) (data : gmap string jvalue) :
  snd (dump dk d id data) = true <-> file_of d id <> None /\ encodable data = true.
Proof.
  unfold write_json. destruct (file_of d id) as [p|].
  - destruct (encodable data); cbn [snd].
    + split; [|reflexivity]. intros _. split; [discriminate|reflexivity].
    + split; [discriminate|]. intros [_ H]. exact H.
  - cbn [snd]. split; [discriminate|]. intros [H _]. contradiction.
Qed.

Lemma dump_read_back (dk : disk) (d : path) (id : string) (data : gmap string jvalue) :
  file_of d id <> None ->
  load (fst (dump dk d id data)) d id = if encodable data then Some data else None.
Proof.
  intros Hsome. rewrite read_write. destruct (file_of d id) as [p|]; [|contradiction].
  rewrite decide_True by reflexivity. reflexivity.
Qed.

Lemma dump_nowhere (dk : disk) (d : path) (id : string) (data : gmap string jvalue) :
  file_of d id = None -> dump dk d id data = (dk, false).
Proof. intros H. unfold write_json. rewrite H. reflexivity. Qed.

Lemma dump_frame (dk : disk) (d d' : path) (id id' : string) (data : gmap string jvalue) :
  file_of d' id' <> file_of d id ->
  load (fst (dump dk d id data)) d' id' = load dk d' id'.
Proof.
  intros Hne. rewrite read_write. destruct (file_of d id) as [p|]; [|reflexivity].
  rewrite decide_False by exact Hne. reflexivity.
Qed.

Lemma dump_alias (dk : disk) (d d' : path) (id id' : string) (data : gmap string jvalue) :
  file_of d' id' = file_of d id ->
  load (fst (dump dk d id data)) d' id' = load (fst (dump dk d id data)) d id.
Proof. intros H. unfold read_json. rewrite H. reflexivity. Qed.

Lemma remove_succeeds (dk : disk) (d : path) (id : string) :
  snd (remove dk d id) = true <-> exists p, file_of d id = Some p /\ dk !! p <> None.
Proof.
  unfold unlink_json. destruct (file_of d id) as [p|].
  - destruct (dk !! p) as [f|] eqn:E; cbn [snd].
    + split; [|reflexivity]. intros _. exists p. rewrite E.
      split; [reflexivity|discriminate].
    + split; [discriminate|]. intros (p' & [= <-] & H). rewrite E in H. contradiction.
  - cbn [snd]. split; [discriminate|]. intros (p & H & _). discriminate.
Qed.

Lemma remove_fails (dk : disk) (d : path) (id : string) :
  snd (remove dk d id) = false -> fst (remove dk d id) = dk.
Proof.
  unfold unlink_json. destruct (file_of d id) as [p|]; [|reflexivity].
  destruct (dk !! p); [discriminate|reflexivity].
Qed.

Lemma remove_then_load (dk : disk) (d : path) (id : string) :
  load (fst (remove dk d id)) d id = None.
Proof.
  rewrite read_unlink. destruct (file_of d id) as [p|] eqn:E.
  - rewrite decide_True by reflexivity. reflexivity.
  - unfold read_json. rewrite E. reflexivity.
Qed.

Lemma remove_frame (dk : disk) (d d' : path) (id id' : string) :
  file_of d' id' <> file_of d id ->
  load (fst (remove dk d id)) d' id' = load dk d' id'.
Proof.
  intros Hne. rewrite read_unlink. destruct (file_of d id) as [p|]; [|reflexivity].
  rewrite decide_False by exact Hne. reflexivity.
Qed.

Lemma remove_after_dump (dk : disk) (d : path) (id : string) (data : gmap string jvalue)
    (p : path) :
  file_of d id = Some p -> dk !! p = None ->
  fst (remove (fst (dump dk d id data)) d id) = dk.
Proof.
  intros Hp Hnone. unfold write_json, unlink_json. rewrite Hp.
  destruct (encodable data); cbn [fst]; rewrite lookup_insert_eq; cbn [fst];
    apply delete_insert_id; exact Hnone.
Qed.

(** Ids that are file names: in one directory two of them name two files,
    and none names a file of the other directory. *)
Lemma plain_other_file (d : path) (id other : string) :
  plain id = true -> plain other = true -> other <> id ->
  file_of d other = None \/ file_of d other <> file_of d id.
Proof. apply plain_paths_apart. Qed.

Lemma plain_other_directory (id other : string) :
  plain id = true -> plain other = true ->
  file_of evaluations other = None \/ file_of evaluations other <> file_of sessions id.
Proof.
  intros Hid Hother. rewrite !json_path_plain by assumption.
  destruct (is_directory _ _ (evaluations ++ _) || negb _); [left; reflexivity|right].
  destruct (is_directory _ _ (sessions ++ _) || negb _); [discriminate|].
  intros [= H]. symmetry in H. exact (directories_apart _ _ _ H).
Qed.

Lemma load_nowhere (dk : disk) (d : path) (id : string) :
  file_of d id = None -> load dk d id = None.
Proof. intros H. unfold read_json. rewrite H. reflexivity. Qed.

Lemma dump_frame_or_nowhere (dk : disk) (d d' : path) (id id' : string)
    (data : gmap string jvalue) :
  file_of d' id' = None \/ file_of d' id' <> file_of d id ->
  load (fst (dump dk d id data)) d' id' = load dk d' id'.
Proof.
  intros [Hnone|Hne]; [|apply dump_frame; exact Hne].
  rewrite !load_nowhere by exact Hnone. reflexivity.
Qed.

Lemma remove_frame_or_nowhere (dk : disk) (d d' : path) (id id' : string) :
  file_of d' id' = None \/ file_of d' id' <> file_of d id ->
  load (fst (remove dk d id)) d' id' = load dk d' id'.
Proof.
  intros [Hnone|Hne]; [|apply remove_frame; exact Hne].
  rewrite !load_nowhere by exact Hnone. reflexivity.
Qed.

Lemma neq_sym_or {A} (x y : option A) : x = None \/ x <> y -> y = None \/ y <> x.
Proof.
  intros [H|H]; [|right; congruence].
  destruct y; [right; congruence|left; reflexivity].
Qed.

(** X12.  [store_session] (and [store_evaluation], which differs in the
    directory only) writes the file that [sessions/<id>.json] names and
    returns True exactly when that path leads to a place for a file and
    [json.dump] gets through.  After a True the next read of the id returns
    the data; a path that leads nowhere leaves the disk as it was; a dump
    that breaks off leaves a file that no longer reads.  Every id of either
    directory that names another file reads as before, and every id that
    names the same file reads what the id reads.  For ids that are file
    names this is the store by id: other sessions and all evaluations are
    as before.  An id [../evaluations/<e>] stores into the evaluations
    directory, and [../sessions/<s>] as an evaluation id into the
    sessions. *)
Theorem store_writes_the_named_file (dk : disk) (id : string) (data : gmap string jvalue) :
  let s := store_session cwd other_directory name_ok encodable dk id data in
  let e := store_evaluation cwd other_directory name_ok encodable dk id data in
  ((snd s = true <-> file_of sessions id <> None /\ encodable data = true) /\
   (snd s = true -> get_session cwd other_directory name_ok (fst s) id = Some data) /\
   (file_of sessions id = None -> s = (dk, false)) /\
   (file_of sessions id <> None -> encodable data = false ->
      get_session cwd other_directory name_ok (fst s) id = None) /\
   (forall other, file_of sessions other <> file_of sessions id ->
      get_session cwd other_directory name_ok (fst s) other
      = get_session cwd other_directory name_ok dk other) /\
   (forall other, file_of evaluations other <> file_of sessions id ->
      get_evaluation cwd other_directory name_ok (fst s) other
      = get_evaluation cwd other_directory name_ok dk other) /\
   (forall other, file_of evaluations other = file_of sessions id ->
      get_evaluation cwd other_directory name_ok (fst s) other
      = get_session cwd other_directory name_ok (fst s) id) /\
   (plain id = true ->
      (forall other, plain other = true -> other <> id ->
         get_session cwd other_directory name_ok (fst s) other
         = get_session cwd other_directory name_ok dk other) /\
      (forall other, plain other = true ->
         get_evaluation cwd other_directory name_ok (fst s) other
         = get_evaluation cwd other_directory name_ok dk other))) /\
  ((snd e = true <-> file_of evaluations id <> None /\ encodable data = true) /\
   (snd e = true -> get_evaluation cwd other_directory name_ok (fst e) id = Some data) /\
   (file_of evaluations id = None -> e = (dk, false)) /\
   (file_of evaluations id <> None -> encodable data = false ->
      get_evaluation cwd other_directory name_ok (fst e) id = None) /\
   (forall other, file_of evaluations other <> file_of evaluations id ->
      get_evaluation cwd other_directory name_ok (fst e) other
      = get_evaluation cwd other_directory name_ok dk other) /\
   (forall other, file_of sessions other <> file_of evaluations id ->
      get_session cwd other_directory name_ok (fst e) other
      = get_session cwd other_directory name_ok dk other) /\
   (forall other, file_of sessions other = file_of evaluations id ->
      get_session cwd other_directory name_ok (fst e) other
      = get_evaluation cwd other_directory name_ok (fst e) id) /\
   (plain id = true ->
      (forall other, plain other = true -> other <> id ->
         get_evaluation cwd other_directory name_ok (fst e) other
         = get_evaluation cwd other_directory name_ok dk other) /\
      (forall other, plain other = true ->
         get_session cwd other_directory name_ok (fst e) other
         = get_session cwd other_directory name_ok dk other))) /\
  (plain id = true ->
     store_session cwd other_directory name_ok encodable dk ("../evaluations/" ++ id) data = e /\
     store_evaluation cwd other_directory name_ok encodable dk ("../sessions/" ++ id) data = s).
Proof.
  intros s e. unfold s, e, store_session, store_evaluation, get_session, get_evaluation.
  split; [|split].
  - split; [apply dump_succeeds|].
    split.
    { intros Hok. apply dump_succeeds in Hok as [Hp Henc].
      rewrite (dump_read_back _ _ _ _ Hp), Henc. reflexivity. }
    split; [apply dump_nowhere|].
    split.
    { intros Hp Henc. rewrite (dump_read_back _ _ _ _ Hp), Henc. reflexivity. }
    split; [intros other Hne; apply dump_frame; exact Hne|].
    split; [intros other Hne; apply dump_frame; exact Hne|].
    split; [intros other Heq; apply dump_alias; exact Heq|].
    intros Hplain. split.
    + intros other Hother Hne. apply dump_frame_or_nowhere.
      apply plain_other_file; assumption.
    + intros other Hother. apply dump_frame_or_nowhere.
      apply plain_other_directory; assumption.
  - split; [apply dump_succeeds|].
    split.
    { intros Hok. apply dump_succeeds in Hok as [Hp Henc].
      rewrite (dump_read_back _ _ _ _ Hp), Henc. reflexivity. }
    split; [apply dump_nowhere|].
    split.
    { intros Hp Henc. rewrite (dump_read_back _ _ _ _ Hp), Henc. reflexivity. }
    split; [intros other Hne; apply dump_frame; exact Hne|].
    split; [intros other Hne; apply dump_frame; exact Hne|].
    split; [intros other Heq; apply dump_alias; exact Heq|].
    intros Hplain. split.
    + intros other Hother Hne. apply dump_frame_or_nowhere.
      apply plain_other_file; assumption.
    + intros other Hother. apply dump_frame_or_nowhere.
      apply neq_sym_or, plain_other_directory; assumption.
  - intros Hplain. unfold write_json.
    rewrite (session_path_of_evaluation cwd other_directory name_ok id Hplain).
    rewrite (evaluation_path_of_session cwd other_directory name_ok id Hplain).
    split; reflexivity.
Qed.

(** X13.  [update_evaluation] reads the file that [evaluations/<id>.json]
    names.  When nothing reads there, or an empty object, it returns False
    and writes nothing.  Otherwise it writes the merged record back to that
    file and returns what the write returns: after a True the id reads the
    record in which every key of the updates has its new value and every
    other key the one it had; when the dump breaks off it returns False and
    the record no longer reads.  Ids that name other files read as before.
    The file need not be an evaluation: with the id [../sessions/<s>] the
    record merged and rewritten is that of the session [<s>]. *)
Theorem update_evaluation_rewrites_the_named_file (dk : disk) (id : string)
    (updates : gmap string jvalue) :
  let u := update_evaluation cwd other_directory name_ok encodable dk id updates in
  match get_evaluation cwd other_directory name_ok dk id with
  | None => u = (dk, false)
  | Some d =>
      if dict_truthy d
      then (snd u = encodable (updates ∪ d)) /\
           (encodable (updates ∪ d) = true ->
            exists d', get_evaluation cwd other_directory name_ok (fst u) id = Some d' /\
              forall key, d' !! key = match updates !! key with
                                      | Some v => Some v
                                      | None => d !! key
                                      end) /\
           (encodable (updates ∪ d) = false ->
            get_evaluation cwd other_directory name_ok (fst u) id = None) /\
           (forall other, file_of evaluations other <> file_of evaluations id ->
              get_evaluation cwd other_directory name_ok (fst u) other
              = get_evaluation cwd other_directory name_ok dk other) /\
           (forall other, file_of sessions other <> file_of evaluations id ->
              get_session cwd other_directory name_ok (fst u) other
              = get_session cwd other_directory name_ok dk other) /\
           (forall other, file_of sessions other = file_of evaluations id ->
              get_session cwd other_directory name_ok (fst u) other
              = get_evaluation cwd other_directory name_ok (fst u) id) /\
           (plain id = true ->
              (forall other, plain other = true -> other <> id ->
                 get_evaluation cwd other_directory name_ok (fst u) other
                 = get_evaluation cwd other_directory name_ok dk other) /\
              (forall other, plain other = true ->
                 get_session cwd other_directory name_ok (fst u) other
                 = get_session cwd other_directory name_ok dk other))
      else u = (dk, false)
  end /\
  (forall sid d, plain sid = true ->
     get_session cwd other_directory name_ok dk sid = Some d ->
     dict_truthy d = true -> encodable (updates ∪ d) = true ->
     let v := update_evaluation cwd other_directory name_ok encodable dk
                ("../sessions/" ++ sid) updates in
     snd v = true /\
     get_session cwd other_directory name_ok (fst v) sid = Some (updates ∪ d)).
Proof.
  intros u. split.
  - unfold u, update_evaluation.
    destruct (get_evaluation cwd other_directory name_ok dk id) as [d|] eqn:Hd;
      [|reflexivity].
    destruct (dict_truthy d); [|reflexivity].
    assert (Hp : file_of evaluations id <> None).
    { unfold get_evaluation, read_json in Hd.
      destruct (file_of evaluations id); [discriminate|discriminate Hd]. }
    unfold store_evaluation, get_evaluation, get_session.
    split.
    { destruct (encodable (updates ∪ d)) eqn:Henc.
      - apply dump_succeeds. split; assumption.
      - destruct (snd (dump dk evaluations id (updates ∪ d))) eqn:Hs; [|reflexivity].
        apply dump_succeeds in Hs as [_ Hs]. congruence. }
    split.
    { intros Henc. exists (updates ∪ d).
      rewrite (dump_read_back _ _ _ _ Hp), Henc. split; [reflexivity|].
      intros key. rewrite lookup_union.
      destruct (updates !! key), (d !! key); reflexivity. }
    split.
    { intros Henc. rewrite (dump_read_back _ _ _ _ Hp), Henc. reflexivity. }
    split; [intros other Hne; apply dump_frame; exact Hne|].
    split; [intros other Hne; apply dump_frame; exact Hne|].
    split; [intros other Heq; apply dump_alias; exact Heq|].
    intros Hplain. split.
    + intros other Hother Hne. apply dump_frame_or_nowhere.
      apply plain_other_file; assumption.
    + intros other Hother. apply dump_frame_or_nowhere.
      apply neq_sym_or, plain_other_directory; assumption.
  - intros sid d Hplain Hd Htruthy Henc v.
    assert (Hpath : file_of evaluations ("../sessions/" ++ sid)%string = file_of sessions sid)
      by apply (evaluation_path_of_session cwd other_directory name_ok sid Hplain).
    assert (Hp : file_of sessions sid <> None).
    { unfold get_session, read_json in Hd.
      destruct (file_of sessions sid); [discriminate|discriminate Hd]. }
    assert (Hread : get_evaluation cwd other_directory name_ok dk ("../sessions/" ++ sid)
                    = Some d).
    { unfold get_evaluation, read_json. rewrite Hpath. exact Hd. }
    unfold v, update_evaluation. rewrite Hread, Htruthy.
    unfold store_evaluation, get_session. split.
    + apply dump_succeeds. rewrite Hpath. split; assumption.
    + rewrite read_write, Hpath. destruct (file_of sessions sid) as [p|]; [|contradiction].
      rewrite decide_True by reflexivity. rewrite Henc. reflexivity.
Qed.

(** X15.  [delete_session] ([delete_evaluation]) unlinks the file that
    [sessions/<id>.json] ([evaluations/<id>.json]) names and returns True
    exactly when that file exists, whether or not it reads; the id then
    reads as not found.  A False leaves the disk as it was.  Ids that name
    other files read as before; deleting what was just stored where no file
    was gives the disk back.  The file need not lie in the directory:
    [delete_session] of [../evaluations/<e>] is [delete_evaluation] of
    [<e>], and the other way round. *)
Theorem delete_unlinks_the_named_file (dk : disk) (id : string) :
  let s := delete_session cwd other_directory name_ok dk id in
  let e := delete_evaluation cwd other_directory name_ok dk id in
  ((snd s = true <-> exists p, file_of sessions id = Some p /\ dk !! p <> None) /\
   (get_session cwd other_directory name_ok dk id <> None -> snd s = true) /\
   get_session cwd other_directory name_ok (fst s) id = None /\
   (snd s = false -> fst s = dk) /\
   (forall other, file_of sessions other <> file_of sessions id ->
      get_session cwd other_directory name_ok (fst s) other
      = get_session cwd other_directory name_ok dk other) /\
   (forall other, file_of evaluations other <> file_of sessions id ->
      get_evaluation cwd other_directory name_ok (fst s) other
      = get_evaluation cwd other_directory name_ok dk other) /\
   (plain id = true ->
      (forall other, plain other = true -> other <> id ->
         get_session cwd other_directory name_ok (fst s) other
         = get_session cwd other_directory name_ok dk other) /\
      (forall other, plain other = true ->
         get_evaluation cwd other_directory name_ok (fst s) other
         = get_evaluation cwd other_directory name_ok dk other)) /\
   (forall data p, file_of sessions id = Some p -> dk !! p = None ->
      fst (delete_session cwd other_directory name_ok
             (fst (store_session cwd other_directory name_ok encodable dk id data)) id)
      = dk)) /\
  ((snd e = true <-> exists p, file_of evaluations id = Some p /\ dk !! p <> None) /\
   (get_evaluation cwd other_directory name_ok dk id <> None -> snd e = true) /\
   get_evaluation cwd other_directory name_ok (fst e) id = None /\
   (snd e = false -> fst e = dk) /\
   (forall other, file_of evaluations other <> file_of evaluations id ->
      get_evaluation cwd other_directory name_ok (fst e) other
      = get_evaluation cwd other_directory name_ok dk other) /\
   (forall other, file_of sessions other <> file_of evaluations id ->
      get_session cwd other_directory name_ok (fst e) other
      = get_session cwd other_directory name_ok dk other) /\
   (plain id = true ->
      (forall other, plain other = true -> other <> id ->
         get_evaluation cwd other_directory name_ok (fst e) other
         = get_evaluation cwd other_directory name_ok dk other) /\
      (forall other, plain other = true ->
         get_session cwd other_directory name_ok (fst e) other
         = get_session cwd other_directory name_ok dk other)) /\
   (forall data p, file_of evaluations id = Some p -> dk !! p = None ->
      fst (delete_evaluation cwd other_directory name_ok
             (fst (store_evaluation cwd other_directory name_ok encodable dk id data)) id)
      = dk)) /\
  (plain id = true ->
     delete_session cwd other_directory name_ok dk ("../evaluations/" ++ id) = e /\
     delete_evaluation cwd other_directory name_ok dk ("../sessions/" ++ id) = s).
Proof.
  intros s e.
  unfold s, e, delete_session, delete_evaluation, store_session, store_evaluation,
    get_session, get_evaluation.
  assert (Hexists : forall d, load dk d id <> None -> snd (remove dk d id) = true).
  { intros d Hread. apply remove_succeeds. unfold read_json in Hread.
    destruct (file_of d id) as [p|]; [|contradiction].
    exists p. split; [reflexivity|]. destruct (dk !! p); [discriminate|contradiction]. }
  split; [|split].
  - split; [apply remove_succeeds|].
    split; [apply Hexists|].
    split; [apply remove_then_load|].
    split; [apply remove_fails|].
    split; [intros other Hne; apply remove_frame; exact Hne|].
    split; [intros other Hne; apply remove_frame; exact Hne|].
    split; [|intros data p; apply remove_after_dump].
    intros Hplain. split.
    + intros other Hother Hne. apply remove_frame_or_nowhere.
      apply plain_other_file; assumption.
    + intros other Hother. apply remove_frame_or_nowhere.
      apply plain_other_directory; assumption.
  - split; [apply remove_succeeds|].
    split; [apply Hexists|].
    split; [apply remove_then_load|].
    split; [apply remove_fails|].
    split; [intros other Hne; apply remove_frame; exact Hne|].
    split; [intros other Hne; apply remove_frame; exact Hne|].
    split; [|intros data p; apply remove_after_dump].
    intros Hplain. split.
    + intros other Hother Hne. apply remove_frame_or_nowhere.
      apply plain_other_file; assumption.
    + intros other Hother. apply remove_frame_or_nowhere.
      apply neq_sym_or, plain_other_directory; assumption.
  - intros Hplain. unfold unlink_json.
    rewrite (session_path_of_evaluation cwd other_directory name_ok id Hplain).
    rewrite (evaluation_path_of_session cwd other_directory name_ok id Hplain).
    split; reflexivity.
Qed.

End DiskStoreFacts.

(** ** The store by id and the store on the files *)

Section DiskRefinement.
Import Py RequestModels ResponseModels Disk Spec.

Variable cwd : path.
Variable other_directory : path -> bool.
Variable name_ok : string -> bool.
Variable encodable : gmap string jvalue -> bool.

Abbreviation session_file_of id := (sessions_dir cwd ++ [(id ++ ".json")%string]).
Abbreviation evaluation_file_of id := (evaluations_dir cwd ++ [(id ++ ".json")%string]).

Lemma usable_paths (id : string) :
  usable cwd other_directory name_ok id = true ->
  plain id = true /\
  json_path cwd other_directory name_ok (sessions_dir cwd) id = Some (session_file_of id) /\
  json_path cwd other_directory name_ok (evaluations_dir cwd) id
  = Some (evaluation_file_of id).
Proof.
  unfold usable. intros H.
  apply andb_true_iff in H as [H He]. apply andb_true_iff in H as [H Hs].
  apply andb_true_iff in H as [Hplain Hname].
  apply negb_true_iff in He, Hs.
  split; [exact Hplain|].
  rewrite !json_path_plain by exact Hplain. rewrite He, Hs, Hname. split; reflexivity.
Qed.

Lemma files_apart (id other : string) :
  other <> id ->
  (session_file_of other : path) <> session_file_of id /\
  (evaluation_file_of other : path) <> evaluation_file_of id.
Proof.
  intros Hne. split; intros H; apply app_inv_head in H; injection H as H;
    apply string_app_inv_tail in H; contradiction.
Qed.

Lemma represents_write_session (dk : disk) (st : SessionManager.storage) (id : string)
    (data : gmap string jvalue) :
  represents cwd dk st ->
  represents cwd (<[session_file_of id := Object data]> dk)
    {| SessionManager.sessions := <[id := data]> (SessionManager.sessions st);
       SessionManager.evaluations := SessionManager.evaluations st |}.
Proof.
  intros Hrep other Hplain. destruct (Hrep other Hplain) as [Hs He]. cbn. split.
  - destruct (decide (other = id)) as [->|Hne].
    + rewrite !lookup_insert_eq. reflexivity.
    + rewrite !lookup_insert_ne by (try apply files_apart; congruence). exact Hs.
  - rewrite lookup_insert_ne by apply directories_apart. exact He.
Qed.

Lemma represents_write_evaluation (dk : disk) (st : SessionManager.storage) (id : string)
    (data : gmap string jvalue) :
  represents cwd dk st ->
  represents cwd (<[evaluation_file_of id := Object data]> dk)
    {| SessionManager.sessions := SessionManager.sessions st;
       SessionManager.evaluations := <[id := data]> (SessionManager.evaluations st) |}.
Proof.
  intros Hrep other Hplain. destruct (Hrep other Hplain) as [Hs He]. cbn. split.
  - rewrite lookup_insert_ne by (intros H; symmetry in H; exact (directories_apart _ _ _ H)).
    exact Hs.
  - destruct (decide (other = id)) as [->|Hne].
    + rewrite !lookup_insert_eq. reflexivity.
    + rewrite !lookup_insert_ne by (try apply files_apart; congruence). exact He.
Qed.

Lemma represents_unlink_session (dk : disk) (st : SessionManager.storage) (id : string) :
  represents cwd dk st ->
  represents cwd (delete (session_file_of id) dk)
    {| SessionManager.sessions := delete id (SessionManager.sessions st);
       SessionManager.evaluations := SessionManager.evaluations st |}.
Proof.
  intros Hrep other Hplain. destruct (Hrep other Hplain) as [Hs He]. cbn. split.
  - destruct (decide (other = id)) as [->|Hne].
    + rewrite !lookup_delete_eq. reflexivity.
    + rewrite !lookup_delete_ne by (try apply files_apart; congruence). exact Hs.
  - rewrite lookup_delete_ne by apply directories_apart. exact He.
Qed.

Lemma represents_unlink_evaluation (dk : disk) (st : SessionManager.storage) (id : string) :
  represents cwd dk st ->
  represents cwd (delete (evaluation_file_of id) dk)
    {| SessionManager.sessions := SessionManager.sessions st;
       SessionManager.evaluations := delete id (SessionManager.evaluations st) |}.
Proof.
  intros Hrep other Hplain. destruct (Hrep other Hplain) as [Hs He]. cbn. split.
  - rewrite lookup_delete_ne by (intros H; symmetry in H; exact (directories_apart _ _ _ H)).
    exact Hs.
  - destruct (decide (other = id)) as [->|Hne].
    + rewrite !lookup_delete_eq. reflexivity.
    + rewrite !lookup_delete_ne by (try apply files_apart; congruence). exact He.
Qed.

Lemma represents_empty : represents cwd ∅ {| SessionManager.sessions := ∅;
                                             SessionManager.evaluations := ∅ |}.
Proof. intros id _. cbn. rewrite !lookup_empty. split; reflexivity. Qed.

Section OneId.

Variable dk : disk.
Variable st : SessionManager.storage.
Variable id : string.
Hypothesis dumps : forall d, encodable d = true.
Hypothesis same : represents cwd dk st.
Hypothesis good : usable cwd other_directory name_ok id = true.

Lemma refine_get_session :
  Disk.get_session cwd other_directory name_ok dk id = SessionManager.get_session st id.
Proof.
  destruct (usable_paths id good) as (Hplain & Hs & _).
  unfold Disk.get_session, read_json, SessionManager.get_session. rewrite Hs.
  destruct (same id Hplain) as [Hfile _]. unfold path in *. rewrite Hfile.
  destruct (SessionManager.sessions st !! id); reflexivity.
Qed.

Lemma refine_get_evaluation :
  Disk.get_evaluation cwd other_directory name_ok dk id
  = SessionManager.get_evaluation st id.
Proof.
  destruct (usable_paths id good) as (Hplain & _ & He).
  unfold Disk.get_evaluation, read_json, SessionManager.get_evaluation. rewrite He.
  destruct (same id Hplain) as [_ Hfile]. unfold path in *. rewrite Hfile.
  destruct (SessionManager.evaluations st !! id); reflexivity.
Qed.

Lemma refine_store_session (data : gmap string jvalue) :
  snd (Disk.store_session cwd other_directory name_ok encodable dk id data)
  = snd (SessionManager.store_session st id data) /\
  represents cwd (fst (Disk.store_session cwd other_directory name_ok encodable dk id data))
    (fst (SessionManager.store_session st id data)).
Proof.
  destruct (usable_paths id good) as (Hplain & Hs & _).
  unfold Disk.store_session, write_json, SessionManager.store_session.
  rewrite Hs, dumps. cbn [fst snd]. split; [reflexivity|].
  apply represents_write_session. exact same.
Qed.

Lemma refine_store_evaluation (data : gmap string jvalue) :
  snd (Disk.store_evaluation cwd other_directory name_ok encodable dk id data)
  = snd (SessionManager.store_evaluation st id data) /\
  represents cwd (fst (Disk.store_evaluation cwd other_directory name_ok encodable dk id data))
    (fst (SessionManager.store_evaluation st id data)).
Proof.
  destruct (usable_paths id good) as (Hplain & _ & He).
  unfold Disk.store_evaluation, write_json, SessionManager.store_evaluation.
  rewrite He, dumps. cbn [fst snd]. split; [reflexivity|].
  apply represents_write_evaluation. exact same.
Qed.

Lemma refine_update_evaluation (updates : gmap string jvalue) :
  snd (Disk.update_evaluation cwd other_directory name_ok encodable dk id updates)
  = snd (SessionManager.update_evaluation st id updates) /\
  represents cwd
    (fst (Disk.update_evaluation cwd other_directory name_ok encodable dk id updates))
    (fst (SessionManager.update_evaluation st id updates)).
Proof.
  unfold Disk.update_evaluation, SessionManager.update_evaluation.
  rewrite refine_get_evaluation.
  destruct (SessionManager.get_evaluation st id) as [d|]; [|split; [reflexivity|exact same]].
  destruct (SessionManager.dict_truthy d); [|split; [reflexivity|exact same]].
  apply refine_store_evaluation.
Qed.

Lemma refine_delete_session :
  snd (Disk.delete_session cwd other_directory name_ok dk id)
  = snd (SessionManager.delete_session st id) /\
  represents cwd (fst (Disk.delete_session cwd other_directory name_ok dk id))
    (fst (SessionManager.delete_session st id)).
Proof.
  destruct (usable_paths id good) as (Hplain & Hs & _).
  unfold Disk.delete_session, unlink_json, SessionManager.delete_session. rewrite Hs.
  destruct (same id Hplain) as [Hfile _]. unfold path in *. rewrite Hfile.
  destruct (SessionManager.sessions st !! id); cbn [fmap option_fmap option_map fst snd].
  - split; [reflexivity|]. apply represents_unlink_session. exact same.
  - split; [reflexivity|exact same].
Qed.

Lemma refine_delete_evaluation :
  snd (Disk.delete_evaluation cwd other_directory name_ok dk id)
  = snd (SessionManager.delete_evaluation st id) /\
  represents cwd (fst (Disk.delete_evaluation cwd other_directory name_ok dk id))
    (fst (SessionManager.delete_evaluation st id)).
Proof.
  destruct (usable_paths id good) as (Hplain & _ & He).
  unfold Disk.delete_evaluation, unlink_json, SessionManager.delete_evaluation. rewrite He.
  destruct (same id Hplain) as [_ Hfile]. unfold path in *. rewrite Hfile.
  destruct (SessionManager.evaluations st !! id); cbn [fmap option_fmap option_map fst snd].
  - split; [reflexivity|]. apply represents_unlink_evaluation. exact same.
  - split; [reflexivity|exact same].
Qed.

End OneId.

Lemma refine_submit (dk : disk) (st : SessionManager.storage)
    (request : SubmitInterviewRequest) (uuid : string) (now : Q) :
  (forall d, encodable d = true) ->
  represents cwd dk st ->
  usable cwd other_directory name_ok (session_id request) = true ->
  usable cwd other_directory name_ok uuid = true ->
  let on_files := Disk.submit_interview cwd other_directory name_ok encodable dk request uuid now in
  let by_id := Main.submit_interview st request uuid now in
  fst (fst on_files) = fst (fst by_id) /\
  snd on_files = snd by_id /\
  represents cwd (snd (fst on_files)) (snd (fst by_id)).
Proof.
  intros Hdumps Hsame Hsid Huuid.
  unfold Disk.submit_interview, Main.submit_interview, Disk.submit_body, Main.submit_body.
  rewrite (refine_get_session dk st (session_id request) Hsame Hsid).
  destruct (SessionManager.get_session st (session_id request)) as [session_data|];
    [|cbn; split; [reflexivity|split; [reflexivity|exact Hsame]]].
  destruct (negb (SessionManager.dict_truthy session_data));
    [cbn; split; [reflexivity|split; [reflexivity|exact Hsame]]|].
  destruct (Main.getitem_str session_data "role") as [role|e].
  - cbn [fst snd]. split; [reflexivity|]. split; [reflexivity|].
    apply (refine_store_evaluation dk st uuid Hdumps Hsame Huuid).
  - destruct e; cbn [fst snd]; (split; [reflexivity|split; [reflexivity|exact Hsame]]).
Qed.

(** X29.  On the ids the handlers make themselves, the store on the files
    is the store by id.  Let the disk hold the records of a store by id,
    let every record be one that [json.dump] writes, and take an id that is
    a file name the file system accepts: then each function of
    [SessionManager], run on the files, returns what it returns on the
    store by id, and leaves a disk that holds the records of the store it
    leaves there; and so does [submit_interview] when the session id of the
    request and the new evaluation id are such ids. *)
Theorem files_refine_the_store_by_id (dk : disk) (st : SessionManager.storage) (id : string) :
  (forall d, encodable d = true) ->
  represents cwd dk st ->
  usable cwd other_directory name_ok id = true ->
  Disk.get_session cwd other_directory name_ok dk id = SessionManager.get_session st id /\
  Disk.get_evaluation cwd other_directory name_ok dk id
  = SessionManager.get_evaluation st id /\
  (forall data,
     snd (Disk.store_session cwd other_directory name_ok encodable dk id data)
     = snd (SessionManager.store_session st id data) /\
     represents cwd
       (fst (Disk.store_session cwd other_directory name_ok encodable dk id data))
       (fst (SessionManager.store_session st id data))) /\
  (forall data,
     snd (Disk.store_evaluation cwd other_directory name_ok encodable dk id data)
     = snd (SessionManager.store_evaluation st id data) /\
     represents cwd
       (fst (Disk.store_evaluation cwd other_directory name_ok encodable dk id data))
       (fst (SessionManager.store_evaluation st id data))) /\
  (forall updates,
     snd (Disk.update_evaluation cwd other_directory name_ok encodable dk id updates)
     = snd (SessionManager.update_evaluation st id updates) /\
     represents cwd
       (fst (Disk.update_evaluation cwd other_directory name_ok encodable dk id updates))
       (fst (SessionManager.update_evaluation st id updates))) /\
  (snd (Disk.delete_session cwd other_directory name_ok dk id)
   = snd (SessionManager.delete_session st id) /\
   represents cwd (fst (Disk.delete_session cwd other_directory name_ok dk id))
     (fst (SessionManager.delete_session st id))) /\
  (snd (Disk.delete_evaluation cwd other_directory name_ok dk id)
   = snd (SessionManager.delete_evaluation st id) /\
   represents cwd (fst (Disk.delete_evaluation cwd other_directory name_ok dk id))
     (fst (SessionManager.delete_evaluation st id))) /\
  (forall request uuid now,
     session_id request = id -> usable cwd other_directory name_ok uuid = true ->
     let on_files :=
       Disk.submit_interview cwd other_directory name_ok encodable dk request uuid now in
     let by_id := Main.submit_interview st request uuid now in
     fst (fst on_files) = fst (fst by_id) /\
     snd on_files = snd by_id /\
     represents cwd (snd (fst on_files)) (snd (fst by_id))).
Proof.
  intros Hdumps Hsame Hgood.
  split; [apply refine_get_session; assumption|].
  split; [apply refine_get_evaluation; assumption|].
  split; [intros data; apply refine_store_session; assumption|].
  split; [intros data; apply refine_store_evaluation; assumption|].
  split; [intros updates; apply refine_update_evaluation; assumption|].
  split; [apply refine_delete_session; assumption|].
  split; [apply refine_delete_evaluation; assumption|].
  intros request uuid now Hid Huuid. apply refine_submit; try assumption.
  rewrite Hid. exact Hgood.
Qed.

End DiskRefinement.

(** ** The handlers of main.py, end to end *)

Section EndToEndFacts.
Import Py RequestModels ResponseModels SessionManager Main Spec.

Variable process_resume : string -> result (QuestionGenerator.vector_db * option string).
Variable question_llm : QuestionGenerator.prompt -> option string.
Variable structured_chain : string -> string -> option (list string).
Variable transition_llm : nat -> option string.
Variable evaluation_llm : EvaluationService.prompt -> option string.
Variable py_float : string -> option fval.
Variable type_error_str : string -> jvalue -> string.

Abbreviation initialize_ :=
  (initialize_interview process_resume question_llm structured_chain transition_llm).
Abbreviation background_ := (process_evaluation_background evaluation_llm py_float).
Abbreviation evaluate_ :=
  (EvaluationService.evaluate_complete_interview evaluation_llm py_float).
Abbreviation poll := (get_results type_error_str).

Lemma number_questions_ids (i : Z) (qs : list string) :
  map id (number_questions i qs) = map (fun k => (i + Z.of_nat k)%Z) (seq 1 (length qs)) /\
  map text (number_questions i qs) = qs.
Proof.
  revert i. induction qs as [|q qs IH]; intros i; [split; reflexivity|].
  simpl. destruct (IH (i + 1)%Z) as [IH1 IH2]. rewrite IH1, IH2.
  split; [|reflexivity]. f_equal; try lia.
  rewrite <- (seq_shift (length qs) 1), map_map. apply map_ext. intros k. lia.
Qed.

(** X17.  [initialize_interview] succeeds exactly when the extension is one
    of the three, the role is one of the three and the resume processor
    returns; every failure is answered with status 500 and leaves the store
    as it was. *)
Theorem initialize_fails_with_500_and_stores_nothing
    (st : storage) (role filename uuid : string) (now : Q) :
  let outcome := initialize_ st role filename uuid now in
  let accepted :=
    str_in (lower (path_suffix filename)) allowed_extensions
    && str_in role valid_roles in
  match fst outcome with
  | Ok _ =>
      accepted = true /\
      exists store_, process_resume ("uploads/" ++ uuid ++ "_" ++ filename)%string = Ok store_
  | Raise e =>
      http_status (fst outcome) = Some 500%Z /\ snd outcome = st /\
      (accepted = false \/
       exists e', process_resume ("uploads/" ++ uuid ++ "_" ++ filename)%string = Raise e')
  end.
Proof.
  unfold initialize_interview, initialize_body.
  destruct (str_in (lower (path_suffix filename)) allowed_extensions) eqn:He;
    [|simpl; repeat split; left; reflexivity].
  destruct (str_in role valid_roles) eqn:Hr;
    [|simpl; repeat split; left; reflexivity].
  cbn [negb andb].
  destruct (process_resume _) as [[db name]|e] eqn:Hp; cbn [fst snd].
  - split; [reflexivity|eauto].
  - repeat split. right. eauto.
Qed.

(** X18.  A successful [initialize_interview] answers with the questions
    of the generator numbered 1, 2, ... in their order, and stores the
    session under the new id: [get_session_info] of that id then reports the
    id, the role and the number of questions, and the evaluations are
    untouched. *)
Theorem initialize_stores_the_session
    (st : storage) (role filename uuid : string) (now : Q) (response : InitializeResponse) :
  fst (initialize_ st role filename uuid now) = Ok response ->
  let st' := snd (initialize_ st role filename uuid now) in
  ir_session_id response = uuid /\
  map id (questions response) = ids_from_one (length (questions response)) /\
  (exists db name,
     process_resume ("uploads/" ++ uuid ++ "_" ++ filename)%string = Ok (db, name) /\
     map text (questions response)
     = QuestionGenerator.generate_questions question_llm structured_chain db role
         ("uploads/" ++ uuid ++ "_" ++ filename)%string) /\
  length (transitions response) <= length (questions response) /\
  get_session_info type_error_str st' uuid
  = Ok {| info_session_id := JStr uuid;
          info_role := JStr role;
          questions_count := length (questions response);
          created_at := JNum now |} /\
  (forall other, other <> uuid -> get_session st' other = get_session st other) /\
  evaluations st' = evaluations st.
Proof.
  unfold initialize_interview, initialize_body.
  destruct (negb (str_in (lower (path_suffix filename)) allowed_extensions));
    [discriminate|].
  destruct (negb (str_in role valid_roles)); [discriminate|].
  destruct (process_resume _) as [[db name]|e] eqn:Hp; [|discriminate].
  cbn [fst snd]. intros [= <-]. cbn [ir_session_id questions transitions].
  set (qs := QuestionGenerator.generate_questions _ _ _ _ _).
  destruct (number_questions_ids 0 qs) as [Hids Htext].
  split; [reflexivity|].
  split.
  { rewrite Hids. unfold ids_from_one.
    assert (Hlen : length (number_questions 0 qs) = length qs).
    { rewrite <- (length_map text), Htext. reflexivity. }
    rewrite Hlen. apply map_ext. intros k. lia. }
  split; [exists db, name; split; [reflexivity|exact Htext]|].
  split.
  { apply transitions_at_most. }
  split.
  { unfold get_session_info, get_session, store_session. cbn [fst sessions].
    rewrite lookup_insert_eq.
    destruct name; reflexivity. }
  split; [|reflexivity].
  intros other Hne. unfold get_session, store_session. cbn [fst sessions].
  apply lookup_insert_ne. congruence.
Qed.


Lemma status_equals_spec (d : gmap string jvalue) (s : string) :
  status_equals d s = true <-> status_is d s.
Proof.
  unfold status_equals, status_is. split.
  - destruct (d !! "status") as [[s'| | | | |]|]; try discriminate.
    intros H. apply String.eqb_eq in H. congruence.
  - intros ->. apply String.eqb_refl.
Qed.

Lemma status_equals_other (d : gmap string jvalue) (s s' : string) :
  status_is d s -> s <> s' -> status_equals d s' = false.
Proof.
  intros Hs Hne. destruct (status_equals d s') eqn:E; [|reflexivity].
  apply status_equals_spec in E. unfold status_is in *. congruence.
Qed.

(** What a poll answers on a readable record. *)
Lemma poll_readable (st : storage) (id : string) (d : gmap string jvalue) :
  get_evaluation st id = Some d -> dict_truthy d = true -> readable d ->
  (status_is d "processing" /\
   poll st id = Ok (StillProcessing
                      "Results are still being processed. Please try again in a moment.")) \/
  (status_is d "completed" /\
   exists r, d !! "results" = Some (JResults r) /\ poll st id = Ok (Results r)) \/
  (status_is d "error" /\
   poll st id = Raise (HTTPException 500 "Error processing evaluation")).
Proof.
  intros Hd Ht Hr. unfold get_results, results_body. rewrite Hd, Ht. cbn [negb].
  destruct Hr as [Hp|[[Hc (r & Hres)]|He]].
  - left. split; [exact Hp|]. apply status_equals_spec in Hp. rewrite Hp. reflexivity.
  - right. left. split; [exact Hc|]. exists r. split; [exact Hres|].
    rewrite (status_equals_other d "completed" "processing" Hc) by discriminate.
    rewrite (status_equals_other d "completed" "error" Hc) by discriminate.
    rewrite Hres. reflexivity.
  - right. right. split; [exact He|].
    rewrite (status_equals_other d "error" "processing" He) by discriminate.
    apply status_equals_spec in He. rewrite He. reflexivity.
Qed.

(** X19.  The evaluation id of a submit that succeeded polls as "still
    processing" (the 202 reply) until its background task has run. *)
Theorem submitted_polls_as_processing (st : storage) (request : SubmitInterviewRequest)
    (uuid : string) (now : Q) (response : SubmitInterviewResponse) :
  fst (fst (submit_interview st request uuid now)) = Ok response ->
  evaluation_id response = uuid /\
  poll (snd (fst (submit_interview st request uuid now))) (evaluation_id response)
  = Ok (StillProcessing "Results are still being processed. Please try again in a moment.") /\
  sessions (snd (fst (submit_interview st request uuid now))) = sessions st.
Proof.
  intros Hok.
  destruct (submit_outcome st request uuid now)
    as [[e He]|(d & t & Hresp & Hev & Ht & Hid & Hproc & Hnores & Hnoerr)].
  { rewrite He in Hok. discriminate. }
  rewrite Hresp in Hok. injection Hok as <-. cbn [evaluation_id].
  split; [reflexivity|].
  assert (Hget : get_evaluation (snd (fst (submit_interview st request uuid now))) uuid = Some d).
  { unfold get_evaluation. rewrite Hev. apply lookup_insert_eq. }
  split.
  - destruct (poll_readable _ uuid d Hget) as [[_ H]|[[Hc _]|[He _]]].
    + apply (dict_truthy_lookup d "status"). eexists. exact Hproc.
    + left. exact Hproc.
    + exact H.
    + pose proof (status_exclusive _ _ _ Hproc Hc). discriminate.
    + pose proof (status_exclusive _ _ _ Hproc He). discriminate.
  - clear -st. unfold submit_interview, submit_body.
    destruct (get_session st (session_id request)) as [sd|]; [|reflexivity].
    destruct (negb (dict_truthy sd)); [reflexivity|].
    destruct (getitem_str sd "role") as [role|[c m|m]]; reflexivity.
Qed.

(** X20.  The background task writes to the record of its evaluation and
    to nothing else: the sessions and every other evaluation are as before;
    and when the record is gone (or empty) by the time the task runs, the
    store is left as it is and the results are dropped. *)
Theorem background_touches_one_record (st : storage) (t : task) (now : Q) :
  sessions (background_ st t now) = sessions st /\
  (forall other, other <> t_evaluation_id t ->
     get_evaluation (background_ st t now) other = get_evaluation st other) /\
  (get_evaluation st (t_evaluation_id t) = None -> background_ st t now = st) /\
  (forall d, get_evaluation st (t_evaluation_id t) = Some d -> dict_truthy d = false ->
     background_ st t now = st).
Proof.
  unfold process_evaluation_background, update_evaluation.
  destruct (run_evaluation evaluation_llm py_float t) as [results|e];
    (destruct (get_evaluation st (t_evaluation_id t)) as [d|] eqn:Hd;
     [destruct (dict_truthy d) eqn:Ht|]);
    cbn [fst]; unfold store_evaluation, get_evaluation; cbn [fst sessions evaluations];
    (split; [reflexivity|]);
    (split; [intros other Hne; try reflexivity; apply lookup_insert_ne; congruence|]);
    (split; [intros H; try reflexivity; discriminate H|]);
    intros d' H1 H2; try reflexivity; congruence.
Qed.

(** X21.  Submit, the background task, then a poll: for a session that
    holds its id and its role, the poll returns the results that
    [evaluate_complete_interview] computes for the submitted answers and
    the session's role; for a session record without its id, the evaluation
    is recorded as in error and the poll answers 500. *)
Theorem submit_evaluate_poll (st st' : storage) (request : SubmitInterviewRequest)
    (uuid : string) (now now' : Q) (response : SubmitInterviewResponse) (t : task) :
  submit_interview st request uuid now = (Ok response, st', Some t) ->
  exists session_data role,
    get_session st (session_id request) = Some session_data /\
    session_data !! "role" = Some (JStr role) /\
    match getitem_str session_data "session_id" with
    | Ok sid =>
        exists r,
          evaluate_ sid (interview_data request) role = Ok r /\
          poll (background_ st' t now') uuid = Ok (Results r)
    | Raise _ =>
        poll (background_ st' t now') uuid
        = Raise (HTTPException 500 "Error processing evaluation")
    end.
Proof.
  intros Hsub.
  assert (Hshape : exists session_data role,
    get_session st (session_id request) = Some session_data /\
    session_data !! "role" = Some (JStr role) /\
    t = {| t_evaluation_id := uuid; t_session_data := session_data;
           t_interview_data := interview_data request |} /\
    exists d, evaluations st' = <[uuid := d]> (evaluations st) /\
              status_is d "processing" /\ d !! "results" = None).
  { revert Hsub. unfold submit_interview, submit_body.
    destruct (get_session st (session_id request)) as [sd|]; [|discriminate].
    destruct (negb (dict_truthy sd)); [discriminate|].
    unfold getitem_str.
    destruct (sd !! "role") as [[role| | | | |]|] eqn:Hrole; try discriminate.
    cbn [as_str fst snd]. intros [= _ <- <-].
    exists sd, role. split; [reflexivity|]. split; [exact Hrole|].
    split; [reflexivity|]. eexists. split; [reflexivity|]. split; reflexivity. }
  destruct Hshape as (sd & role & Hsess & Hrole & -> & d & Hev & Hproc & Hnores).
  exists sd, role. split; [exact Hsess|]. split; [exact Hrole|].
  assert (Hget : evaluations st' !! uuid = Some d)
    by (rewrite Hev; apply lookup_insert_eq).
  assert (Htruthy : dict_truthy d = true)
    by (apply (dict_truthy_lookup d "status"); eexists; exact Hproc).
  assert (Hrolestr : getitem_str sd "role" = Ok role)
    by (unfold getitem_str; rewrite Hrole; reflexivity).
  unfold process_evaluation_background, run_evaluation. cbn [t_session_data t_evaluation_id t_interview_data].
  destruct (getitem_str sd "session_id") as [sid|e] eqn:Hsid; cbn [bind].
  - rewrite Hrolestr. cbn [bind].
    destruct (evaluation_returns evaluation_llm py_float sid
                (interview_data request) role) as (r & Hr).
    exists r. split; [exact Hr|]. rewrite Hr.
    unfold update_evaluation, get_evaluation. rewrite Hget, Htruthy.
    unfold store_evaluation, get_results, results_body, get_evaluation.
    cbn [fst evaluations]. rewrite lookup_insert_eq.
    rewrite (dict_truthy_union _ _ Htruthy). cbn [negb].
    destruct (completed_update_spec r now' d) as (Hst & _ & _).
    rewrite (status_equals_other _ "completed" "processing" Hst) by discriminate.
    rewrite (status_equals_other _ "completed" "error" Hst) by discriminate.
    assert (Hres : (completed_update r now' ∪ d) !! "results" = Some (JResults r)).
    { apply lookup_union_Some_l. reflexivity. }
    rewrite Hres. reflexivity.
  - unfold update_evaluation, get_evaluation. rewrite Hget, Htruthy.
    unfold store_evaluation, get_results, results_body, get_evaluation.
    cbn [fst evaluations]. rewrite lookup_insert_eq.
    rewrite (dict_truthy_union _ _ Htruthy). cbn [negb].
    destruct (error_update_spec e now' d) as (Hst & _ & _).
    rewrite (status_equals_other _ "error" "processing" Hst) by discriminate.
    apply status_equals_spec in Hst. rewrite Hst. reflexivity.
Qed.


(** The shapes of a background run: no write, or one write that leaves
    the record completed with results or in error. *)
Lemma background_cases (st : storage) (t : task) (now : Q) :
  background_ st t now = st \/
  exists d',
    evaluations (background_ st t now) = <[t_evaluation_id t := d']> (evaluations st) /\
    dict_truthy d' = true /\
    ((status_is d' "completed" /\ exists r, d' !! "results" = Some (JResults r)) \/
     status_is d' "error").
Proof.
  unfold process_evaluation_background, update_evaluation.
  destruct (get_evaluation st (t_evaluation_id t)) as [d|] eqn:Hd;
    [|destruct (run_evaluation evaluation_llm py_float t); left; reflexivity].
  destruct (dict_truthy d) eqn:Ht;
    [|destruct (run_evaluation evaluation_llm py_float t); left; reflexivity].
  destruct (run_evaluation evaluation_llm py_float t) as [results|e]; right;
    eexists; (split; [reflexivity|]); (split; [apply dict_truthy_union; exact Ht|]).
  - left. split; [apply completed_update_spec|].
    exists results. apply lookup_union_Some_l. reflexivity.
  - right. apply error_update_spec.
Qed.

Lemma readable_step (s s' : server) :
  all_readable s ->
  step process_resume question_llm structured_chain transition_llm
       evaluation_llm py_float s s' ->
  all_readable s'.
Proof.
  intros Hall Hstep eid d.
  destruct Hstep as [s role filename uuid now|s request uuid now Hfresh|s before t after now Hpend];
    cbn [store].
  - rewrite initialize_keeps_evaluations. apply Hall.
  - destruct (submit_outcome (store s) request uuid now)
      as [[e He]|(d1 & t & _ & Hev & _ & _ & Hproc & _)].
    + rewrite He. cbn [fst snd]. apply Hall.
    + rewrite Hev. destruct (decide (uuid = eid)) as [<-|Hne].
      * rewrite lookup_insert_eq. intros [= <-]. left. exact Hproc.
      * rewrite lookup_insert_ne by exact Hne. apply Hall.
  - destruct (background_cases (store s) t now) as [->|(d' & Hev & _ & Hd')];
      [apply Hall|].
    rewrite Hev. destruct (decide (t_evaluation_id t = eid)) as [<-|Hne].
    + rewrite lookup_insert_eq. intros [= <-]. right. exact Hd'.
    + rewrite lookup_insert_ne by exact Hne. apply Hall.
Qed.

Lemma readable_reachable (s : server) :
  reachable process_resume question_llm structured_chain transition_llm
            evaluation_llm py_float s ->
  all_readable s.
Proof.
  induction 1 as [sess|s s' _ IH Hstep].
  - intros eid d H. cbn in H. rewrite lookup_empty in H. discriminate.
  - eapply readable_step; eassumption.
Qed.

(** X22.  On a server reached through its handlers a poll of an unknown id
    answers 404, a poll of an evaluation whose task has not run answers
    "still processing", and a poll of any other evaluation answers with its
    results or with the 500 of a recorded error; the replies "Results not
    available" and "Internal server error" do not occur. *)
Theorem poll_of_a_reachable_server (s : server) (eid : string) :
  reachable process_resume question_llm structured_chain transition_llm
            evaluation_llm py_float s ->
  match get_evaluation (store s) eid with
  | None => poll (store s) eid = Raise (HTTPException 404 "Evaluation not found")
  | Some d =>
      ((eid ∈ pending_ids s) /\
       poll (store s) eid
       = Ok (StillProcessing
               "Results are still being processed. Please try again in a moment.")) \/
      ((eid ∉ pending_ids s) /\
       ((exists r, d !! "results" = Some (JResults r) /\ poll (store s) eid = Ok (Results r)) \/
        poll (store s) eid = Raise (HTTPException 500 "Error processing evaluation")))
  end.
Proof.
  intros Hreach.
  destruct (get_evaluation (store s) eid) as [d|] eqn:Hd.
  - pose proof (invariant_reachable process_resume question_llm structured_chain
                  transition_llm evaluation_llm py_float s Hreach) as (Hrec & _ & _).
    pose proof (readable_reachable s Hreach eid d Hd) as Hread.
    destruct (Hrec eid d Hd) as (Htruthy & _ & _ & Hpend).
    destruct (poll_readable (store s) eid d Hd Htruthy Hread)
      as [[Hp H]|[[Hc (r & Hres & H)]|[He H]]].
    + left. split; [apply Hpend; exact Hp|exact H].
    + right. split; [|left; exists r; split; assumption].
      intros Hin. apply Hpend in Hin.
      pose proof (status_exclusive _ _ _ Hin Hc). discriminate.
    + right. split; [|right; exact H].
      intros Hin. apply Hpend in Hin.
      pose proof (status_exclusive _ _ _ Hin He). discriminate.
  - unfold get_results, results_body. rewrite Hd. reflexivity.
Qed.

End EndToEndFacts.

(** ** The resume processor *)

Section ResumeFacts.
Import Py SessionManager Main ResumeProcessor Spec.

Variable pdf_pages : string -> result (list string).
Variable docx_pages : string -> result (list string).
Variable read_text : string -> result string.
Variable split_text : string -> list string.
Variable create_store : string -> list string -> result QuestionGenerator.vector_db.

Abbreviation load := (load_text pdf_pages docx_pages read_text).
Abbreviation process := (process_resume pdf_pages docx_pages read_text split_text create_store).

(** X23.  [process_resume] hands back a vector store only for a file whose
    text is not blank and splits into at least one chunk; the store is the
    one created from those chunks under the collection name
    [resume_<whole seconds of the clock>].  A file it cannot load, a blank text, no chunk and a
    failing store all end in a plain exception whose message starts with
    "Failed to process resume: ". *)
Theorem process_resume_outcomes (resume_path : string) (now : Q) :
  match process resume_path now with
  | Ok (vectorstore, collection_name) =>
      exists text,
        load resume_path = Ok text /\
        truthy (strip text) = true /\
        split_text text <> [] /\
        collection_name = Some ("resume_" ++ pretty (py_int now))%string /\
        create_store ("resume_" ++ pretty (py_int now))%string (split_text text)
        = Ok vectorstore
  | Raise e =>
      exists reason, e = Exception ("Failed to process resume: " ++ reason)%string
  end.
Proof.
  unfold process_resume, process_resume_body.
  destruct (load resume_path) as [text|e] eqn:Hload; cbn [bind]; [|eauto].
  destruct (truthy (strip text)) eqn:Ht; cbn [negb]; [|eauto].
  destruct (split_text text) as [|c chunks] eqn:Hs; [eauto|].
  destruct (create_store _ (c :: chunks)) as [db|e] eqn:Hc; cbn [bind]; [|eauto].
  exists text. rewrite Hs. repeat split; try assumption. discriminate.
Qed.

Lemma blank_resume_is_refused (resume_path text : string) (now : Q) :
  load resume_path = Ok text -> truthy (strip text) = false ->
  process resume_path now
  = Raise (Exception
      "Failed to process resume: Resume file appears to be empty or could not be processed").
Proof.
  intros Hload Hblank. unfold process_resume, process_resume_body.
  rewrite Hload. cbn [bind]. rewrite Hblank. reflexivity.
Qed.

Section Initialize.

Variable question_llm : QuestionGenerator.prompt -> option string.
Variable structured_chain : string -> string -> option (list string).
Variable transition_llm : nat -> option string.

(** X24.  An upload with an accepted extension and role whose text is
    blank: the resume processor refuses it before any store is created,
    [initialize_interview] answers 500 with the processor's message, and no
    session is stored. *)
Theorem blank_resume_fails_initialize (st : storage) (role filename uuid text : string)
    (now processed_at : Q) :
  str_in (lower (path_suffix filename)) allowed_extensions = true ->
  str_in role valid_roles = true ->
  load ("uploads/" ++ uuid ++ "_" ++ filename)%string = Ok text ->
  truthy (strip text) = false ->
  initialize_interview (fun path => process path processed_at)
    question_llm structured_chain transition_llm st role filename uuid now
  = (Raise (HTTPException 500
       "Internal server error: Failed to process resume: Resume file appears to be empty or could not be processed"),
     st).
Proof.
  intros He Hr Hload Hblank. unfold initialize_interview, initialize_body.
  rewrite He, Hr. cbn [negb].
  rewrite (blank_resume_is_refused _ text _ Hload Hblank). reflexivity.
Qed.

End Initialize.

End ResumeFacts.

(** ** The websocket tasks and the chatbot node of graph2.py *)

Section StreamFacts.
Import Py Graph2 Spec.

Variable b64decode : string -> option string.
Variable playable : string -> bool.

Lemma receive_audio_stream_prefix (payloads chunks : list string)
    (rest : list ws_message) (a : AudioStreamer) :
  Forall2 (carries b64decode) payloads chunks ->
  receive_audio_stream b64decode (map audio_message payloads ++ rest) a
  = receive_audio_stream b64decode rest (put_all chunks a).
Proof.
  intros H. revert a. induction H as [|payload chunk payloads chunks Hc _ IH]; intros a.
  - reflexivity.
  - simpl. rewrite (receive_one_audio b64decode _ _ a Hc). apply IH.
Qed.

(** X25.  [receive_audio_stream], run on its own, puts the chunks of the
    audio messages in their order until the loop ends, and it ends at the
    first message that only carries the final flag, at the first payload
    that does not decode, and when the connection closes: in each case what
    was put stays on the queue and nothing behind that message is read.  A
    message that carries both audio and the final flag is an audio message:
    its chunk is put and the loop goes on. *)
Theorem reception_ends_at_final_or_bad_payload (payloads chunks : list string)
    (rest : list ws_message) (a : AudioStreamer) :
  Forall2 (carries b64decode) payloads chunks ->
  receive_audio_stream b64decode (map audio_message payloads ++ final_message :: rest) a
    = put_all chunks a /\
  (forall bad, truthy bad = true -> b64decode bad = None ->
     receive_audio_stream b64decode (map audio_message payloads ++ audio_message bad :: rest) a
     = put_all chunks a) /\
  receive_audio_stream b64decode (map audio_message payloads) a = put_all chunks a /\
  (forall payload chunk, carries b64decode payload chunk ->
     receive_audio_stream b64decode
       ({| audio := Some payload; isFinal := Some true |} :: rest) a
     = receive_audio_stream b64decode rest (add_audio_chunk a chunk)) /\
  audio_queue (put_all chunks a) = audio_queue a ++ map Some chunks.
Proof.
  intros H. split; [|split; [|split; [|split]]].
  - rewrite (receive_audio_stream_prefix _ _ _ a H). reflexivity.
  - intros bad Ht Hd. rewrite (receive_audio_stream_prefix _ _ _ a H).
    simpl. unfold receive_one, audio_payload. simpl. rewrite Ht, Hd. reflexivity.
  - rewrite <- (app_nil_r (map audio_message payloads)).
    rewrite (receive_audio_stream_prefix _ _ _ a H). reflexivity.
  - intros payload chunk [Ht Hd]. simpl. unfold receive_one, audio_payload. simpl.
    rewrite Ht, Hd. reflexivity.
  - apply put_all_fields.
Qed.

Lemma receive_one_fields (m : ws_message) (a : AudioStreamer) :
  is_playing (snd (receive_one b64decode m a)) = is_playing a /\
  audio_thread (snd (receive_one b64decode m a)) = audio_thread a /\
  earlier_threads (snd (receive_one b64decode m a)) = earlier_threads a /\
  taken (snd (receive_one b64decode m a)) = taken a /\
  play_calls (snd (receive_one b64decode m a)) = play_calls a /\
  exists l, audio_queue (snd (receive_one b64decode m a)) = audio_queue a ++ l.
Proof.
  unfold receive_one. destruct (audio_payload m) as [payload|].
  - destruct (b64decode payload) as [c|]; cbn; repeat split.
    + exists [Some c]. reflexivity.
    + exists []. rewrite app_nil_r. reflexivity.
  - destruct (final_flag m); cbn; repeat split; exists []; rewrite app_nil_r; reflexivity.
Qed.

Lemma since_stop_put (a b b' : AudioStreamer) (l : list (option string)) :
  since_stop playable a b ->
  is_playing b' = is_playing b -> audio_thread b' = audio_thread b ->
  earlier_threads b' = earlier_threads b -> taken b' = taken b ->
  play_calls b' = play_calls b -> audio_queue b' = audio_queue b ++ l ->
  since_stop playable a b'.
Proof.
  intros (Hp & He & Hcase) Hp' Ht' He' Hk' Hc' Hq'. unfold since_stop.
  rewrite Hp', He', Ht', Hk', Hc', Hq'. split; [exact Hp|]. split; [exact He|].
  destruct Hcase as [(Hw & Hwa & Hk & Hc & l0 & Hq)|Hleft]; [left|right; exact Hleft].
  repeat split; try assumption. exists (l0 ++ l). rewrite Hq, <- app_assoc. reflexivity.
Qed.

Lemma since_stop_start (a : AudioStreamer) :
  earlier_threads a = [] -> since_stop playable a (stop a).
Proof.
  intros He. unfold since_stop. cbn. split; [reflexivity|]. split; [exact He|].
  destruct (audio_thread a) eqn:Hth.
  - right. split; [discriminate|]. exists []. rewrite !app_nil_r. auto.
  - left. repeat split. exists []. reflexivity.
  - right. split; [discriminate|]. exists []. rewrite !app_nil_r. auto.
  - right. split; [discriminate|]. exists []. rewrite !app_nil_r. auto.
Qed.

Lemma since_stop_step (a : AudioStreamer) (p q : pipeline) :
  since_stop playable a (streamer p) -> step b64decode playable p q ->
  since_stop playable a (streamer q).
Proof.
  intros Hinv Hstep.
  destruct Hstep as [m ms os b|os b|ms r c os b|ms r os b t' b' Hturn
                    |ms r os b i t t' b' Hi Hturn];
    cbn [streamer] in *.
  - destruct (receive_one_fields m b) as (Hp & Ht & He & Hk & Hc & l & Hq).
    eapply since_stop_put; eassumption.
  - exact Hinv.
  - eapply (since_stop_put a b _ [Some c]); try reflexivity. exact Hinv.
  - destruct Hinv as (Hp & He & Hcase). unfold since_stop.
    destruct Hcase as [(Hw & Hwa & Hk & Hc & l & Hq)|(Hnw & extra & Hk & Hc & Hextra)].
    + rewrite Hw in Hturn. simpl in Hturn. rewrite Hq in Hturn.
      destruct (audio_queue a) as [|[c|] tl] eqn:Hqa; simpl in Hturn.
      * injection Hturn as <- <-. cbn.
        split; [exact Hp|]. split; [exact He|]. right. split; [discriminate|].
        exists []. rewrite !app_nil_r. auto.
      * destruct (playable c) eqn:Hpc; injection Hturn as <- <-; cbn;
          (split; [exact Hp|]); (split; [exact He|]); right; (split; [discriminate|]);
          exists [c]; cbn; rewrite Hpc, Hk, Hc;
          (split; [reflexivity|]); (split; [try rewrite app_nil_r; reflexivity|]);
          right; (split; [exact Hwa|]); exists c, tl; split; reflexivity.
      * injection Hturn as <- <-. cbn.
        split; [exact Hp|]. split; [exact He|]. right. split; [discriminate|].
        exists []. rewrite !app_nil_r. auto.
    + destruct (audio_thread b) as [| |c|] eqn:Hth; simpl in Hturn;
        [|contradiction| |discriminate].
      * rewrite Hp in Hturn. injection Hturn as <- <-. cbn.
        split; [exact Hp|]. split; [exact He|]. right. split; [discriminate|].
        exists extra. auto.
      * injection Hturn as <- <-. cbn.
        split; [exact Hp|]. split; [exact He|]. right. split; [discriminate|].
        exists extra. auto.
  - destruct Hinv as (_ & He & _). rewrite He in Hi. discriminate.
Qed.

Lemma since_stop_steps (a : AudioStreamer) (p q : pipeline) :
  since_stop playable a (streamer p) -> steps b64decode playable p q ->
  since_stop playable a (streamer q).
Proof.
  intros Hp Hsteps. induction Hsteps as [p|p q r _ IH Hstep]; [exact Hp|].
  eapply since_stop_step; [apply IH; exact Hp|exact Hstep].
Qed.

(** After [stop()] the thread gets out of its loop. *)
Lemma since_stop_exit (a : AudioStreamer) (p : pipeline) :
  since_stop playable a (streamer p) ->
  exists q, steps b64decode playable p q /\ audio_thread (streamer q) = Exited.
Proof.
  intros (Hp & He & Hcase). destruct p as [ms r os b]. cbn [streamer] in *.
  assert (Htesting : forall b1, is_playing b1 = false -> audio_thread b1 = Testing ->
            exists q, steps b64decode playable
                        {| inbox := ms; receiving := r; others := os; streamer := b1 |} q /\
                      audio_thread (streamer q) = Exited).
  { intros b1 Hp1 Ht1. eexists. split.
    - eapply steps_more; [apply steps_refl|].
      apply (step_player b64decode playable ms r os b1 Exited b1).
      rewrite Ht1. simpl. rewrite Hp1. reflexivity.
    - reflexivity. }
  assert (Hleft : forall b1, is_playing b1 = false -> audio_thread b1 <> Waiting ->
            exists q, steps b64decode playable
                        {| inbox := ms; receiving := r; others := os; streamer := b1 |} q /\
                      audio_thread (streamer q) = Exited).
  { intros b1 Hp1 Hnw. destruct (audio_thread b1) as [| |c|] eqn:Ht1.
    - apply Htesting; assumption.
    - contradiction.
    - destruct (Htesting (set_thread b1 Testing) Hp1 eq_refl) as (q & Hq & Hex).
      exists q. split; [|exact Hex].
      eapply steps_trans; [|exact Hq].
      apply steps_one. apply (step_player b64decode playable ms r os b1 Testing b1).
      rewrite Ht1. reflexivity.
    - eexists. split; [apply steps_refl|exact Ht1]. }
  destruct Hcase as [(Hw & _ & _ & _ & l & Hq)|(Hnw & _)]; [|apply Hleft; assumption].
  assert (Hturn : exists t' b1, player_turn playable (audio_thread b) b = Some (t', b1) /\
            t' <> Waiting /\ is_playing b1 = false).
  { rewrite Hw. simpl. rewrite Hq.
    destruct (audio_queue a) as [|[c|] tl]; simpl.
    - eexists. eexists. split; [reflexivity|]. split; [discriminate|exact Hp].
    - destruct (playable c); eexists; eexists;
        (split; [reflexivity|]); (split; [discriminate|exact Hp]).
    - eexists. eexists. split; [reflexivity|]. split; [discriminate|exact Hp]. }
  destruct Hturn as (t' & b1 & Hturn & Hnw & Hp1).
  destruct (Hleft (set_thread b1 t') Hp1 Hnw) as (q & Hq' & Hex).
  exists q. split; [|exact Hex].
  eapply steps_trans; [|exact Hq'].
  apply steps_one. apply step_player. exact Hturn.
Qed.

(** A streamer whose only thread is out of its loop plays nothing more. *)
Lemma exited_stays (p q : pipeline) :
  earlier_threads (streamer p) = [] -> audio_thread (streamer p) = Exited ->
  steps b64decode playable p q ->
  earlier_threads (streamer q) = [] /\ audio_thread (streamer q) = Exited /\
  taken (streamer q) = taken (streamer p) /\
  play_calls (streamer q) = play_calls (streamer p).
Proof.
  intros He Ht Hsteps. induction Hsteps as [p|p q r _ IH Hstep]; [auto|].
  destruct (IH He Ht) as (He1 & Ht1 & Hk1 & Hc1). clear IH.
  destruct Hstep as [m ms os b|os b|ms r0 c os b|ms r0 os b t' b' Hturn
                    |ms r0 os b i t t' b' Hi Hturn];
    cbn [streamer] in *.
  - destruct (receive_one_fields m b) as (_ & Ht' & He' & Hk' & Hc' & _).
    rewrite Ht', He', Hk', Hc'. auto.
  - auto.
  - cbn. auto.
  - rewrite Ht1 in Hturn. discriminate.
  - rewrite He1 in Hi. discriminate.
Qed.

(** X26.  [stop()] does not end the playback at once.  A thread that is
    inside [get] when the flag is cleared has already passed the test of
    its loop: it still takes the chunk at the head of the queue, if there is
    one, and plays it.  That is all: whatever the receivers and the thread
    do afterwards, at most this one chunk is taken and played after
    [stop()], the thread is never in [get] again, it can always get out of
    its loop, and once it is out nothing is taken or played, so what is
    still queued and what arrives later is dropped. *)
Theorem at_most_one_chunk_after_stop (ms : list ws_message) (r : bool)
    (os : list string) (a : AudioStreamer) (q : pipeline) :
  earlier_threads a = [] ->
  steps b64decode playable
    {| inbox := ms; receiving := r; others := os; streamer := stop a |} q ->
  is_playing (streamer q) = false /\
  (exists extra,
     taken (streamer q) = taken a ++ extra /\
     play_calls (streamer q) = play_calls a ++ List.filter playable extra /\
     (extra = [] \/
      (audio_thread a = Waiting /\
       exists c tl, audio_queue a = Some c :: tl /\ extra = [c] /\
                    audio_thread (streamer q) <> Waiting))) /\
  (forall c tl, audio_thread a = Waiting -> audio_queue a = Some c :: tl ->
     exists q1,
       steps b64decode playable
         {| inbox := ms; receiving := r; others := os; streamer := stop a |} q1 /\
       taken (streamer q1) = taken a ++ [c] /\
       play_calls (streamer q1) = play_calls a ++ List.filter playable [c]) /\
  (exists q', steps b64decode playable q q' /\ audio_thread (streamer q') = Exited) /\
  (audio_thread (streamer q) = Exited ->
   forall q', steps b64decode playable q q' ->
     audio_thread (streamer q') = Exited /\
     taken (streamer q') = taken (streamer q) /\
     play_calls (streamer q') = play_calls (streamer q)).
Proof.
  intros He Hsteps.
  pose proof (since_stop_steps a
                {| inbox := ms; receiving := r; others := os; streamer := stop a |} q
                (since_stop_start a He) Hsteps) as Hinv.
  pose proof Hinv as (Hp & Heq & Hcase).
  split; [exact Hp|]. split; [|split; [|split]].
  - destruct Hcase as [(Hw & Hwa & Hk & Hc & _)|(Hnw & extra & Hk & Hc & Hextra)].
    + exists []. rewrite !app_nil_r. auto.
    + exists extra. split; [exact Hk|]. split; [exact Hc|].
      destruct Hextra as [->|(Hwa & c & tl & Hq & ->)]; [left; reflexivity|].
      right. split; [exact Hwa|]. exists c, tl. auto.
  - intros c tl Hwa Hqa.
    assert (Hturn : exists t' a1,
              player_turn playable (audio_thread (stop a)) (stop a) = Some (t', a1) /\
              taken a1 = taken a ++ [c] /\
              play_calls a1 = play_calls a ++ List.filter playable [c]).
    { cbn [stop audio_thread]. rewrite Hwa. cbn [player_turn audio_queue stop]. rewrite Hqa.
      cbn. destruct (playable c); eexists; eexists; (split; [reflexivity|]); cbn;
        (split; [reflexivity|]); [reflexivity|]. rewrite app_nil_r. reflexivity. }
    destruct Hturn as (t' & a1 & Hturn & Hk & Hc).
    exists {| inbox := ms; receiving := r; others := os; streamer := set_thread a1 t' |}.
    split; [apply steps_one; apply step_player; exact Hturn|].
    cbn. split; assumption.
  - apply (since_stop_exit a q Hinv).
  - intros Hex q' Hq'.
    destruct (exited_stays q q' Heq Hex Hq') as (_ & Ht & Hk & Hc). auto.
Qed.

Lemma string_app_assoc (s t u : string) : ((s ++ t) ++ u = s ++ (t ++ u))%string.
Proof.
  induction s as [|c s IH]; [reflexivity|].
  change (String c ((s ++ t) ++ u)%string = String c (s ++ (t ++ u))%string).
  rewrite IH. reflexivity.
Qed.

Lemma string_app_nil_r (s : string) : (s ++ EmptyString)%string = s.
Proof.
  induction s as [|c s IH]; [reflexivity|].
  change (String c (s ++ EmptyString)%string = String c s). rewrite IH. reflexivity.
Qed.

Lemma truthy_false_empty (s : string) : truthy s = false -> s = EmptyString.
Proof. destruct s; [reflexivity|discriminate]. Qed.

Lemma send_text_stream_closed_form (budget : nat) (text_stream : list string) :
  send_text_stream budget text_stream
  = take budget (map TextChunk (spoken text_stream) ++ [Flush]).
Proof.
  revert budget. induction text_stream as [|c rest IH]; intros budget.
  - destruct budget; [reflexivity|].
    cbn [send_text_stream spoken List.filter map app take]. rewrite take_nil. reflexivity.
  - unfold spoken in *. cbn [send_text_stream List.filter].
    destruct (truthy c); [|apply IH].
    destruct budget; [reflexivity|]. cbn [map app take]. rewrite IH. reflexivity.
Qed.

Lemma sent_text_chunks (chunks : list string) :
  sent_text (map TextChunk chunks ++ [Flush]) = concat_text chunks.
Proof.
  induction chunks as [|c chunks IH]; [reflexivity|].
  cbn [map app sent_text concat_text fold_right]. rewrite IH. reflexivity.
Qed.

Lemma concat_text_spoken (pieces : list string) :
  concat_text (spoken pieces) = concat_text pieces.
Proof.
  induction pieces as [|c pieces IH]; [reflexivity|].
  unfold spoken in *. cbn [List.filter concat_text fold_right].
  destruct (truthy c) eqn:E.
  - cbn [concat_text fold_right]. f_equal. exact IH.
  - rewrite (truthy_false_empty c E). exact IH.
Qed.

(** X27.  [send_text_stream] sends the non-empty chunks of the stream as
    text messages, in their order, and then the flush; empty chunks are not
    sent.  When the connection breaks after [budget] sends, what was sent
    is the first [budget] of those messages, so the flush goes out only
    after every chunk did. *)
Theorem text_is_sent_in_order (budget : nat) (text_stream : list string) :
  send_text_stream budget text_stream
    = take budget (map TextChunk (spoken text_stream) ++ [Flush]) /\
  ((length (spoken text_stream) < budget)%nat ->
     send_text_stream budget text_stream = map TextChunk (spoken text_stream) ++ [Flush] /\
     sent_text (send_text_stream budget text_stream) = concat_text text_stream) /\
  ((budget <= length (spoken text_stream))%nat ->
     send_text_stream budget text_stream = map TextChunk (take budget (spoken text_stream))).
Proof.
  rewrite send_text_stream_closed_form. split; [reflexivity|]. split.
  - intros Hlt. rewrite take_ge by (rewrite length_app, length_map; simpl; lia).
    split; [reflexivity|]. rewrite sent_text_chunks. apply concat_text_spoken.
  - intros Hle. rewrite take_app_le by (rewrite length_map; exact Hle).
    rewrite <- fmap_take. reflexivity.
Qed.

Lemma collect_stream_spec (stream : list string) (full_content : string)
    (text_chunks : list string) :
  collect_stream stream full_content text_chunks
  = ((full_content ++ concat_text stream)%string, text_chunks ++ spoken stream).
Proof.
  revert full_content text_chunks.
  induction stream as [|c stream IH]; intros full_content text_chunks.
  - cbn [collect_stream concat_text fold_right spoken List.filter].
    rewrite string_app_nil_r, app_nil_r. reflexivity.
  - unfold spoken in *. cbn [collect_stream List.filter concat_text fold_right].
    destruct (truthy c) eqn:E.
    + rewrite IH, string_app_assoc, <- app_assoc. reflexivity.
    + rewrite IH, (truthy_false_empty c E). reflexivity.
Qed.

(** X28.  The message [chatbot] returns holds the pieces of the model's
    stream put end to end.  When no piece is non-empty no audio thread is
    started.  Otherwise the thread sends the voice settings, then those
    pieces as text chunks in their order, then the flush, as far as the
    connection lasts; on a connection that holds, the text sent is the
    content of the message returned. *)
Theorem chatbot_speaks_what_it_returns (connected : bool) (budget : nat)
    (stream : list string) :
  fst (chatbot connected budget stream) = concat_text stream /\
  (spoken stream = [] -> snd (chatbot connected budget stream) = None) /\
  (spoken stream <> [] ->
     snd (chatbot connected budget stream)
     = Some (if connected
             then take budget (VoiceSettings :: map TextChunk (spoken stream) ++ [Flush])
             else [])) /\
  (spoken stream <> [] -> connected = true ->
   (S (length (spoken stream)) < budget)%nat ->
     exists sends,
       snd (chatbot connected budget stream) = Some sends /\
       sends = VoiceSettings :: map TextChunk (spoken stream) ++ [Flush] /\
       sent_text sends = fst (chatbot connected budget stream)).
Proof.
  unfold chatbot. rewrite collect_stream_spec. cbn [app fst snd].
  assert (Hsends : spoken stream <> [] ->
            match spoken stream with
            | [] => None
            | _ :: _ => Some (text_to_speech_sends connected budget (spoken stream))
            end
            = Some (if connected
                    then take budget (VoiceSettings :: map TextChunk (spoken stream) ++ [Flush])
                    else [])).
  { intros Hne. destruct (spoken stream) as [|c l] eqn:E; [congruence|].
    rewrite <- E. unfold text_to_speech_sends. destruct connected; [|reflexivity].
    destruct budget; [reflexivity|].
    rewrite send_text_stream_closed_form.
    assert (Hidem : spoken (spoken stream) = spoken stream).
    { unfold spoken. clear. induction stream as [|x l IH]; [reflexivity|].
      cbn [List.filter]. destruct (truthy x) eqn:Ex; [|exact IH].
      cbn [List.filter]. rewrite Ex, IH. reflexivity. }
    rewrite Hidem. reflexivity. }
  split; [reflexivity|]. split; [intros ->; reflexivity|]. split; [exact Hsends|].
  intros Hne -> Hb. rewrite (Hsends Hne). eexists. split; [reflexivity|].
  assert (Htake : take budget (VoiceSettings :: map TextChunk (spoken stream) ++ [Flush])
                  = VoiceSettings :: map TextChunk (spoken stream) ++ [Flush]).
  { apply take_ge. cbn [length]. rewrite length_app, length_map. simpl. lia. }
  rewrite Htake. split; [reflexivity|].
  cbn [sent_text]. rewrite sent_text_chunks. apply concat_text_spoken.
Qed.

End StreamFacts.

(** ** The further theorems at concrete inputs *)

Section FurtherWitnesses.
Import Py RequestModels ResponseModels SessionManager Main Graph2 Spec.

Lemma analytics_labels_witness :
  Forall (fun qa => (-86400 <= answer_duration qa)%Q /\ (answer_duration qa <= 86400)%Q)
         (interview_data one_answer) /\
  (let a := EvaluationService._calculate_analytics (interview_data one_answer) [7]%Q in
   (interview_data one_answer = [] \/ [7]%Q = [] -> a = EvaluationService.analytics_fallback) /\
   (interview_data one_answer <> [] -> [7]%Q <> [] ->
      a <> EvaluationService.analytics_fallback /\
      In (speaking_pace a) ["Slow"; "Normal"; "Fast"] /\
      In (technical_depth a) ["Low"; "Medium"; "High"] /\
      In (communication_clarity a) ["Needs Improvement"; "Fair"; "Good"; "Excellent"] /\
      (communication_clarity a = "Excellent" \/ communication_clarity a = "Good" ->
       technical_depth a <> "Low") /\
      (Forall (fun qa => (answer_duration qa <= 0)%Q) (interview_data one_answer) ->
       speaking_pace a = "Normal"))).
Proof.
  assert (H : Forall (fun qa => (-86400 <= answer_duration qa)%Q /\
                                (answer_duration qa <= 86400)%Q)
                     (interview_data one_answer))
    by (repeat constructor; discriminate).
  split; [exact H|].
  apply (analytics_labels (interview_data one_answer) [7]%Q H).
Defined.

(** The answer of twelve seconds, scored 7: five words in twelve seconds
    is a slow pace. *)
Example analytics_of_one_answer :
  EvaluationService._calculate_analytics (interview_data one_answer) [7]%Q
  = {| total_duration := "0 minutes 12 seconds";
       average_response_time := 120 # 10;
       speaking_pace := "Slow";
       technical_depth := "Medium";
       communication_clarity := "Needs Improvement";
       consistency_score := None |}.
Proof. vm_compute. reflexivity. Qed.

Lemma duration_str_minutes_seconds_witness :
  (0 <= 125)%Q /\ (125 < 9007199254740992)%Q /\
  exists minutes seconds : Z,
    EvaluationService.duration_str 125
      = (pretty minutes ++ " minutes " ++ pretty seconds ++ " seconds")%string /\
    (0 <= minutes)%Z /\
    (0 <= seconds < 60)%Z /\
    (60 * minutes + seconds = Qfloor 125)%Z.
Proof.
  split; [discriminate|]. split; [reflexivity|].
  apply (duration_str_minutes_seconds 125); [discriminate|reflexivity].
Defined.

Example two_minutes_five_seconds :
  EvaluationService.duration_str 125 = "2 minutes 5 seconds".
Proof. vm_compute. reflexivity. Qed.

Lemma overall_score_near_mean_witness :
  Forall (fun s => (0 <= s)%Q /\ (s <= 10)%Q) [5; 7]%Q /\
  mean [5; 7]%Q = Some (Qsum [5; 7]%Q / 2)%Q /\
  exists v,
    EvaluationService._calculate_overall_score [5; 7]%Q (analytics_with "Good" (Some 9%Q))
      = Some v /\
    (Qsum [5; 7]%Q / 2 - (1 # 2) <= v)%Q /\ (v <= Qsum [5; 7]%Q / 2 + (8 # 10))%Q.
Proof.
  assert (H : Forall (fun s => (0 <= s)%Q /\ (s <= 10)%Q) [5; 7]%Q)
    by (repeat constructor; discriminate).
  split; [exact H|]. split; [reflexivity|].
  apply (overall_score_near_mean [5; 7]%Q (analytics_with "Good" (Some 9%Q))
           (Qsum [5; 7]%Q / 2)%Q H).
  reflexivity.
Defined.

Lemma fallback_fills_from_the_bank_witness :
  numbered_stub_llm (QuestionGenerator.FallbackPrompt "SDE" EmptyString)
    = Some numbered_stub_answer /\
  (2 < 5)%nat /\
  QuestionGenerator._generate_fallback_questions numbered_stub_llm "SDE" EmptyString !! 2%nat
  = if (2 <? length (numbered_lines (strip numbered_stub_answer)))%nat
    then numbered_lines (strip numbered_stub_answer) !! 2%nat
    else QuestionGenerator._get_generic_questions "SDE" !! 2%nat.
Proof.
  split; [reflexivity|]. split; [lia|].
  apply (fallback_fills_from_the_bank numbered_stub_llm "SDE" EmptyString
           numbered_stub_answer 2); [reflexivity|lia].
Defined.

Lemma no_context_goes_to_the_fallback_witness :
  (forall query, no_passages query 2%nat = None \/ no_passages query 2%nat = Some []) /\
  (QuestionGenerator.generate_questions silent_question_llm three_questions_chain
     no_passages "SDE" "uploads/cv.txt"
   = QuestionGenerator._generate_fallback_questions silent_question_llm "SDE" EmptyString /\
   length (QuestionGenerator.generate_questions silent_question_llm three_questions_chain
             no_passages "SDE" "uploads/cv.txt") = 5%nat).
Proof.
  split; [intros query; left; reflexivity|].
  apply (no_context_goes_to_the_fallback silent_question_llm three_questions_chain
           no_passages "SDE" "uploads/cv.txt").
  intros query. left. reflexivity.
Defined.

Lemma initialize_stores_the_session_witness :
  fst (initialize_interview working_resume silent_question_llm no_chain
         silent_transition_llm empty_storage "SDE" "cv.txt" "u1" 0) = Ok sde_response /\
  (let st' := snd (initialize_interview working_resume silent_question_llm no_chain
                     silent_transition_llm empty_storage "SDE" "cv.txt" "u1" 0) in
   ir_session_id sde_response = "u1" /\
   map id (questions sde_response) = ids_from_one (length (questions sde_response)) /\
   (exists db name,
      working_resume ("uploads/" ++ "u1" ++ "_" ++ "cv.txt")%string = Ok (db, name) /\
      map text (questions sde_response)
      = QuestionGenerator.generate_questions silent_question_llm no_chain db "SDE"
          ("uploads/" ++ "u1" ++ "_" ++ "cv.txt")%string) /\
   length (transitions sde_response) <= length (questions sde_response) /\
   get_session_info plain_type_error st' "u1"
   = Ok {| info_session_id := JStr "u1";
           info_role := JStr "SDE";
           questions_count := length (questions sde_response);
           created_at := JNum 0 |} /\
   (forall other, other <> "u1" -> get_session st' other = get_session empty_storage other) /\
   evaluations st' = evaluations empty_storage).
Proof.
  split; [reflexivity|].
  apply (initialize_stores_the_session working_resume silent_question_llm no_chain
           silent_transition_llm plain_type_error empty_storage "SDE" "cv.txt" "u1" 0
           sde_response).
  reflexivity.
Defined.

Lemma submitted_polls_as_processing_witness :
  fst (fst (submit_interview (store one_session) one_answer "e1" 0)) = Ok submitted_response /\
  (evaluation_id submitted_response = "e1" /\
   get_results plain_type_error
     (snd (fst (submit_interview (store one_session) one_answer "e1" 0)))
     (evaluation_id submitted_response)
   = Ok (StillProcessing "Results are still being processed. Please try again in a moment.") /\
   sessions (snd (fst (submit_interview (store one_session) one_answer "e1" 0)))
   = sessions (store one_session)).
Proof.
  split; [reflexivity|].
  apply (submitted_polls_as_processing plain_type_error (store one_session) one_answer
           "e1" 0 submitted_response).
  reflexivity.
Defined.

Lemma submit_evaluate_poll_witness :
  submit_interview (store one_session) one_answer "e1" 0
    = (Ok submitted_response, store after_submit, Some submitted_task) /\
  exists session_data role,
    get_session (store one_session) (session_id one_answer) = Some session_data /\
    session_data !! "role" = Some (JStr role) /\
    match getitem_str session_data "session_id" with
    | Ok sid =>
        exists r,
          EvaluationService.evaluate_complete_interview silent_evaluation_llm float_literal
            sid (interview_data one_answer) role = Ok r /\
          get_results plain_type_error
            (process_evaluation_background silent_evaluation_llm float_literal
               (store after_submit) submitted_task 5) "e1"
          = Ok (Results r)
    | Raise _ =>
        get_results plain_type_error
          (process_evaluation_background silent_evaluation_llm float_literal
             (store after_submit) submitted_task 5) "e1"
        = Raise (HTTPException 500 "Error processing evaluation")
    end.
Proof.
  split; [reflexivity|].
  apply (submit_evaluate_poll silent_evaluation_llm float_literal plain_type_error
           (store one_session) (store after_submit) one_answer "e1" 0 5
           submitted_response submitted_task).
  reflexivity.
Defined.

Lemma poll_of_a_reachable_server_witness :
  reachable no_resume silent_question_llm no_chain silent_transition_llm
            silent_evaluation_llm float_literal after_submit /\
  match get_evaluation (store after_submit) "e1" with
  | None =>
      get_results plain_type_error (store after_submit) "e1"
      = Raise (HTTPException 404 "Evaluation not found")
  | Some d =>
      (("e1" ∈ pending_ids after_submit) /\
       get_results plain_type_error (store after_submit) "e1"
       = Ok (StillProcessing
               "Results are still being processed. Please try again in a moment.")) \/
      (("e1" ∉ pending_ids after_submit) /\
       ((exists r, d !! "results" = Some (JResults r) /\
                   get_results plain_type_error (store after_submit) "e1" = Ok (Results r)) \/
        get_results plain_type_error (store after_submit) "e1"
        = Raise (HTTPException 500 "Error processing evaluation")))
  end.
Proof.
  split; [exact after_submit_reachable|].
  apply (poll_of_a_reachable_server no_resume silent_question_llm no_chain
           silent_transition_llm silent_evaluation_llm float_literal plain_type_error
           after_submit "e1").
  exact after_submit_reachable.
Defined.

Lemma blank_resume_fails_initialize_witness :
  str_in (lower (path_suffix "cv.txt")) allowed_extensions = true /\
  str_in "SDE" valid_roles = true /\
  ResumeProcessor.load_text no_pages no_pages blank_file
    ("uploads/" ++ "u1" ++ "_" ++ "cv.txt")%string = Ok "   " /\
  truthy (strip "   ") = false /\
  initialize_interview
    (fun path => ResumeProcessor.process_resume no_pages no_pages blank_file one_chunk
                   store_of_chunks path 7)
    silent_question_llm no_chain silent_transition_llm empty_storage "SDE" "cv.txt" "u1" 0
  = (Raise (HTTPException 500
       "Internal server error: Failed to process resume: Resume file appears to be empty or could not be processed"),
     empty_storage).
Proof.
  split; [reflexivity|]. split; [reflexivity|]. split; [reflexivity|].
  split; [reflexivity|].
  apply (blank_resume_fails_initialize no_pages no_pages blank_file one_chunk
           store_of_chunks silent_question_llm no_chain silent_transition_llm
           empty_storage "SDE" "cv.txt" "u1" "   " 0 7); reflexivity.
Defined.

Lemma reception_ends_at_final_or_bad_payload_witness :
  Forall2 (carries plain_decode) abc_payloads abc_payloads /\
  (receive_audio_stream plain_decode
     (map audio_message abc_payloads ++ final_message :: [audio_message "RA=="]) started
   = put_all abc_payloads started /\
   (forall bad, truthy bad = true -> plain_decode bad = None ->
      receive_audio_stream plain_decode
        (map audio_message abc_payloads ++ audio_message bad :: [audio_message "RA=="]) started
      = put_all abc_payloads started) /\
   receive_audio_stream plain_decode (map audio_message abc_payloads) started
   = put_all abc_payloads started /\
   (forall payload chunk, carries plain_decode payload chunk ->
      receive_audio_stream plain_decode
        ({| audio := Some payload; isFinal := Some true |} :: [audio_message "RA=="]) started
      = receive_audio_stream plain_decode [audio_message "RA=="]
          (add_audio_chunk started chunk)) /\
   audio_queue (put_all abc_payloads started)
   = audio_queue started ++ map Some abc_payloads).
Proof.
  assert (Hc : Forall2 (carries plain_decode) abc_payloads abc_payloads)
    by (repeat constructor).
  split; [exact Hc|].
  apply (reception_ends_at_final_or_bad_payload plain_decode abc_payloads abc_payloads
           [audio_message "RA=="] started Hc).
Defined.

Lemma at_most_one_chunk_after_stop_witness :
  earlier_threads (set_thread mid_reply Waiting) = [] /\
  Graph2.steps plain_decode plays_all
    {| inbox := [audio_message "QQ=="]; receiving := true; others := [];
       streamer := stop (set_thread mid_reply Waiting) |}
    {| inbox := [audio_message "QQ=="]; receiving := true; others := [];
       streamer := stop (set_thread mid_reply Waiting) |} /\
  (let a := set_thread mid_reply Waiting in
   let q := {| inbox := [audio_message "QQ=="]; receiving := true; others := [];
               streamer := stop a |} in
   is_playing (streamer q) = false /\
   (exists extra,
      taken (streamer q) = taken a ++ extra /\
      play_calls (streamer q) = play_calls a ++ List.filter plays_all extra /\
      (extra = [] \/
       (audio_thread a = Waiting /\
        exists c tl, audio_queue a = Some c :: tl /\ extra = [c] /\
                     audio_thread (streamer q) <> Waiting))) /\
   (forall c tl, audio_thread a = Waiting -> audio_queue a = Some c :: tl ->
      exists q1,
        Graph2.steps plain_decode plays_all q q1 /\
        taken (streamer q1) = taken a ++ [c] /\
        play_calls (streamer q1) = play_calls a ++ List.filter plays_all [c]) /\
   (exists q', Graph2.steps plain_decode plays_all q q' /\
               audio_thread (streamer q') = Exited) /\
   (audio_thread (streamer q) = Exited ->
    forall q', Graph2.steps plain_decode plays_all q q' ->
      audio_thread (streamer q') = Exited /\
      taken (streamer q') = taken (streamer q) /\
      play_calls (streamer q') = play_calls (streamer q))).
Proof.
  split; [reflexivity|]. split; [apply steps_refl|].
  apply (at_most_one_chunk_after_stop plain_decode plays_all [audio_message "QQ=="] true []
           (set_thread mid_reply Waiting) _ eq_refl).
  apply steps_refl.
Defined.

Lemma disk_with_session_represents :
  Disk.represents srv disk_with_session (Main.store one_session).
Proof.
  exact (proj2 (refine_store_session srv no_directory any_name all_encodable ∅
                  empty_storage "s1" (fun _ => eq_refl) (represents_empty srv) eq_refl
                  sde_session)).
Qed.

Lemma files_refine_the_store_by_id_witness :
  (forall d, all_encodable d = true) /\
  Disk.represents srv disk_with_session (Main.store one_session) /\
  Disk.usable srv no_directory any_name "s1" = true /\
  (Disk.get_session srv no_directory any_name disk_with_session "s1"
   = SessionManager.get_session (Main.store one_session) "s1" /\
   Disk.get_evaluation srv no_directory any_name disk_with_session "s1"
   = SessionManager.get_evaluation (Main.store one_session) "s1" /\
   (forall data,
      snd (Disk.store_session srv no_directory any_name all_encodable disk_with_session
             "s1" data)
      = snd (SessionManager.store_session (Main.store one_session) "s1" data) /\
      Disk.represents srv
        (fst (Disk.store_session srv no_directory any_name all_encodable disk_with_session
                "s1" data))
        (fst (SessionManager.store_session (Main.store one_session) "s1" data))) /\
   (forall data,
      snd (Disk.store_evaluation srv no_directory any_name all_encodable disk_with_session
             "s1" data)
      = snd (SessionManager.store_evaluation (Main.store one_session) "s1" data) /\
      Disk.represents srv
        (fst (Disk.store_evaluation srv no_directory any_name all_encodable
                disk_with_session "s1" data))
        (fst (SessionManager.store_evaluation (Main.store one_session) "s1" data))) /\
   (forall updates,
      snd (Disk.update_evaluation srv no_directory any_name all_encodable disk_with_session
             "s1" updates)
      = snd (SessionManager.update_evaluation (Main.store one_session) "s1" updates) /\
      Disk.represents srv
        (fst (Disk.update_evaluation srv no_directory any_name all_encodable
                disk_with_session "s1" updates))
        (fst (SessionManager.update_evaluation (Main.store one_session) "s1" updates))) /\
   (snd (Disk.delete_session srv no_directory any_name disk_with_session "s1")
    = snd (SessionManager.delete_session (Main.store one_session) "s1") /\
    Disk.represents srv
      (fst (Disk.delete_session srv no_directory any_name disk_with_session "s1"))
      (fst (SessionManager.delete_session (Main.store one_session) "s1"))) /\
   (snd (Disk.delete_evaluation srv no_directory any_name disk_with_session "s1")
    = snd (SessionManager.delete_evaluation (Main.store one_session) "s1") /\
    Disk.represents srv
      (fst (Disk.delete_evaluation srv no_directory any_name disk_with_session "s1"))
      (fst (SessionManager.delete_evaluation (Main.store one_session) "s1"))) /\
   (forall request uuid now,
      session_id request = "s1" -> Disk.usable srv no_directory any_name uuid = true ->
      let on_files :=
        Disk.submit_interview srv no_directory any_name all_encodable disk_with_session
          request uuid now in
      let by_id := Main.submit_interview (Main.store one_session) request uuid now in
      fst (fst on_files) = fst (fst by_id) /\
      snd on_files = snd by_id /\
      Disk.represents srv (snd (fst on_files)) (snd (fst by_id)))).
Proof.
  split; [intros d; reflexivity|].
  split; [exact disk_with_session_represents|].
  split; [reflexivity|].
  apply (files_refine_the_store_by_id srv no_directory any_name all_encodable
           disk_with_session (Main.store one_session) "s1");
    [intros d; reflexivity|exact disk_with_session_represents|reflexivity].
Defined.

(** The submit of [one_answer] on the files and by id: the same answer,
    the same task, and the disk holds the records of the store. *)
Example submit_on_the_files_and_by_id :
  fst (fst (Disk.submit_interview srv no_directory any_name all_encodable disk_with_session
              one_answer "e1" 0))
  = fst (fst (Main.submit_interview (Main.store one_session) one_answer "e1" 0)) /\
  snd (Disk.submit_interview srv no_directory any_name all_encodable disk_with_session
         one_answer "e1" 0)
  = snd (Main.submit_interview (Main.store one_session) one_answer "e1" 0) /\
  Disk.represents srv disk_after_submit (Main.store after_submit).
Proof.
  apply (refine_submit srv no_directory any_name all_encodable disk_with_session
           (Main.store one_session) one_answer "e1" 0);
    [intros d; reflexivity|exact disk_with_session_represents|reflexivity|reflexivity].
Qed.

End FurtherWitnesses.
